(** * stablecoin-exchange: the payment saga and its leg executors

    A shallow embedding of the payment workflow (workflows.ts), its
    activities (activities.ts), the repositories and schema they write
    through (db/*.ts, db/schema.sql), the HTTP endpoints (server.ts) and
    the import of the rates (scripts/importFxRates.ts), followed by the
    properties proved about them.

    Conventions of the embedding.
    - A JS [number] is an IEEE-754 binary64 value: Rocq's primitive [float].
    - An [async] function is a computation over the world it touches, in a
      state monad whose result is either a value or a thrown exception; the
      state reached before a [throw] is kept (no transaction spans two
      statements anywhere in the source).
    - A table is the list of its rows, newest first.  A row keeps the
      columns the source writes; the [created_at]/[updated_at] columns,
      which no code path reads back, are left out.  A numeric column holds
      the number handed to the INSERT.
    - [nanoid()] draws from a source of identifiers carried by the world.
    - A successful write statement is also appended to a journal, so that
      what was written, in which order, can be stated. *)

From Stdlib Require Import ZArith String Ascii List Bool Arith Lia Floats Uint63
  DecimalString.
Import ListNotations.
Open Scope string_scope.
Open Scope list_scope.

Set Warnings "-inexact-float".

(* ===================================================================== *)
(** ** JS values *)

Module Js.

Definition number := float.

(** [s.includes(sub)] *)
Fixpoint includes (s sub : string) : bool :=
  String.prefix sub s
  || match s with
     | EmptyString => false
     | String _ s' => includes s' sub
     end.

(** Truthiness of a [string | undefined], as tested by [x ? a : b]. *)
Definition truthy (x : option string) : bool :=
  match x with
  | Some s => negb (String.eqb s "")
  | None => false
  end.

(** [`${x}`] of a [string | undefined]. *)
Definition interpolate (x : option string) : string :=
  match x with
  | Some s => s
  | None => "undefined"
  end.

Local Open Scope Z_scope.

(** The double nearest to [p / q] (ties to even), for [0 <= p], [0 < q]
    and a quotient that is zero or in the normal range: what [Number]
    returns on a decimal literal with that value. *)
Definition Number_of_ratio (p q : Z) : number :=
  if p =? 0 then 0%float else
  let e0 := Z.log2 p - Z.log2 q - 53 in
  let scaled (e : Z) :=
    if 0 <=? e then (p, q * 2 ^ e) else (p * 2 ^ (- e), q) in
  let e :=
    if 2 ^ 53 <=? fst (scaled e0) / snd (scaled e0) then e0 + 1 else e0 in
  let (num, den) := scaled e in
  let m := num / den in
  let r := num mod den in
  let m' :=
    if (den <? 2 * r) || ((den =? 2 * r) && Z.odd m) then m + 1 else m in
  Z.ldexp (PrimFloat.of_uint63 (Uint63.of_Z m')) e.

(** The integer [n] for which [n / 100 - m * 2^e] is closest to zero, the
    larger one when there are two: the digits of [toFixed(2)]. *)
Definition hundredths (m : positive) (e : Z) : Z :=
  if 0 <=? e then Zpos m * 2 ^ e * 100
  else (200 * Zpos m + 2 ^ (- e)) / (2 * 2 ^ (- e)).

(** [Number(x.toFixed(2))].  [toFixed] falls back to [ToString] for NaN,
    the infinities and magnitudes from 1e21 on, and [Number] reads that
    text back to [x]. *)
Definition Number_toFixed2 (x : number) : number :=
  match Prim2SF x with
  | S754_finite s m e =>
      if (1e21 <=? abs x)%float then x
      else
        let r := Number_of_ratio (hundredths m e) 100 in
        if s then (- r)%float else r
  | _ => x
  end.

(** A template literal: its text and the numbers interpolated in it. *)
Inductive piece :=
| Text (s : string)
| Num (x : number).

Definition template := list piece.

End Js.

Import Js.

(* ===================================================================== *)
(** ** db/schema.sql: status domains, rows and tables *)

Module PaymentStatus.
Inductive t := CREATED | IN_PROGRESS | COMPLETED | FAILED.

Definition terminal (s : t) : bool :=
  match s with
  | COMPLETED | FAILED => true
  | _ => false
  end.
End PaymentStatus.

Module FundingStatus.
Inductive t := COMPLETED | FAILED | COMPENSATED.
End FundingStatus.

(** ["COMPLETED" | "FAILED"]: [MintingStatus], [OfframpStatus] and the
    status a leg reports to the workflow. *)
Module LegStatus.
Inductive t := COMPLETED | FAILED.

Definition is_completed (s : t) : bool :=
  match s with COMPLETED => true | FAILED => false end.

(** The same literal read at type [FundingStatus]. *)
Definition to_funding (s : t) : FundingStatus.t :=
  match s with
  | COMPLETED => FundingStatus.COMPLETED
  | FAILED => FundingStatus.FAILED
  end.
End LegStatus.

Module Payment.
Record t := mk {
  id : string;
  usd_amount : number;
  destination_currency : string;
  status : PaymentStatus.t
}.
Definition with_status (s : PaymentStatus.t) (r : t) : t :=
  mk (id r) (usd_amount r) (destination_currency r) s.
End Payment.

Module Funding.
Record t := mk {
  id : string;
  payment_id : string;
  usd_amount : number;
  status : FundingStatus.t
}.
Definition with_status (s : FundingStatus.t) (r : t) : t :=
  mk (id r) (payment_id r) (usd_amount r) s.
End Funding.

Module Minting.
Record t := mk {
  id : string;
  payment_id : string;
  usd_amount : number;
  usdc_amount : number;
  usdc_rate : number;
  status : LegStatus.t
}.
End Minting.

Module Offramp.
Record t := mk {
  id : string;
  payment_id : string;
  usdc_amount : number;
  local_amount : number;
  fx_rate : number;
  recipient : string;
  status : LegStatus.t
}.
End Offramp.

Module Fee.
Record t := mk {
  id : string;
  payment_id : string;
  leg : string;
  amount : number;
  currency : string
}.
End Fee.

Module FxRate.
Record t := mk {
  base_currency : string;
  quote_currency : string;
  rate : number;
  as_of : string
}.
End FxRate.

Record Store := mkStore {
  payments : list Payment.t;
  funding : list Funding.t;
  minting : list Minting.t;
  offramp : list Offramp.t;
  fees : list Fee.t;
  fx_rates : list FxRate.t
}.

Definition with_payments (f : list Payment.t -> list Payment.t) (s : Store)
    : Store :=
  mkStore (f (payments s)) (funding s) (minting s) (offramp s) (fees s)
          (fx_rates s).

Definition with_funding (f : list Funding.t -> list Funding.t) (s : Store)
    : Store :=
  mkStore (payments s) (f (funding s)) (minting s) (offramp s) (fees s)
          (fx_rates s).

Definition with_minting (f : list Minting.t -> list Minting.t) (s : Store)
    : Store :=
  mkStore (payments s) (funding s) (f (minting s)) (offramp s) (fees s)
          (fx_rates s).

Definition with_offramp (f : list Offramp.t -> list Offramp.t) (s : Store)
    : Store :=
  mkStore (payments s) (funding s) (minting s) (f (offramp s)) (fees s)
          (fx_rates s).

Definition with_fees (f : list Fee.t -> list Fee.t) (s : Store) : Store :=
  mkStore (payments s) (funding s) (minting s) (offramp s) (f (fees s))
          (fx_rates s).

(** A write statement that went through. *)
Inductive Write :=
| InsertPayment (r : Payment.t)
| UpdatePaymentStatus (id : string) (s : PaymentStatus.t)
| InsertFunding (r : Funding.t)
| UpdateFundingStatus (id : string) (s : FundingStatus.t)
| InsertMinting (r : Minting.t)
| InsertOfframp (r : Offramp.t)
| InsertFee (r : Fee.t).

Record World := mkWorld {
  store : Store;
  journal : list Write;
  nanoid_source : nat -> string;
  nanoid_calls : nat
}.

(** The world after a statement that changed the store by [f]. *)
Definition written (f : Store -> Store) (entry : Write) (w : World) : World :=
  mkWorld (f (store w)) (journal w ++ [entry]) (nanoid_source w)
          (nanoid_calls w).

(** The world after one call of [nanoid()]. *)
Definition drawn (w : World) : World :=
  mkWorld (store w) (journal w) (nanoid_source w) (S (nanoid_calls w)).

(** What a rejected [await] carries: an [Error] thrown by the repository
    code, or the server's refusal of a statement. *)
Inductive exn :=
| Error (message : string)
| DatabaseError (violated : string).

Inductive result (A : Type) :=
| Ok (a : A)
| Thrown (e : exn).
Arguments Ok {A} a.
Arguments Thrown {A} e.

(** A computation over a state [S] that returns or throws; the state
    reached at a [throw] is kept. *)
Definition M (S A : Type) := S -> result A * S.

Definition ret {S A} (a : A) : M S A := fun s => (Ok a, s).

Definition throw {S A} (e : exn) : M S A := fun s => (Thrown e, s).

Definition bind {S A B} (m : M S A) (k : A -> M S B) : M S B :=
  fun s =>
    match m s with
    | (Ok a, s') => k a s'
    | (Thrown e, s') => (Thrown e, s')
    end.

Declare Scope async_scope.
Delimit Scope async_scope with async.
Notation "x <- m ;; k" := (bind m (fun x => k))
  (at level 61, m at next level, right associativity) : async_scope.
Notation "m ;; k" := (bind m (fun _ => k))
  (at level 61, right associativity) : async_scope.
Local Open Scope async_scope.

(** An [async] function of the worker: it runs against the database. *)
Definition Async (A : Type) := M World A.

(** Constraints of the schema. *)
Module Schema.

Definition has_id (ids : list string) (i : string) : bool :=
  existsb (String.eqb i) ids.

(** NUMERIC(18, 2) leaves 16 digits before the point, NUMERIC(18, 6)
    leaves 12.  The column takes NaN, and a finite number below ten to
    that many digits; near either bound two doubles are further apart
    than the column's last digit, so rounding to the scale never carries
    a smaller number up to the bound. *)
Definition numeric_18_2 (x : number) : bool :=
  is_nan x || (abs x <? 1e16)%float.

Definition numeric_18_6 (x : number) : bool :=
  is_nan x || (abs x <? 1e12)%float.

Definition payment_ids (s : Store) : list string :=
  map Payment.id (payments s).

End Schema.

Import Schema.

(** [pool.query] of a statement whose constraints are [ok]: it changes the
    store and is journalled, or it is refused and changes nothing. *)
Definition query (ok : Store -> option string) (f : Store -> Store)
    (entry : Write) : Async unit :=
  fun w =>
    match ok (store w) with
    | Some violated => (Thrown (DatabaseError violated), w)
    | None => (Ok tt, written f entry w)
    end.

Definition select {A} (f : Store -> A) : Async A :=
  fun w => (Ok (f (store w)), w).

Definition nanoid : Async string :=
  fun w => (Ok (nanoid_source w (nanoid_calls w)), drawn w).

(** The first violated constraint of a list of named checks. *)
Fixpoint first_violation (checks : list (string * bool)) : option string :=
  match checks with
  | [] => None
  | (name, holds) :: rest =>
      if holds then first_violation rest else Some name
  end.

(* ===================================================================== *)
(** ** db/paymentsRepo.ts *)

Module PaymentsRepo.

Definition createPayment (id : string) (usdAmount : number)
    (destinationCurrency : string) (status : PaymentStatus.t)
    : Async Payment.t :=
  let row := Payment.mk id usdAmount destinationCurrency status in
  query
    (fun s => first_violation
       [("payments_pkey", negb (has_id (payment_ids s) id));
        ("payments.usd_amount", numeric_18_2 usdAmount)])
    (with_payments (cons row))
    (InsertPayment row) ;;
  ret row.

Definition set_status (id : string) (status : PaymentStatus.t)
    (r : Payment.t) : Payment.t :=
  if String.eqb (Payment.id r) id then Payment.with_status status r else r.

Definition updatePaymentStatus (id : string) (status : PaymentStatus.t)
    : Async Payment.t :=
  hit <- select (fun s =>
           find (fun r => String.eqb (Payment.id r) id) (payments s)) ;;
  match hit with
  | Some r =>
      query (fun _ => None)
        (with_payments (map (set_status id status)))
        (UpdatePaymentStatus id status) ;;
      ret (Payment.with_status status r)
  | None => throw (Error ("Payment " ++ id ++ " not found")%string)
  end.

Definition getPaymentById (id : string) : Async (option Payment.t) :=
  select (fun s =>
    find (fun r => String.eqb (Payment.id r) id) (payments s)).


End PaymentsRepo.

(** ** db/fundingRepo.ts *)

Module FundingRepo.

Definition createFundingRecord (id paymentId : string)
    (usdAmount : number) (status : FundingStatus.t) : Async Funding.t :=
  let row := Funding.mk id paymentId usdAmount status in
  query
    (fun s => first_violation
       [("funding_pkey", negb (has_id (map Funding.id (funding s)) id));
        ("funding_payment_id_fkey", has_id (payment_ids s) paymentId);
        ("funding.usd_amount", numeric_18_2 usdAmount)])
    (with_funding (cons row))
    (InsertFunding row) ;;
  ret row.

Definition set_status (id : string) (status : FundingStatus.t)
    (r : Funding.t) : Funding.t :=
  if String.eqb (Funding.id r) id then Funding.with_status status r else r.

Definition updateFundingStatus (id : string) (status : FundingStatus.t)
    : Async Funding.t :=
  hit <- select (fun s =>
           find (fun r => String.eqb (Funding.id r) id) (funding s)) ;;
  match hit with
  | Some r =>
      query (fun _ => None)
        (with_funding (map (set_status id status)))
        (UpdateFundingStatus id status) ;;
      ret (Funding.with_status status r)
  | None => throw (Error ("Funding record " ++ id ++ " not found")%string)
  end.

Definition getFundingByPaymentId (paymentId : string)
    : Async (list Funding.t) :=
  select (fun s =>
    filter (fun r => String.eqb (Funding.payment_id r) paymentId)
           (funding s)).

Definition getFundingById (id : string) : Async (option Funding.t) :=
  select (fun s =>
    find (fun r => String.eqb (Funding.id r) id) (funding s)).

End FundingRepo.

(** ** db/mintingRepo.ts *)

Module MintingRepo.

Definition createMintingRecord (id paymentId : string)
    (usdAmount usdcAmount usdcRate : number) (status : LegStatus.t)
    : Async Minting.t :=
  let row := Minting.mk id paymentId usdAmount usdcAmount usdcRate status in
  query
    (fun s => first_violation
       [("minting_pkey", negb (has_id (map Minting.id (minting s)) id));
        ("minting_payment_id_fkey", has_id (payment_ids s) paymentId);
        ("minting.usd_amount", numeric_18_2 usdAmount);
        ("minting.usdc_amount", numeric_18_6 usdcAmount);
        ("minting.usdc_rate", numeric_18_6 usdcRate)])
    (with_minting (cons row))
    (InsertMinting row) ;;
  ret row.

Definition getMintingByPaymentId (paymentId : string)
    : Async (list Minting.t) :=
  select (fun s =>
    filter (fun r => String.eqb (Minting.payment_id r) paymentId)
           (minting s)).

Definition getMintingById (id : string) : Async (option Minting.t) :=
  select (fun s =>
    find (fun r => String.eqb (Minting.id r) id) (minting s)).

End MintingRepo.

(** ** db/offrampRepo.ts *)

Module OfframpRepo.

Definition createOfframpRecord (id paymentId : string)
    (usdcAmount localAmount fxRate : number) (recipient : string)
    (status : LegStatus.t) : Async Offramp.t :=
  let row :=
    Offramp.mk id paymentId usdcAmount localAmount fxRate recipient status in
  query
    (fun s => first_violation
       [("offramp_pkey", negb (has_id (map Offramp.id (offramp s)) id));
        ("offramp_payment_id_fkey", has_id (payment_ids s) paymentId);
        ("offramp.usdc_amount", numeric_18_6 usdcAmount);
        ("offramp.local_amount", numeric_18_2 localAmount);
        ("offramp.fx_rate", numeric_18_6 fxRate)])
    (with_offramp (cons row))
    (InsertOfframp row) ;;
  ret row.

Definition getOfframpByPaymentId (paymentId : string)
    : Async (list Offramp.t) :=
  select (fun s =>
    filter (fun r => String.eqb (Offramp.payment_id r) paymentId)
           (offramp s)).

Definition getOfframpById (id : string) : Async (option Offramp.t) :=
  select (fun s =>
    find (fun r => String.eqb (Offramp.id r) id) (offramp s)).

End OfframpRepo.

(** ** db/feesRepo.ts *)

Module FeesRepo.

Definition createFeeRecord (id paymentId leg : string) (amount : number)
    (currency : string) : Async Fee.t :=
  let row := Fee.mk id paymentId leg amount currency in
  query
    (fun s => first_violation
       [("fees_pkey", negb (has_id (map Fee.id (fees s)) id));
        ("fees_payment_id_fkey", has_id (payment_ids s) paymentId);
        ("fees.amount", numeric_18_6 amount)])
    (with_fees (cons row))
    (InsertFee row) ;;
  ret row.

End FeesRepo.

(** ** db/fxRepo.ts *)

Module FxRepo.

Record FxRateRow := mk { rate : number; asOf : string }.

Definition getFxRate (base quote : string) : Async (option FxRateRow) :=
  select (fun s =>
    match
      find (fun r => String.eqb (FxRate.base_currency r) base
                     && String.eqb (FxRate.quote_currency r) quote)
           (fx_rates s)
    with
    | None => None
    | Some r => Some (mk (FxRate.rate r) (FxRate.as_of r))
    end).

End FxRepo.

(* ===================================================================== *)
(** ** activities.ts *)

(** The argument of the workflow and of the funding and minting legs. *)
Module PaymentInput.
Record t := mk {
  paymentId : string;
  amountUsd : number;
  destinationCurrency : string
}.
End PaymentInput.

Module OfframpInput.
Record t := mk {
  paymentId : string;
  usdcAmount : number;
  destinationCurrency : string
}.
End OfframpInput.

Module FundingResult.
Record t := mk { status : LegStatus.t; fundingId : string }.
End FundingResult.

Module MintingResult.
Record t := mk {
  status : LegStatus.t;
  usdcAmount : number;
  usdcRate : number
}.
End MintingResult.

Module OfframpResult.
Record t := mk {
  status : LegStatus.t;
  localAmount : number;
  fxRate : number
}.
End OfframpResult.

Module Activities.

Definition createFundingActivity (params : PaymentInput.t)
    : Async FundingResult.t :=
  fundingId <- nanoid ;;
  let status := LegStatus.COMPLETED in
  FundingRepo.createFundingRecord fundingId
    (PaymentInput.paymentId params) (PaymentInput.amountUsd params)
    (LegStatus.to_funding status) ;;
  feeId <- nanoid ;;
  let feeAmount := 0.30%float in
  let feeCurrency := "USD" in
  FeesRepo.createFeeRecord feeId (PaymentInput.paymentId params)
    "FUNDING" feeAmount feeCurrency ;;
  ret (FundingResult.mk status fundingId).

Definition compensateFundingActivity (fundingId : string) : Async unit :=
  FundingRepo.updateFundingStatus fundingId FundingStatus.COMPENSATED ;;
  ret tt.

Definition mintUsdcActivity (params : PaymentInput.t)
    : Async MintingResult.t :=
  let willFail := includes (PaymentInput.paymentId params) "fail-mint" in
  let usdcRate := 1%float in
  let usdcAmount :=
    if willFail then 0%float
    else (PaymentInput.amountUsd params * usdcRate)%float in
  let status :=
    if willFail then LegStatus.FAILED else LegStatus.COMPLETED in
  mintingId <- nanoid ;;
  MintingRepo.createMintingRecord mintingId
    (PaymentInput.paymentId params) (PaymentInput.amountUsd params)
    usdcAmount usdcRate status ;;
  (if LegStatus.is_completed status then
     feeId <- nanoid ;;
     let feeAmount := 0.05%float in
     let feeCurrency := "USD" in
     FeesRepo.createFeeRecord feeId (PaymentInput.paymentId params)
       "MINTING" feeAmount feeCurrency ;;
     ret tt
   else ret tt) ;;
  ret (MintingResult.mk status usdcAmount usdcRate).

Definition offrampActivity (params : OfframpInput.t)
    : Async OfframpResult.t :=
  fx <- FxRepo.getFxRate "USD" (OfframpInput.destinationCurrency params) ;;
  match fx with
  | None =>
      offrampId <- nanoid ;;
      OfframpRepo.createOfframpRecord offrampId
        (OfframpInput.paymentId params) (OfframpInput.usdcAmount params)
        0%float 0%float "unknown" LegStatus.FAILED ;;
      ret (OfframpResult.mk LegStatus.FAILED 0%float 0%float)
  | Some fx =>
      let fxRate := FxRepo.rate fx in
      let localAmount := (OfframpInput.usdcAmount params * fxRate)%float in
      offrampId <- nanoid ;;
      OfframpRepo.createOfframpRecord offrampId
        (OfframpInput.paymentId params) (OfframpInput.usdcAmount params)
        localAmount fxRate "demo-recipient" LegStatus.COMPLETED ;;
      feeId <- nanoid ;;
      let feeAmount := Number_toFixed2 (localAmount * 0.005)%float in
      let feeCurrency := OfframpInput.destinationCurrency params in
      FeesRepo.createFeeRecord feeId (OfframpInput.paymentId params)
        "OFFRAMP" feeAmount feeCurrency ;;
      ret (OfframpResult.mk LegStatus.COMPLETED localAmount fxRate)
  end.

Definition createPaymentActivity (id : string) (usdAmount : number)
    (destinationCurrency : string) (status : PaymentStatus.t)
    : Async Payment.t :=
  PaymentsRepo.createPayment id usdAmount destinationCurrency status.

Definition updatePaymentStatusActivity (id : string)
    (status : PaymentStatus.t) : Async Payment.t :=
  PaymentsRepo.updatePaymentStatus id status.

End Activities.

(* ===================================================================== *)
(** ** workflows.ts *)

Module Workflows.

(** A running [PaymentWorkflow]: the database its activities reach, its
    three local variables, and the [cancelPayment] signals still to be
    delivered.  The workflow yields to the scheduler at each [await] and
    nowhere else; [inbox] lists, for each [await] to come, the arguments
    of the signals delivered while the workflow is suspended there. *)
Record Run := mkRun {
  world : World;
  cancelRequested : bool;
  cancelReason : option string;
  stage : string;
  inbox : list (list (option string))
}.

Definition Workflow (A : Type) := M Run A.

(** The handler set for [cancelPaymentSignal]. *)
Definition cancelPaymentSignal (reason : option string) (r : Run) : Run :=
  mkRun (world r) true reason (stage r) (inbox r).

(** The handler set for [paymentStatusQuery]. *)
Definition paymentStatusQuery (r : Run) : string * bool :=
  (stage r, cancelRequested r).

Definition deliver (signals : list (option string)) (r : Run) : Run :=
  fold_left (fun r reason => cancelPaymentSignal reason r) signals r.

(** [await a]: the signals of this suspension are handled, and [a] has
    run against the database, when the workflow resumes. *)
Definition await {A} (a : Async A) : Workflow A :=
  fun r =>
    let r1 := deliver (hd [] (inbox r)) r in
    let (res, w) := a (world r1) in
    (res, mkRun w (cancelRequested r1) (cancelReason r1) (stage r1)
                (tl (inbox r))).

Definition set_stage (s : string) : Workflow unit :=
  fun r =>
    (Ok tt, mkRun (world r) (cancelRequested r) (cancelReason r) s
                  (inbox r)).

Definition get_cancelRequested : Workflow bool :=
  fun r => (Ok (cancelRequested r), r).

Definition get_cancelReason : Workflow (option string) :=
  fun r => (Ok (cancelReason r), r).

(** [startChild]: the child is scheduled; its body runs, and its writes
    land, before [result()] resolves. *)
Definition startChild {A} (child : Async A) : Workflow (Async A) :=
  await (ret child).

Definition child_result {A} (child : Async A) : Workflow A :=
  await child.

Definition FundingWorkflow (input : PaymentInput.t)
    : Async FundingResult.t :=
  fundingResult <- Activities.createFundingActivity input ;;
  ret fundingResult.

Definition MintingWorkflow (input : PaymentInput.t)
    : Async MintingResult.t :=
  mintingResult <- Activities.mintUsdcActivity input ;;
  ret mintingResult.

Definition OfframpWorkflow (input : OfframpInput.t)
    : Async OfframpResult.t :=
  offrampResult <- Activities.offrampActivity input ;;
  ret offrampResult.

Definition PaymentWorkflow (input : PaymentInput.t) : Workflow template :=
  let paymentId := PaymentInput.paymentId input in
  set_stage "CREATING_PAYMENT" ;;
  await (Activities.createPaymentActivity paymentId
           (PaymentInput.amountUsd input)
           (PaymentInput.destinationCurrency input)
           PaymentStatus.CREATED) ;;
  set_stage "FUNDING_STARTING" ;;
  await (Activities.updatePaymentStatusActivity paymentId
           PaymentStatus.IN_PROGRESS) ;;
  fundingChild <- startChild (FundingWorkflow input) ;;
  set_stage "FUNDING_RUNNING" ;;
  fundingResult <- child_result fundingChild ;;
  match FundingResult.status fundingResult with
  | LegStatus.FAILED =>
      set_stage "FAILED_FUNDING" ;;
      await (Activities.updatePaymentStatusActivity paymentId
               PaymentStatus.FAILED) ;;
      ret [Text ("Payment " ++ paymentId
                 ++ " FAILED during funding child workflow")%string]
  | LegStatus.COMPLETED =>
  cancelled <- get_cancelRequested ;;
  if cancelled then
    set_stage "CANCELLED_AFTER_FUNDING" ;;
    await (Activities.updatePaymentStatusActivity paymentId
             PaymentStatus.FAILED) ;;
    reason <- get_cancelReason ;;
    let extra :=
      if truthy reason
      then (" (reason: " ++ interpolate reason ++ ")")%string
      else "" in
    ret [Text ("Payment " ++ paymentId ++ " CANCELLED after funding"
               ++ extra)%string]
  else
  set_stage "MINTING_STARTING" ;;
  mintChild <- startChild (MintingWorkflow input) ;;
  set_stage "MINTING_RUNNING" ;;
  mintingResult <- child_result mintChild ;;
  match MintingResult.status mintingResult with
  | LegStatus.FAILED =>
      set_stage "FAILED_MINTING" ;;
      await (Activities.compensateFundingActivity
               (FundingResult.fundingId fundingResult)) ;;
      await (Activities.updatePaymentStatusActivity paymentId
               PaymentStatus.FAILED) ;;
      ret [Text ("Payment " ++ paymentId
                 ++ " FAILED during minting; funding COMPENSATED")%string]
  | LegStatus.COMPLETED =>
  set_stage "OFFRAMP_STARTING" ;;
  offrampChild <-
    startChild (OfframpWorkflow
                  (OfframpInput.mk paymentId
                     (MintingResult.usdcAmount mintingResult)
                     (PaymentInput.destinationCurrency input))) ;;
  set_stage "OFFRAMP_RUNNING" ;;
  offrampResult <- child_result offrampChild ;;
  match OfframpResult.status offrampResult with
  | LegStatus.FAILED =>
      set_stage "FAILED_OFFRAMP" ;;
      await (Activities.compensateFundingActivity
               (FundingResult.fundingId fundingResult)) ;;
      await (Activities.updatePaymentStatusActivity paymentId
               PaymentStatus.FAILED) ;;
      ret [Text ("Payment " ++ paymentId
                 ++ " FAILED during offramp; funding COMPENSATED")%string]
  | LegStatus.COMPLETED =>
  set_stage "COMPLETED" ;;
  await (Activities.updatePaymentStatusActivity paymentId
           PaymentStatus.COMPLETED) ;;
  ret [Text ("Payment " ++ paymentId ++ " COMPLETED: ")%string;
       Num (PaymentInput.amountUsd input); Text " USD -> ";
       Num (MintingResult.usdcAmount mintingResult); Text " USDC @ ";
       Num (MintingResult.usdcRate mintingResult); Text ", then ";
       Num (OfframpResult.localAmount offrampResult);
       Text (" " ++ PaymentInput.destinationCurrency input ++ " @ ")%string;
       Num (OfframpResult.fxRate offrampResult)]
  end end end.

(** A workflow started on [w], with the signals [signals] to come: the
    locals as the source initialises them. *)
Definition start (w : World) (signals : list (list (option string)))
    : Run :=
  mkRun w false None "STARTING" signals.

End Workflows.

(* ===================================================================== *)
(** ** server.ts: the HTTP endpoints *)

Module Server.

(** [SELECT * FROM <table> WHERE payment_id = $1] *)
Definition funding_of (paymentId : string) (s : Store) : list Funding.t :=
  filter (fun r => String.eqb (Funding.payment_id r) paymentId) (funding s).

Definition minting_of (paymentId : string) (s : Store) : list Minting.t :=
  filter (fun r => String.eqb (Minting.payment_id r) paymentId) (minting s).

Definition offramp_of (paymentId : string) (s : Store) : list Offramp.t :=
  filter (fun r => String.eqb (Offramp.payment_id r) paymentId) (offramp s).

Definition fees_of (paymentId : string) (s : Store) : list Fee.t :=
  filter (fun r => String.eqb (Fee.payment_id r) paymentId) (fees s).

(** The body of a 200 answer of [GET /payments/:id]. *)
Record Snapshot := mk {
  payment : Payment.t;
  funding : list Funding.t;
  minting : list Minting.t;
  offramp : list Offramp.t;
  fees : list Fee.t
}.

(** [GET /payments/:id]: [None] is the 404 answer. *)
Definition getPayment (paymentId : string) (s : Store)
    : option Snapshot :=
  match
    find (fun r => String.eqb (Payment.id r) paymentId) (payments s)
  with
  | None => None
  | Some payment =>
      Some (mk payment (funding_of paymentId s) (minting_of paymentId s)
               (offramp_of paymentId s) (fees_of paymentId s))
  end.

(** [typeof amountUsd !== 'number' || !destinationCurrency] answers 400:
    a request is started when its currency is a non-empty string. *)
Definition accepted (input : PaymentInput.t) : bool :=
  negb (String.eqb (PaymentInput.destinationCurrency input) "").








End Server.

(* ===================================================================== *)
(** ** scripts/importFxRates.ts *)

Module ImportFxRates.

Record TreasuryRow := mkRow {
  record_date : string;
  country_currency_desc : string;
  exchange_rate : string;
  effective_date : string
}.

(** A JS [Map] with string keys: its entries, in insertion order. *)
Definition Map (V : Type) := list (string * V).

Fixpoint get {V} (k : string) (m : Map V) : option V :=
  match m with
  | [] => None
  | (k', v) :: rest => if String.eqb k' k then Some v else get k rest
  end.

(** [m.set(k, v)]: the value of a key already there is replaced where it
    stands, a new key goes to the end. *)
Fixpoint set {V} (k : string) (v : V) (m : Map V) : Map V :=
  match m with
  | [] => [(k, v)]
  | (k', v') :: rest =>
      if String.eqb k' k then (k', v) :: rest else (k', v') :: set k v rest
  end.

(** [descToCodeMap], from the entries of [currency_mapping.json]. *)
Definition descToCodeMap (codeToDesc : list (string * string))
    : Map string :=
  fold_left (fun m entry => set (snd entry) (fst entry) m) codeToDesc [].

(** The message of [descToCode]; its dash is U+2013, here in UTF-8. *)
Definition unknown_description (desc : string) : string :=
  let quote := String (Ascii.ascii_of_nat 34) "" in
  let dash :=
    String (Ascii.ascii_of_nat 226)
      (String (Ascii.ascii_of_nat 128)
         (String (Ascii.ascii_of_nat 147) "")) in
  ("Unknown currency description: " ++ quote ++ desc ++ quote
   ++ " " ++ dash ++ " no entry in currency_mapping.json")%string.

Definition descToCode {S} (codeToDesc : list (string * string))
    (desc : string) : M S string :=
  match get desc (descToCodeMap codeToDesc) with
  | Some code =>
      if String.eqb code "" then throw (Error (unknown_description desc))
      else ret code
  | None => throw (Error (unknown_description desc))
  end.

(** The loop that keeps the latest row of each description. *)
Definition latestByDesc (data : list TreasuryRow) : Map TreasuryRow :=
  fold_left
    (fun latest row =>
       let key := country_currency_desc row in
       match get key latest with
       | Some existing =>
           if String.ltb (effective_date existing) (effective_date row)
           then set key row latest
           else latest
       | None => set key row latest
       end)
    data [].

Definition same_pair (base quote : string) (r : FxRate.t) : bool :=
  String.eqb (FxRate.base_currency r) base
  && String.eqb (FxRate.quote_currency r) quote.

Section Script.

(** [Number(text)], and whether the server reads [text] as a DATE. *)
Variable Number : string -> number.
Variable is_date : string -> bool.

(** [INSERT INTO fx_rates ... ON CONFLICT (base_currency, quote_currency)
    DO UPDATE SET rate = EXCLUDED.rate, as_of = EXCLUDED.as_of] *)
Definition upsert (base quote : string) (rate : number) (asOf : string)
    : M (list FxRate.t) unit :=
  fun table =>
    match
      first_violation
        [("fx_rates.rate", numeric_18_6 rate);
         ("fx_rates.as_of", is_date asOf)]
    with
    | Some violated => (Thrown (DatabaseError violated), table)
    | None =>
        let row := FxRate.mk base quote rate asOf in
        (Ok tt,
         if existsb (same_pair base quote) table
         then map (fun r => if same_pair base quote r then row else r) table
         else row :: table)
    end.

Variable codeToDesc : list (string * string).

(** The body of the transaction: one statement for each kept row. *)
Fixpoint each (entries : Map TreasuryRow) : M (list FxRate.t) unit :=
  match entries with
  | [] => ret tt
  | (desc, row) :: rest =>
      quoteCurrency <- descToCode codeToDesc desc ;;
      let rate := Number (exchange_rate row) in
      let asOf := effective_date row in
      upsert "USD" quoteCurrency rate asOf ;;
      each rest
  end.

(** [main]: the exit code, and the table after COMMIT or ROLLBACK. *)
Definition main (data : list TreasuryRow) (table : list FxRate.t)
    : nat * list FxRate.t :=
  match each (latestByDesc data) table with
  | (Ok _, table') => (0, table')
  | (Thrown _, _) => (1, table)
  end.

End Script.

(** The code [descToCode] returns for a description, if it returns. *)
Definition code_of (codeToDesc : list (string * string)) (desc : string)
    : option string :=
  match get desc (descToCodeMap codeToDesc) with
  | Some code => if String.eqb code "" then None else Some code
  | None => None
  end.

(** Every kept row has a code and is taken by the table. *)
Definition importable (Number : string -> number) (is_date : string -> bool)
    (codeToDesc : list (string * string)) (entries : Map TreasuryRow)
    : bool :=
  forallb
    (fun entry =>
       match code_of codeToDesc (fst entry) with
       | Some _ =>
           numeric_18_6 (Number (exchange_rate (snd entry)))
           && is_date (effective_date (snd entry))
       | None => false
       end)
    entries.


End ImportFxRates.

(* ===================================================================== *)
(** ** Worlds a payment can start on *)

(** Referential integrity, as the four REFERENCES clauses keep it. *)
Definition fk_ok (s : Store) : bool :=
  forallb (fun r => has_id (payment_ids s) (Funding.payment_id r)) (funding s)
  && forallb (fun r => has_id (payment_ids s) (Minting.payment_id r))
             (minting s)
  && forallb (fun r => has_id (payment_ids s) (Offramp.payment_id r))
             (offramp s)
  && forallb (fun r => has_id (payment_ids s) (Fee.payment_id r)) (fees s).

(** The primary keys of the leg and fee tables. *)
Definition leg_ids (s : Store) : list string :=
  map Funding.id (funding s) ++ map Minting.id (minting s)
  ++ map Offramp.id (offramp s) ++ map Fee.id (fees s).

Fixpoint distinct (l : list string) : bool :=
  match l with
  | [] => true
  | x :: rest => negb (has_id rest x) && distinct rest
  end.

(** The next [k] identifiers [nanoid()] returns. *)
Definition draws (w : World) (k : nat) : list string :=
  map (nanoid_source w) (seq (nanoid_calls w) k).

(** No collision among the next [k] identifiers or with a key in use. *)
Definition fresh_draws (w : World) (k : nat) : bool :=
  distinct (draws w k)
  && forallb (fun i => negb (has_id (leg_ids (store w)) i)) (draws w k).

(** A world on which the workflow of [input] can be started: the payment
    identifier is new, the store is consistent, the identifiers a run draws
    (six at most) are fresh, and the amount fits its column. *)
Definition startable (w : World) (input : PaymentInput.t) : bool :=
  negb (has_id (payment_ids (store w)) (PaymentInput.paymentId input))
  && fk_ok (store w)
  && fresh_draws w 6
  && numeric_18_2 (PaymentInput.amountUsd input).

Definition nonempty {A} (l : list A) : bool :=
  match l with
  | [] => false
  | _ :: _ => true
  end.

(** The signals handled before the cancellation flag is read: those of the
    four suspensions that precede the check (creating the payment, marking
    it IN_PROGRESS, starting the funding child, awaiting its result). *)
Definition before_checkpoint (signals : list (list (option string)))
    : list (option string) :=
  concat (firstn 4 signals).

Definition cancelled_at_checkpoint (signals : list (list (option string)))
    : bool :=
  nonempty (before_checkpoint signals).

(** The signals handled before the cancellation reason is read: the
    cancelled branch suspends once more, to mark the payment FAILED, before
    it builds its answer. *)
Definition before_answer (signals : list (list (option string)))
    : list (option string) :=
  concat (firstn 5 signals).

(** The reason the cancelled branch finds: that of the last signal. *)
Definition reason_at_answer (signals : list (list (option string)))
    : option string :=
  last (before_answer signals) None.

Definition cancelled_text (paymentId : string) (reason : option string)
    : template :=
  [Text ("Payment " ++ paymentId ++ " CANCELLED after funding"
         ++ (if truthy reason
             then " (reason: " ++ interpolate reason ++ ")"
             else ""))%string].

(** Two deliveries of signals that differ in the reasons only. *)
Definition same_timing (s1 s2 : list (list (option string))) : Prop :=
  map (map (fun _ : option string => tt)) s1
  = map (map (fun _ : option string => tt)) s2.

(** The rate [offrampActivity] finds for a currency. *)
Definition rate_of (s : Store) (quote : string) : option number :=
  match
    find (fun r => String.eqb (FxRate.base_currency r) "USD"
                   && String.eqb (FxRate.quote_currency r) quote)
         (fx_rates s)
  with
  | None => None
  | Some r => Some (FxRate.rate r)
  end.

(** The [k]-th identifier [nanoid()] returns from [w] on. *)
Definition next_id (w : World) (k : nat) : string :=
  nanoid_source w (k + nanoid_calls w).

(** The amounts past funding fit their columns: the minted amount, and when
    the currency has a rate the delivered amount, the rate and the fee. *)
Definition amounts_fit (w : World) (input : PaymentInput.t) : bool :=
  let usdc := (PaymentInput.amountUsd input * 1)%float in
  numeric_18_6 usdc
  && match rate_of (store w) (PaymentInput.destinationCurrency input) with
     | None => true
     | Some rate =>
         numeric_18_2 (usdc * rate)%float
         && numeric_18_6 rate
         && numeric_18_6 (Number_toFixed2 (usdc * rate * 0.005)%float)
     end.

(** The rows a run started on [w] writes, named for the statements below:
    the identifiers are the ones [nanoid()] hands out in the order the legs
    ask for them. *)
Section Rows.

Variables (w : World) (input : PaymentInput.t).

Let pid := PaymentInput.paymentId input.
Let amt := PaymentInput.amountUsd input.
Let cur := PaymentInput.destinationCurrency input.

Definition payment_row (st : PaymentStatus.t) : Payment.t :=
  Payment.mk pid amt cur st.

Definition funding_row (st : FundingStatus.t) : Funding.t :=
  Funding.mk (next_id w 0) pid amt st.

Definition funding_fee : Fee.t :=
  Fee.mk (next_id w 1) pid "FUNDING" 0.30%float "USD".

Definition minting_row_failed : Minting.t :=
  Minting.mk (next_id w 2) pid amt 0%float 1%float LegStatus.FAILED.

Definition minting_row : Minting.t :=
  Minting.mk (next_id w 2) pid amt (amt * 1)%float 1%float
             LegStatus.COMPLETED.

Definition minting_fee : Fee.t :=
  Fee.mk (next_id w 3) pid "MINTING" 0.05%float "USD".

Definition offramp_row_failed : Offramp.t :=
  Offramp.mk (next_id w 4) pid (amt * 1)%float 0%float 0%float "unknown"
             LegStatus.FAILED.

Definition offramp_row (rate : number) : Offramp.t :=
  Offramp.mk (next_id w 4) pid (amt * 1)%float (amt * 1 * rate)%float rate
             "demo-recipient" LegStatus.COMPLETED.

Definition offramp_fee (rate : number) : Fee.t :=
  Fee.mk (next_id w 5) pid "OFFRAMP"
         (Number_toFixed2 (amt * 1 * rate * 0.005)%float) cur.

(** [w] after a run that left the payment row [p], added the rows [f],
    [m], [o] and [e] to the four other tables, journalled [j] and drew
    [k] identifiers. *)
Definition ended (p : Payment.t) (f : list Funding.t) (m : list Minting.t)
    (o : list Offramp.t) (e : list Fee.t) (j : list Write) (k : nat)
    : World :=
  mkWorld
    (mkStore (p :: payments (store w)) (f ++ funding (store w))
             (m ++ minting (store w)) (o ++ offramp (store w))
             (e ++ fees (store w)) (fx_rates (store w)))
    (journal w ++ j) (nanoid_source w) (k + nanoid_calls w).

End Rows.

(** The values written to [payments.status], oldest first, with the row
    they were written to. *)
Fixpoint status_writes (j : list Write)
    : list (string * PaymentStatus.t) :=
  match j with
  | [] => []
  | InsertPayment r :: rest =>
      (Payment.id r, Payment.status r) :: status_writes rest
  | UpdatePaymentStatus id s :: rest => (id, s) :: status_writes rest
  | _ :: rest => status_writes rest
  end.

(** One move of [payments.status] along
    CREATED -> IN_PROGRESS -> COMPLETED | FAILED. *)
Definition forward (a b : PaymentStatus.t) : bool :=
  match a, b with
  | PaymentStatus.CREATED, PaymentStatus.IN_PROGRESS => true
  | PaymentStatus.IN_PROGRESS, PaymentStatus.COMPLETED => true
  | PaymentStatus.IN_PROGRESS, PaymentStatus.FAILED => true
  | _, _ => false
  end.

Fixpoint forward_chain (from : PaymentStatus.t) (l : list PaymentStatus.t)
    : bool :=
  match l with
  | [] => true
  | s :: rest => forward from s && forward_chain s rest
  end.

(** A history of a payment row that only moves forward: it starts at
    CREATED and every later write is one move ahead of the one before. *)
Definition forward_only (l : list PaymentStatus.t) : bool :=
  match l with
  | [] => true
  | PaymentStatus.CREATED :: rest => forward_chain PaymentStatus.CREATED rest
  | _ :: _ => false
  end.

(** A signal delivered in one of the six suspensions that end with the
    minting child's result: before the Minting leg completes. *)
Definition before_minting_completes (signals : list (list (option string)))
    : list (option string) :=
  concat (firstn 6 signals).

(** The cancellation flag after four more suspensions, from a flag [c]. *)
Definition flag4 (c : bool) (inbox : list (list (option string))) : bool :=
  c || nonempty (hd [] inbox) || nonempty (hd [] (tl inbox))
  || nonempty (hd [] (tl (tl inbox)))
  || nonempty (hd [] (tl (tl (tl inbox)))).

(** A computation that writes nothing to [payments.status]. *)
Definition quiet {A} (a : Async A) : Prop :=
  forall w, status_writes (journal (snd (a w))) = status_writes (journal w).




(** ** Sample worlds *)

Definition demo_ids (n : nat) : string :=
  "id-" ++ String (Ascii.ascii_of_nat (65 + n)) "".

Definition demo_store : Store :=
  mkStore [] [] [] [] [] [FxRate.mk "USD" "MXN" 18.344%float "2025-09-30"].

Definition demo_world : World := mkWorld demo_store [] demo_ids 0.

Definition demo_input : PaymentInput.t :=
  PaymentInput.mk "payment-1" 100%float "MXN".

Definition demo_input_failing : PaymentInput.t :=
  PaymentInput.mk "payment-fail-mint-1" 100%float "MXN".

Definition demo_input_unrated : PaymentInput.t :=
  PaymentInput.mk "payment-2" 100%float "ABX".
(** The writes to the [funding] table. *)
Definition touches_funding (e : Write) : bool :=
  match e with
  | InsertFunding _ | UpdateFundingStatus _ _ => true
  | _ => false
  end.

(** A computation whose journal entries all fail the test [p]. *)
Definition silent (p : Write -> bool) {A} (a : Async A) : Prop :=
  forall w, filter p (journal (snd (a w))) = filter p (journal w).

(* ===================================================================== *)
(** ** Statements, and what the schema keeps *)

(** How a computation moves its state: [R] relates the state before to the
    state after, whether it returns or throws. *)
Definition keeps {S A} (R : S -> S -> Prop) (m : M S A) : Prop :=
  forall s, R s (snd (m s)).

(** One step of the worker against the database: a call of [nanoid()], or
    one of the seven write statements of the repositories, accepted by the
    constraints of its table. *)
Inductive statement : World -> World -> Prop :=
| draw_id w : statement w (drawn w)
| insert_payment row w :
    has_id (payment_ids (store w)) (Payment.id row) = false ->
    numeric_18_2 (Payment.usd_amount row) = true ->
    statement w (written (with_payments (cons row)) (InsertPayment row) w)
| update_payment_status id st w :
    statement w
      (written (with_payments (map (PaymentsRepo.set_status id st)))
               (UpdatePaymentStatus id st) w)
| insert_funding row w :
    has_id (map Funding.id (funding (store w))) (Funding.id row) = false ->
    has_id (payment_ids (store w)) (Funding.payment_id row) = true ->
    numeric_18_2 (Funding.usd_amount row) = true ->
    statement w (written (with_funding (cons row)) (InsertFunding row) w)
| update_funding_status id st w :
    statement w
      (written (with_funding (map (FundingRepo.set_status id st)))
               (UpdateFundingStatus id st) w)
| insert_minting row w :
    has_id (map Minting.id (minting (store w))) (Minting.id row) = false ->
    has_id (payment_ids (store w)) (Minting.payment_id row) = true ->
    numeric_18_2 (Minting.usd_amount row) = true ->
    numeric_18_6 (Minting.usdc_amount row) = true ->
    numeric_18_6 (Minting.usdc_rate row) = true ->
    statement w (written (with_minting (cons row)) (InsertMinting row) w)
| insert_offramp row w :
    has_id (map Offramp.id (offramp (store w))) (Offramp.id row) = false ->
    has_id (payment_ids (store w)) (Offramp.payment_id row) = true ->
    numeric_18_6 (Offramp.usdc_amount row) = true ->
    numeric_18_2 (Offramp.local_amount row) = true ->
    numeric_18_6 (Offramp.fx_rate row) = true ->
    statement w (written (with_offramp (cons row)) (InsertOfframp row) w)
| insert_fee row w :
    has_id (map Fee.id (fees (store w))) (Fee.id row) = false ->
    has_id (payment_ids (store w)) (Fee.payment_id row) = true ->
    numeric_18_6 (Fee.amount row) = true ->
    statement w (written (with_fees (cons row)) (InsertFee row) w).

(** A sequence of steps. *)
Inductive statements : World -> World -> Prop :=
| no_statement w : statements w w
| then_statement w1 w2 w3 :
    statements w1 w2 -> statement w2 w3 -> statements w1 w3.

(** PRIMARY KEY of the five tables the worker writes. *)
Definition keys_ok (s : Store) : bool :=
  distinct (payment_ids s)
  && distinct (map Funding.id (funding s))
  && distinct (map Minting.id (minting s))
  && distinct (map Offramp.id (offramp s))
  && distinct (map Fee.id (fees s)).

(** The NUMERIC(18, 2) and NUMERIC(18, 6) columns. *)
Definition columns_ok (s : Store) : bool :=
  forallb (fun r => numeric_18_2 (Payment.usd_amount r)) (payments s)
  && forallb (fun r => numeric_18_2 (Funding.usd_amount r)) (funding s)
  && forallb (fun r => numeric_18_2 (Minting.usd_amount r)
                       && numeric_18_6 (Minting.usdc_amount r)
                       && numeric_18_6 (Minting.usdc_rate r)) (minting s)
  && forallb (fun r => numeric_18_6 (Offramp.usdc_amount r)
                       && numeric_18_2 (Offramp.local_amount r)
                       && numeric_18_6 (Offramp.fx_rate r)) (offramp s)
  && forallb (fun r => numeric_18_6 (Fee.amount r)) (fees s).

(** A store as the schema admits it. *)
Definition consistent (s : Store) : bool :=
  keys_ok s && fk_ok s && columns_ok s.

(** The columns of a row that no statement of the source sets again. *)
Definition payment_core (r : Payment.t) : string * number * string :=
  (Payment.id r, Payment.usd_amount r, Payment.destination_currency r).

Definition funding_core (r : Funding.t) : string * string * number :=
  (Funding.id r, Funding.payment_id r, Funding.usd_amount r).

(** [new] is [old] with rows added in front. *)
Definition extends {A} (old new : list A) : Prop :=
  exists added, new = added ++ old.

(** Nothing is deleted and nothing but a status is rewritten. *)
Definition grows (w w' : World) : Prop :=
  extends (map payment_core (payments (store w)))
          (map payment_core (payments (store w')))
  /\ extends (map funding_core (funding (store w)))
             (map funding_core (funding (store w')))
  /\ extends (minting (store w)) (minting (store w'))
  /\ extends (offramp (store w)) (offramp (store w'))
  /\ extends (fees (store w)) (fees (store w'))
  /\ fx_rates (store w') = fx_rates (store w)
  /\ (exists entries, journal w' = journal w ++ entries)
  /\ nanoid_source w' = nanoid_source w
  /\ nanoid_calls w <= nanoid_calls w'.

(** The signal handler's variables after the signals of [n] suspensions. *)
Definition handled (n : nat) (r r' : Workflows.Run) : Prop :=
  Workflows.inbox r' = skipn n (Workflows.inbox r)
  /\ Workflows.cancelRequested r'
     = Workflows.cancelRequested r
       || nonempty (concat (firstn n (Workflows.inbox r)))
  /\ Workflows.cancelReason r'
     = last (concat (firstn n (Workflows.inbox r)))
            (Workflows.cancelReason r).

(** A store with one settled payment, and a world on it. *)
Definition settled_store : Store :=
  mkStore
    [Payment.mk "payment-0" 50%float "MXN" PaymentStatus.COMPLETED]
    [Funding.mk "f-0" "payment-0" 50%float FundingStatus.COMPLETED]
    [Minting.mk "m-0" "payment-0" 50%float 50%float 1%float
                LegStatus.COMPLETED]
    [Offramp.mk "o-0" "payment-0" 50%float 917.2%float 18.344%float
                "demo-recipient" LegStatus.COMPLETED]
    [Fee.mk "e-2" "payment-0" "OFFRAMP" 4.59%float "MXN";
     Fee.mk "e-1" "payment-0" "MINTING" 0.05%float "USD";
     Fee.mk "e-0" "payment-0" "FUNDING" 0.30%float "USD"]
    [FxRate.mk "USD" "MXN" 18.344%float "2025-09-30"].

Definition settled_world : World := mkWorld settled_store [] demo_ids 0.


(** What the rows of the payment [other] show, the funding table left
    out: its payment row and its minting, offramp and fee rows. *)
Definition same_rows_of (other : string) (w w' : World) : Prop :=
  find (fun r => String.eqb (Payment.id r) other) (payments (store w'))
  = find (fun r => String.eqb (Payment.id r) other) (payments (store w))
  /\ Server.minting_of other (store w') = Server.minting_of other (store w)
  /\ Server.offramp_of other (store w') = Server.offramp_of other (store w)
  /\ Server.fees_of other (store w') = Server.fees_of other (store w).

Definition same_funding (w w' : World) : Prop :=
  funding (store w') = funding (store w).

(** [m] keeps, for each description, a latest row of [seen]. *)
Definition keeps_latest (seen : list ImportFxRates.TreasuryRow)
    (m : ImportFxRates.Map ImportFxRates.TreasuryRow) : Prop :=
  forall desc,
    match ImportFxRates.get desc m with
    | Some kept =>
        In kept seen
        /\ ImportFxRates.country_currency_desc kept = desc
        /\ forall r,
             In r seen ->
             ImportFxRates.country_currency_desc r = desc ->
             String.ltb (ImportFxRates.effective_date kept)
                        (ImportFxRates.effective_date r) = false
    | None =>
        forall r, In r seen -> ImportFxRates.country_currency_desc r <> desc
    end.

(** What one accepted upsert makes of the table. *)
Definition put (new : FxRate.t) (table : list FxRate.t) : list FxRate.t :=
  let same :=
    ImportFxRates.same_pair (FxRate.base_currency new)
                            (FxRate.quote_currency new) in
  if existsb same table
  then map (fun r => if same r then new else r) table
  else new :: table.

(** The rows an import that goes through upserts, in order. *)
Definition rows_of (Number : string -> number)
    (codeToDesc : list (string * string))
    (entries : ImportFxRates.Map ImportFxRates.TreasuryRow)
    : list FxRate.t :=
  map (fun entry =>
         FxRate.mk "USD"
           match ImportFxRates.code_of codeToDesc (fst entry) with
           | Some code => code
           | None => ""
           end
           (Number (ImportFxRates.exchange_rate (snd entry)))
           (ImportFxRates.effective_date (snd entry)))
      entries.

(** The last of [news] that has the key of [r]. *)
Fixpoint final (news : list FxRate.t) (r : FxRate.t) : option FxRate.t :=
  match news with
  | [] => None
  | n :: rest =>
      match final rest r with
      | Some later => Some later
      | None =>
          if ImportFxRates.same_pair (FxRate.base_currency n)
                                     (FxRate.quote_currency n) r
          then Some n else None
      end
  end.








(** The stage a run ends in, as the three tests of the workflow decide it
    in order: the cancellation flag at the checkpoint, the failure marker
    in the identifier, the rate of the currency. *)
Definition outcome_stage (w : World) (input : PaymentInput.t)
    (signals : list (list (option string))) : string :=
  if cancelled_at_checkpoint signals then "CANCELLED_AFTER_FUNDING"
  else if includes (PaymentInput.paymentId input) "fail-mint"
  then "FAILED_MINTING"
  else
    match rate_of (store w) (PaymentInput.destinationCurrency input) with
    | None => "FAILED_OFFRAMP"
    | Some _ => "COMPLETED"
    end.

(** The identifiers a run ending in [stage] has drawn. *)
Definition outcome_draws (stage : string) : nat :=
  if String.eqb stage "CANCELLED_AFTER_FUNDING" then 2
  else if String.eqb stage "FAILED_MINTING" then 3
  else if String.eqb stage "FAILED_OFFRAMP" then 5
  else 6.

(* ===================================================================== *)
(** * Properties *)

Import Workflows.

Arguments has_id : simpl never.
Arguments numeric_18_2 : simpl never.
Arguments numeric_18_6 : simpl never.
Arguments Number_toFixed2 : simpl never.

(** ** Keys and tables *)

Lemma has_id_cons (x : string) (l : list string) (i : string) :
  has_id (x :: l) i = String.eqb i x || has_id l i.
Proof. reflexivity. Qed.

Lemma has_id_nil (i : string) : has_id [] i = false.
Proof. reflexivity. Qed.

Lemma has_id_app (l1 l2 : list string) (i : string) :
  has_id (l1 ++ l2) i = has_id l1 i || has_id l2 i.
Proof. unfold has_id. apply existsb_app. Qed.

Lemma has_id_false_inv (x : string) (l : list string) (i : string) :
  has_id (x :: l) i = false -> String.eqb i x = false /\ has_id l i = false.
Proof. rewrite has_id_cons. apply orb_false_elim. Qed.

Lemma payment_update_absent (id : string) (st : PaymentStatus.t)
    (l : list Payment.t) :
  has_id (map Payment.id l) id = false ->
  map (PaymentsRepo.set_status id st) l = l.
Proof.
  induction l as [|r l IH]; cbn [map]; intros H; [reflexivity|].
  apply has_id_false_inv in H. destruct H as [Hr Hl].
  rewrite (IH Hl). unfold PaymentsRepo.set_status.
  rewrite String.eqb_sym, Hr. reflexivity.
Qed.

Lemma funding_update_absent (id : string) (st : FundingStatus.t)
    (l : list Funding.t) :
  has_id (map Funding.id l) id = false ->
  map (FundingRepo.set_status id st) l = l.
Proof.
  induction l as [|r l IH]; cbn [map]; intros H; [reflexivity|].
  apply has_id_false_inv in H. destruct H as [Hr Hl].
  rewrite (IH Hl). unfold FundingRepo.set_status.
  rewrite String.eqb_sym, Hr. reflexivity.
Qed.

(** ** The monad *)

Lemma bind_Ok S A B (m : M S A) (k : A -> M S B) s a s' res :
  m s = (Ok a, s') -> k a s' = res -> bind m k s = res.
Proof. intros Hm Hk. unfold bind. rewrite Hm. exact Hk. Qed.

Lemma bind_Thrown S A B (m : M S A) (k : A -> M S B) s e s' :
  m s = (Thrown e, s') -> bind m k s = (Thrown e, s').
Proof. intros Hm. unfold bind. rewrite Hm. reflexivity. Qed.

Lemma query_ok ok f e w :
  ok (store w) = None -> query ok f e w = (Ok tt, written f e w).
Proof. intros H. unfold query. rewrite H. reflexivity. Qed.

(** ** Repositories and activities that go through *)

Lemma createPayment_ok id amt cur st w :
  has_id (payment_ids (store w)) id = false ->
  numeric_18_2 amt = true ->
  Activities.createPaymentActivity id amt cur st w =
  (Ok (Payment.mk id amt cur st),
   written (with_payments (cons (Payment.mk id amt cur st)))
           (InsertPayment (Payment.mk id amt cur st)) w).
Proof.
  intros Hid Hamt.
  unfold Activities.createPaymentActivity, PaymentsRepo.createPayment.
  eapply bind_Ok; [apply query_ok|reflexivity].
  cbn [first_violation]. rewrite Hid, Hamt. reflexivity.
Qed.

Lemma updatePaymentStatus_ok id st w r :
  find (fun r => String.eqb (Payment.id r) id) (payments (store w)) = Some r ->
  Activities.updatePaymentStatusActivity id st w =
  (Ok (Payment.with_status st r),
   written (with_payments (map (PaymentsRepo.set_status id st)))
           (UpdatePaymentStatus id st) w).
Proof.
  intros Hr.
  unfold Activities.updatePaymentStatusActivity,
    PaymentsRepo.updatePaymentStatus.
  eapply bind_Ok; [reflexivity|]. cbv beta. rewrite Hr.
  eapply bind_Ok; [apply query_ok; reflexivity|reflexivity].
Qed.


Ltac store_simpl :=
  unfold payment_ids in *;
  cbn [store journal nanoid_source nanoid_calls written drawn
       with_payments with_funding with_minting with_offramp with_fees
       payments funding minting offramp fees fx_rates map
       Payment.id Payment.usd_amount Payment.destination_currency
       Payment.status Funding.id Funding.payment_id Funding.usd_amount
       Funding.status Minting.id Minting.payment_id Minting.status
       Offramp.id Offramp.payment_id Offramp.status
       Fee.id Fee.payment_id Fee.leg
       PaymentInput.paymentId PaymentInput.amountUsd
       PaymentInput.destinationCurrency
       OfframpInput.paymentId OfframpInput.usdcAmount
       OfframpInput.destinationCurrency
       FundingResult.status FundingResult.fundingId
       MintingResult.status MintingResult.usdcAmount MintingResult.usdcRate
       OfframpResult.status OfframpResult.localAmount OfframpResult.fxRate
       first_violation Nat.add negb LegStatus.to_funding
       LegStatus.is_completed seq distinct forallb
       world cancelRequested cancelReason stage inbox] in *.

Lemma createFundingActivity_ok input w :
  let pid := PaymentInput.paymentId input in
  let amt := PaymentInput.amountUsd input in
  let row := Funding.mk (next_id w 0) pid amt FundingStatus.COMPLETED in
  let fee := Fee.mk (next_id w 1) pid "FUNDING" 0.30%float "USD" in
  has_id (payment_ids (store w)) pid = true ->
  has_id (map Funding.id (funding (store w))) (next_id w 0) = false ->
  has_id (map Fee.id (fees (store w))) (next_id w 1) = false ->
  numeric_18_2 amt = true ->
  Activities.createFundingActivity input w =
  (Ok (FundingResult.mk LegStatus.COMPLETED (next_id w 0)),
   written (with_fees (cons fee)) (InsertFee fee)
     (drawn (written (with_funding (cons row)) (InsertFunding row)
               (drawn w)))).
Proof.
  intros pid amt row fee Hp Hf He Hamt.
  unfold next_id in *. store_simpl.
  unfold Activities.createFundingActivity.
  eapply bind_Ok; [reflexivity|].
  eapply bind_Ok.
  { unfold FundingRepo.createFundingRecord.
    eapply bind_Ok; [apply query_ok|reflexivity].
    store_simpl. fold pid amt. rewrite Hf, Hp, Hamt. reflexivity. }
  eapply bind_Ok; [reflexivity|].
  eapply bind_Ok.
  { unfold FeesRepo.createFeeRecord.
    eapply bind_Ok; [apply query_ok|reflexivity].
    store_simpl. fold pid. rewrite He, Hp. reflexivity. }
  reflexivity.
Qed.

Lemma mintUsdcActivity_failed_ok input w :
  let pid := PaymentInput.paymentId input in
  let amt := PaymentInput.amountUsd input in
  let row := Minting.mk (next_id w 0) pid amt 0%float 1%float LegStatus.FAILED in
  includes pid "fail-mint" = true ->
  has_id (payment_ids (store w)) pid = true ->
  has_id (map Minting.id (minting (store w))) (next_id w 0) = false ->
  numeric_18_2 amt = true ->
  Activities.mintUsdcActivity input w =
  (Ok (MintingResult.mk LegStatus.FAILED 0%float 1%float),
   written (with_minting (cons row)) (InsertMinting row) (drawn w)).
Proof.
  intros pid amt row Hm Hp Hf Hamt.
  unfold next_id in *. store_simpl.
  unfold Activities.mintUsdcActivity. fold pid amt. rewrite Hm.
  eapply bind_Ok; [reflexivity|].
  eapply bind_Ok.
  { unfold MintingRepo.createMintingRecord.
    eapply bind_Ok; [apply query_ok|reflexivity].
    store_simpl. rewrite Hf, Hp, Hamt. reflexivity. }
  reflexivity.
Qed.

Lemma mintUsdcActivity_ok input w :
  let pid := PaymentInput.paymentId input in
  let amt := PaymentInput.amountUsd input in
  let row := Minting.mk (next_id w 0) pid amt (amt * 1)%float 1%float
                        LegStatus.COMPLETED in
  let fee := Fee.mk (next_id w 1) pid "MINTING" 0.05%float "USD" in
  includes pid "fail-mint" = false ->
  has_id (payment_ids (store w)) pid = true ->
  has_id (map Minting.id (minting (store w))) (next_id w 0) = false ->
  has_id (map Fee.id (fees (store w))) (next_id w 1) = false ->
  numeric_18_2 amt = true ->
  numeric_18_6 (amt * 1)%float = true ->
  Activities.mintUsdcActivity input w =
  (Ok (MintingResult.mk LegStatus.COMPLETED (amt * 1)%float 1%float),
   written (with_fees (cons fee)) (InsertFee fee)
     (drawn (written (with_minting (cons row)) (InsertMinting row)
               (drawn w)))).
Proof.
  intros pid amt row fee Hm Hp Hf He Hamt Hamt'.
  unfold next_id in *. store_simpl.
  unfold Activities.mintUsdcActivity. fold pid amt. rewrite Hm.
  eapply bind_Ok; [reflexivity|].
  eapply bind_Ok.
  { unfold MintingRepo.createMintingRecord.
    eapply bind_Ok; [apply query_ok|reflexivity].
    store_simpl. rewrite Hf, Hp, Hamt, Hamt'. reflexivity. }
  store_simpl.
  eapply bind_Ok.
  { eapply bind_Ok; [reflexivity|].
    eapply bind_Ok; [|reflexivity].
    unfold FeesRepo.createFeeRecord.
    eapply bind_Ok; [apply query_ok|reflexivity].
    store_simpl. rewrite He, Hp. reflexivity. }
  reflexivity.
Qed.

Lemma getFxRate_eq base quote w :
  FxRepo.getFxRate base quote w =
  (Ok (match
         find (fun r => String.eqb (FxRate.base_currency r) base
                        && String.eqb (FxRate.quote_currency r) quote)
              (fx_rates (store w))
       with
       | None => None
       | Some r => Some (FxRepo.mk (FxRate.rate r) (FxRate.as_of r))
       end), w).
Proof. reflexivity. Qed.

Lemma offrampActivity_norate_ok params w :
  let pid := OfframpInput.paymentId params in
  let usdc := OfframpInput.usdcAmount params in
  let row := Offramp.mk (next_id w 0) pid usdc 0%float 0%float "unknown"
                        LegStatus.FAILED in
  rate_of (store w) (OfframpInput.destinationCurrency params) = None ->
  has_id (payment_ids (store w)) pid = true ->
  has_id (map Offramp.id (offramp (store w))) (next_id w 0) = false ->
  numeric_18_6 usdc = true ->
  Activities.offrampActivity params w =
  (Ok (OfframpResult.mk LegStatus.FAILED 0%float 0%float),
   written (with_offramp (cons row)) (InsertOfframp row) (drawn w)).
Proof.
  intros pid usdc row Hr Hp Hf Hamt.
  unfold next_id, rate_of in *. store_simpl.
  unfold Activities.offrampActivity.
  eapply bind_Ok; [apply getFxRate_eq|]. cbv beta.
  destruct (find _ (fx_rates (store w))); [discriminate|].
  eapply bind_Ok; [reflexivity|].
  eapply bind_Ok.
  { unfold OfframpRepo.createOfframpRecord.
    eapply bind_Ok; [apply query_ok|reflexivity].
    store_simpl. fold pid usdc. rewrite Hf, Hp, Hamt. reflexivity. }
  reflexivity.
Qed.

Lemma offrampActivity_ok params w rate :
  let pid := OfframpInput.paymentId params in
  let usdc := OfframpInput.usdcAmount params in
  let cur := OfframpInput.destinationCurrency params in
  let row := Offramp.mk (next_id w 0) pid usdc (usdc * rate)%float rate
                        "demo-recipient" LegStatus.COMPLETED in
  let fee := Fee.mk (next_id w 1) pid "OFFRAMP"
                    (Number_toFixed2 (usdc * rate * 0.005)%float) cur in
  rate_of (store w) cur = Some rate ->
  has_id (payment_ids (store w)) pid = true ->
  has_id (map Offramp.id (offramp (store w))) (next_id w 0) = false ->
  has_id (map Fee.id (fees (store w))) (next_id w 1) = false ->
  numeric_18_6 usdc = true ->
  numeric_18_2 (usdc * rate)%float = true ->
  numeric_18_6 rate = true ->
  numeric_18_6 (Number_toFixed2 (usdc * rate * 0.005)%float) = true ->
  Activities.offrampActivity params w =
  (Ok (OfframpResult.mk LegStatus.COMPLETED (usdc * rate)%float rate),
   written (with_fees (cons fee)) (InsertFee fee)
     (drawn (written (with_offramp (cons row)) (InsertOfframp row)
               (drawn w)))).
Proof.
  intros pid usdc cur row fee Hr Hp Hf He H1 H2 H3 H4.
  unfold next_id, rate_of in *. store_simpl.
  unfold Activities.offrampActivity.
  eapply bind_Ok; [apply getFxRate_eq|]. cbv beta. fold cur.
  destruct (find _ (fx_rates (store w))) as [fx|]; [|discriminate].
  injection Hr as Hr. cbn [FxRepo.rate]. rewrite Hr.
  eapply bind_Ok; [reflexivity|].
  eapply bind_Ok.
  { unfold OfframpRepo.createOfframpRecord.
    eapply bind_Ok; [apply query_ok|reflexivity].
    store_simpl. fold pid usdc. rewrite Hf, Hp, H1, H2, H3. reflexivity. }
  eapply bind_Ok; [reflexivity|].
  eapply bind_Ok.
  { unfold FeesRepo.createFeeRecord.
    eapply bind_Ok; [apply query_ok|reflexivity].
    store_simpl. fold pid usdc. rewrite He, Hp, H4. reflexivity. }
  reflexivity.
Qed.

Lemma compensateFundingActivity_ok fid w r :
  find (fun r => String.eqb (Funding.id r) fid) (funding (store w)) = Some r ->
  Activities.compensateFundingActivity fid w =
  (Ok tt,
   written (with_funding
              (map (FundingRepo.set_status fid FundingStatus.COMPENSATED)))
           (UpdateFundingStatus fid FundingStatus.COMPENSATED) w).
Proof.
  intros Hr.
  unfold Activities.compensateFundingActivity,
    FundingRepo.updateFundingStatus.
  eapply bind_Ok; [|reflexivity].
  eapply bind_Ok; [reflexivity|]. cbv beta. rewrite Hr.
  eapply bind_Ok; [apply query_ok; reflexivity|reflexivity].
Qed.

(** ** Signals *)

Lemma world_deliver sigs r : world (deliver sigs r) = world r.
Proof.
  revert r. induction sigs as [|x l IH]; intros r; [reflexivity|].
  cbn [deliver fold_left]. fold (deliver l (cancelPaymentSignal x r)).
  rewrite IH. reflexivity.
Qed.

Lemma stage_deliver sigs r : stage (deliver sigs r) = stage r.
Proof.
  revert r. induction sigs as [|x l IH]; intros r; [reflexivity|].
  cbn [deliver fold_left]. fold (deliver l (cancelPaymentSignal x r)).
  rewrite IH. reflexivity.
Qed.

Lemma cancelRequested_deliver sigs r :
  cancelRequested (deliver sigs r) = cancelRequested r || nonempty sigs.
Proof.
  revert r. induction sigs as [|x l IH]; intros r.
  - cbn. rewrite orb_false_r. reflexivity.
  - cbn [deliver fold_left]. fold (deliver l (cancelPaymentSignal x r)).
    rewrite IH. cbn. rewrite orb_true_r. reflexivity.
Qed.

Lemma cancelReason_deliver sigs r :
  cancelReason (deliver sigs r) = last sigs (cancelReason r).
Proof.
  revert r. induction sigs as [|x l IH]; intros r; [reflexivity|].
  cbn [deliver fold_left]. fold (deliver l (cancelPaymentSignal x r)).
  rewrite IH. cbn [cancelPaymentSignal cancelReason].
  destruct l as [|y l]; [reflexivity|].
  cbn [last]. clear. revert y. induction l as [|z l IH]; intros y; [reflexivity|].
  cbn [last]. apply IH.
Qed.

Lemma await_Ok A (a : Async A) w c re st inbox x w' :
  a w = (Ok x, w') ->
  await a (mkRun w c re st inbox) =
  (Ok x, mkRun w' (c || nonempty (hd [] inbox)) (last (hd [] inbox) re) st
               (tl inbox)).
Proof.
  intros Ha. unfold await.
  rewrite world_deliver, stage_deliver, cancelRequested_deliver,
    cancelReason_deliver.
  cbn [world cancelRequested cancelReason stage Workflows.inbox].
  rewrite Ha. reflexivity.
Qed.

Lemma eqb_false_sym a b : String.eqb a b = false -> String.eqb b a = false.
Proof. rewrite String.eqb_sym. trivial. Qed.

Ltac split_bools :=
  repeat match goal with
  | H : _ && _ = true |- _ => apply andb_prop in H; destruct H
  | H : negb _ = true |- _ => apply negb_true_iff in H
  | H : _ || _ = false |- _ => apply orb_false_elim in H; destruct H
  | H : has_id (_ :: _) _ = false |- _ => rewrite has_id_cons in H
  | H : has_id (_ ++ _) _ = false |- _ => rewrite has_id_app in H
  | H : has_id [] _ = false |- _ => clear H
  | H : true = true |- _ => clear H
  end.

Ltac sym_eqbs :=
  repeat match goal with
  | H : String.eqb ?a ?b = false |- _ =>
      lazymatch goal with
      | _ : String.eqb b a = false |- _ => fail
      | _ => pose proof (eqb_false_sym _ _ H)
      end
  end.

Ltac use_bools :=
  repeat match goal with
  | H : _ = true |- _ => rewrite H
  | H : _ = false |- _ => rewrite H
  end.

Ltac norm :=
  unfold next_id, written, drawn, with_payments, with_funding, with_minting,
    with_offramp, with_fees;
  store_simpl;
  rewrite ?payment_update_absent, ?funding_update_absent by assumption;
  unfold PaymentsRepo.set_status, FundingRepo.set_status,
    Payment.with_status, Funding.with_status;
  store_simpl; rewrite ?String.eqb_refl, <- ?app_assoc; cbn [app].

Ltac side :=
  norm; rewrite ?has_id_cons, ?String.eqb_refl; use_bools;
  cbn [orb andb find]; rewrite ?String.eqb_refl; try reflexivity.

Ltac wf_pure := eapply bind_Ok; [reflexivity|]; cbv beta.
Ltac wf_await tac := eapply bind_Ok; [apply await_Ok; tac|]; cbv beta; norm.

Lemma nonempty_app A (a b : list A) :
  nonempty (a ++ b) = nonempty a || nonempty b.
Proof. destruct a; reflexivity. Qed.

Lemma last_app_nested A (a b : list A) (d : A) :
  last (a ++ b) d = last b (last a d).
Proof.
  induction a as [|x a IH]; cbn [app]; [reflexivity|].
  destruct a as [|y a].
  - cbn [app last]. destruct b as [|z b]; [reflexivity|].
    cbn [last]. clear. revert z. induction b as [|u b IH]; intros z; [reflexivity|].
    cbn [last]. apply IH.
  - cbn [app last] in *. rewrite IH. reflexivity.
Qed.

Lemma flag_at_checkpoint (signals : list (list (option string))) :
  false || nonempty (hd [] signals) || nonempty (hd [] (tl signals))
  || nonempty (hd [] (tl (tl signals)))
  || nonempty (hd [] (tl (tl (tl signals))))
  = cancelled_at_checkpoint signals.
Proof.
  unfold cancelled_at_checkpoint, before_checkpoint.
  destruct signals as [|a [|b [|c [|d l]]]];
    cbn [firstn concat hd tl nonempty orb];
    rewrite ?nonempty_app, ?orb_false_r; cbn [nonempty];
    rewrite ?orb_false_r, ?orb_assoc; reflexivity.
Qed.

Lemma reason_at_answer_eq (signals : list (list (option string))) :
  last (hd [] (tl (tl (tl (tl signals)))))
    (last (hd [] (tl (tl (tl signals))))
       (last (hd [] (tl (tl signals)))
          (last (hd [] (tl signals)) (last (hd [] signals) None))))
  = reason_at_answer signals.
Proof.
  unfold reason_at_answer, before_answer.
  destruct signals as [|a [|b [|c [|d [|e l]]]]];
    cbn [firstn concat hd tl]; rewrite ?last_app_nested, ?app_nil_r;
    reflexivity.
Qed.

Ltac open_start Hs :=
  unfold startable, fresh_draws, draws, leg_ids in Hs;
  store_simpl; split_bools; sym_eqbs.

Ltac wf_funded :=
  unfold PaymentWorkflow, start, startChild, child_result; store_simpl;
  wf_pure;
  wf_await ltac:(apply createPayment_ok; side);
  wf_pure;
  wf_await ltac:(eapply updatePaymentStatus_ok; side);
  wf_await ltac:(reflexivity);
  wf_pure;
  wf_await ltac:(unfold FundingWorkflow; eapply bind_Ok;
                 [apply createFundingActivity_ok; side|reflexivity]);
  wf_pure; norm; rewrite flag_at_checkpoint.

Lemma run_cancelled w input signals :
  startable w input = true ->
  cancelled_at_checkpoint signals = true ->
  exists r',
    PaymentWorkflow input (start w signals)
    = (Ok (cancelled_text (PaymentInput.paymentId input)
                          (reason_at_answer signals)), r')
    /\ stage r' = "CANCELLED_AFTER_FUNDING"
    /\ world r'
       = ended w (payment_row input PaymentStatus.FAILED)
           [funding_row w input FundingStatus.COMPLETED] [] []
           [funding_fee w input]
           [InsertPayment (payment_row input PaymentStatus.CREATED);
            UpdatePaymentStatus (PaymentInput.paymentId input)
              PaymentStatus.IN_PROGRESS;
            InsertFunding (funding_row w input FundingStatus.COMPLETED);
            InsertFee (funding_fee w input);
            UpdatePaymentStatus (PaymentInput.paymentId input)
              PaymentStatus.FAILED] 2.
Proof.
  intros Hs Hc.
  destruct w as [[ps fs ms os es xs] j src n].
  destruct input as [pid amt cur].
  open_start Hs.
  eexists. split; [|split].
  - wf_funded. rewrite Hc.
    wf_pure.
    wf_await ltac:(eapply updatePaymentStatus_ok; side).
    wf_pure. norm. rewrite reason_at_answer_eq. reflexivity.
  - reflexivity.
  - reflexivity.
Qed.

Lemma run_failed_minting w input signals :
  startable w input = true ->
  cancelled_at_checkpoint signals = false ->
  includes (PaymentInput.paymentId input) "fail-mint" = true ->
  exists r',
    PaymentWorkflow input (start w signals)
    = (Ok [Text ("Payment " ++ PaymentInput.paymentId input
                 ++ " FAILED during minting; funding COMPENSATED")%string],
       r')
    /\ stage r' = "FAILED_MINTING"
    /\ world r'
       = ended w (payment_row input PaymentStatus.FAILED)
           [funding_row w input FundingStatus.COMPENSATED]
           [minting_row_failed w input] []
           [funding_fee w input]
           [InsertPayment (payment_row input PaymentStatus.CREATED);
            UpdatePaymentStatus (PaymentInput.paymentId input)
              PaymentStatus.IN_PROGRESS;
            InsertFunding (funding_row w input FundingStatus.COMPLETED);
            InsertFee (funding_fee w input);
            InsertMinting (minting_row_failed w input);
            UpdateFundingStatus (next_id w 0) FundingStatus.COMPENSATED;
            UpdatePaymentStatus (PaymentInput.paymentId input)
              PaymentStatus.FAILED] 3.
Proof.
  intros Hs Hc Hm.
  destruct w as [[ps fs ms os es xs] j src n].
  destruct input as [pid amt cur].
  open_start Hs.
  eexists. split; [|split].
  - wf_funded. rewrite Hc.
    wf_pure.
    wf_await ltac:(reflexivity).
    wf_pure.
    wf_await ltac:(unfold MintingWorkflow; eapply bind_Ok;
                   [apply mintUsdcActivity_failed_ok; side|reflexivity]).
    wf_pure.
    wf_await ltac:(eapply compensateFundingActivity_ok; side).
    wf_await ltac:(eapply updatePaymentStatus_ok; side).
    reflexivity.
  - reflexivity.
  - reflexivity.
Qed.

Ltac side' := unfold rate_of in *; side; try eassumption.

Ltac wf_minted :=
  wf_pure;
  wf_await ltac:(reflexivity);
  wf_pure;
  wf_await ltac:(unfold MintingWorkflow; eapply bind_Ok;
                 [apply mintUsdcActivity_ok; side|reflexivity]);
  wf_pure;
  wf_await ltac:(reflexivity);
  wf_pure.

Lemma run_missing_rate w input signals :
  startable w input = true ->
  amounts_fit w input = true ->
  cancelled_at_checkpoint signals = false ->
  includes (PaymentInput.paymentId input) "fail-mint" = false ->
  rate_of (store w) (PaymentInput.destinationCurrency input) = None ->
  exists r',
    PaymentWorkflow input (start w signals)
    = (Ok [Text ("Payment " ++ PaymentInput.paymentId input
                 ++ " FAILED during offramp; funding COMPENSATED")%string],
       r')
    /\ stage r' = "FAILED_OFFRAMP"
    /\ world r'
       = ended w (payment_row input PaymentStatus.FAILED)
           [funding_row w input FundingStatus.COMPENSATED]
           [minting_row w input] [offramp_row_failed w input]
           [minting_fee w input; funding_fee w input]
           [InsertPayment (payment_row input PaymentStatus.CREATED);
            UpdatePaymentStatus (PaymentInput.paymentId input)
              PaymentStatus.IN_PROGRESS;
            InsertFunding (funding_row w input FundingStatus.COMPLETED);
            InsertFee (funding_fee w input);
            InsertMinting (minting_row w input);
            InsertFee (minting_fee w input);
            InsertOfframp (offramp_row_failed w input);
            UpdateFundingStatus (next_id w 0) FundingStatus.COMPENSATED;
            UpdatePaymentStatus (PaymentInput.paymentId input)
              PaymentStatus.FAILED] 5.
Proof.
  intros Hs Hfit Hc Hm Hr.
  unfold amounts_fit in Hfit. rewrite Hr in Hfit.
  destruct w as [[ps fs ms os es xs] j src n].
  destruct input as [pid amt cur].
  open_start Hs.
  eexists. split; [|split].
  - wf_funded. rewrite Hc.
    wf_minted.
    wf_await ltac:(unfold OfframpWorkflow; eapply bind_Ok;
                   [apply offrampActivity_norate_ok; side'|reflexivity]).
    wf_pure.
    wf_await ltac:(eapply compensateFundingActivity_ok; side).
    wf_await ltac:(eapply updatePaymentStatus_ok; side).
    reflexivity.
  - reflexivity.
  - reflexivity.
Qed.

Lemma run_completed w input signals rate :
  startable w input = true ->
  amounts_fit w input = true ->
  cancelled_at_checkpoint signals = false ->
  includes (PaymentInput.paymentId input) "fail-mint" = false ->
  rate_of (store w) (PaymentInput.destinationCurrency input) = Some rate ->
  exists r',
    PaymentWorkflow input (start w signals)
    = (Ok [Text ("Payment " ++ PaymentInput.paymentId input
                 ++ " COMPLETED: ")%string;
           Num (PaymentInput.amountUsd input); Text " USD -> ";
           Num (PaymentInput.amountUsd input * 1)%float; Text " USDC @ ";
           Num 1%float; Text ", then ";
           Num (PaymentInput.amountUsd input * 1 * rate)%float;
           Text (" " ++ PaymentInput.destinationCurrency input
                 ++ " @ ")%string;
           Num rate],
       r')
    /\ stage r' = "COMPLETED"
    /\ world r'
       = ended w (payment_row input PaymentStatus.COMPLETED)
           [funding_row w input FundingStatus.COMPLETED]
           [minting_row w input] [offramp_row w input rate]
           [offramp_fee w input rate; minting_fee w input;
            funding_fee w input]
           [InsertPayment (payment_row input PaymentStatus.CREATED);
            UpdatePaymentStatus (PaymentInput.paymentId input)
              PaymentStatus.IN_PROGRESS;
            InsertFunding (funding_row w input FundingStatus.COMPLETED);
            InsertFee (funding_fee w input);
            InsertMinting (minting_row w input);
            InsertFee (minting_fee w input);
            InsertOfframp (offramp_row w input rate);
            InsertFee (offramp_fee w input rate);
            UpdatePaymentStatus (PaymentInput.paymentId input)
              PaymentStatus.COMPLETED] 6.
Proof.
  intros Hs Hfit Hc Hm Hr.
  unfold amounts_fit in Hfit. rewrite Hr in Hfit.
  destruct w as [[ps fs ms os es xs] j src n].
  destruct input as [pid amt cur].
  open_start Hs.
  eexists. split; [|split].
  - wf_funded. rewrite Hc.
    wf_minted.
    wf_await ltac:(unfold OfframpWorkflow; eapply bind_Ok;
                   [eapply offrampActivity_ok; side'|reflexivity]).
    wf_pure.
    wf_await ltac:(eapply updatePaymentStatus_ok; side).
    reflexivity.
  - reflexivity.
  - reflexivity.
Qed.

(** ** What the status endpoint shows after a run *)

Lemma has_id_true_neq ids a b :
  has_id ids a = true -> has_id ids b = false -> String.eqb a b = false.
Proof.
  intros Ha Hb. destruct (String.eqb_spec a b) as [->|]; [|reflexivity].
  rewrite Ha in Hb. discriminate.
Qed.

Lemma filter_foreign A (key : A -> string) ids pid (l : list A) :
  forallb (fun r => has_id ids (key r)) l = true ->
  has_id ids pid = false ->
  filter (fun r => String.eqb (key r) pid) l = [].
Proof.
  intros Hl Hp. induction l as [|r l IH]; [reflexivity|].
  cbn [forallb] in Hl. apply andb_prop in Hl. destruct Hl as [Hr Hl].
  cbn [filter]. rewrite (has_id_true_neq _ _ _ Hr Hp). auto.
Qed.

Lemma filter_all A (P : A -> bool) (l : list A) :
  forallb P l = true -> filter P l = l.
Proof.
  induction l as [|r l IH]; [reflexivity|].
  cbn [forallb filter]. intros H. apply andb_prop in H. destruct H as [Hr Hl].
  rewrite Hr, (IH Hl). reflexivity.
Qed.

Lemma find_absent id (l : list Payment.t) :
  has_id (map Payment.id l) id = false ->
  find (fun r => String.eqb (Payment.id r) id) l = None.
Proof.
  induction l as [|r l IH]; [reflexivity|].
  cbn [map]. intros H. apply has_id_false_inv in H. destruct H as [Hr Hl].
  cbn [find]. rewrite String.eqb_sym, Hr. auto.
Qed.

Lemma getPayment_ended w pid p f m o e j k :
  fk_ok (store w) = true ->
  has_id (payment_ids (store w)) pid = false ->
  Payment.id p = pid ->
  forallb (fun r => String.eqb (Funding.payment_id r) pid) f = true ->
  forallb (fun r => String.eqb (Minting.payment_id r) pid) m = true ->
  forallb (fun r => String.eqb (Offramp.payment_id r) pid) o = true ->
  forallb (fun r => String.eqb (Fee.payment_id r) pid) e = true ->
  Server.getPayment pid (store (ended w p f m o e j k))
  = Some (Server.mk p f m o e).
Proof.
  intros Hfk Hp Hid Hf Hm Ho He.
  unfold fk_ok in Hfk.
  apply andb_prop in Hfk. destruct Hfk as [Hfk Hfk4].
  apply andb_prop in Hfk. destruct Hfk as [Hfk Hfk3].
  apply andb_prop in Hfk. destruct Hfk as [Hfk1 Hfk2].
  unfold Server.getPayment, Server.funding_of, Server.minting_of,
    Server.offramp_of, Server.fees_of, ended.
  cbn [store payments funding minting offramp fees find].
  rewrite Hid, String.eqb_refl, !filter_app.
  rewrite (filter_all _ _ _ Hf), (filter_all _ _ _ Hm),
    (filter_all _ _ _ Ho), (filter_all _ _ _ He).
  rewrite (filter_foreign _ _ _ _ _ Hfk1 Hp),
    (filter_foreign _ _ _ _ _ Hfk2 Hp),
    (filter_foreign _ _ _ _ _ Hfk3 Hp),
    (filter_foreign _ _ _ _ _ Hfk4 Hp).
  rewrite !app_nil_r. reflexivity.
Qed.

Lemma startable_fresh w input :
  startable w input = true ->
  fk_ok (store w) = true
  /\ has_id (payment_ids (store w)) (PaymentInput.paymentId input) = false.
Proof.
  unfold startable. intros H.
  apply andb_prop in H. destruct H as [H _].
  apply andb_prop in H. destruct H as [H _].
  apply andb_prop in H. destruct H as [H1 H2].
  apply negb_true_iff in H1. auto.
Qed.

Ltac snapshot Hs :=
  destruct (startable_fresh _ _ Hs) as [? ?];
  apply getPayment_ended; try assumption; try reflexivity;
  cbn [forallb payment_row funding_row funding_fee minting_row
       minting_row_failed minting_fee offramp_row offramp_row_failed
       offramp_fee Funding.payment_id Minting.payment_id
       Offramp.payment_id Fee.payment_id];
  rewrite ?String.eqb_refl; reflexivity.

(** ** What a leg that returns has written *)

Lemma bind_inv S A B (m : M S A) (k : A -> M S B) s b s'' :
  bind m k s = (Ok b, s'') ->
  exists a s', m s = (Ok a, s') /\ k a s' = (Ok b, s'').
Proof.
  unfold bind. destruct (m s) as [[a|e] s']; intros H; [eauto|discriminate].
Qed.

Lemma query_inv ok f e w w' :
  query ok f e w = (Ok tt, w') -> ok (store w) = None /\ w' = written f e w.
Proof.
  unfold query. destruct (ok (store w)); intros H; [discriminate|].
  injection H as <-. auto.
Qed.

Lemma query_Ok_inv ok f e w x w' :
  query ok f e w = (Ok x, w') -> w' = written f e w.
Proof.
  unfold query. destruct (ok (store w)); intros H; [discriminate|].
  injection H as _ <-. reflexivity.
Qed.

Ltac invert_run H :=
  cbv beta in H;
  lazymatch type of H with
  | bind _ _ _ = (Ok _, _) =>
      let a := fresh "a" in
      let s := fresh "w" in
      let H1 := fresh "Hq" in
      apply bind_inv in H; destruct H as (a & s & H1 & H);
      invert_run H1; invert_run H
  | query _ _ _ _ = (Ok _, _) =>
      apply query_Ok_inv in H;
      match type of H with ?x = _ => subst x end
  | nanoid _ = (Ok _, _) => unfold nanoid in H; injection H as <- <-
  | ret _ _ = (Ok _, _) => unfold ret in H; injection H as <- <-
  | select _ _ = (Ok _, _) => unfold select in H; injection H as <- <-
  | _ => idtac
  end.

Lemma createFundingActivity_inv input w res w' :
  Activities.createFundingActivity input w = (Ok res, w') ->
  res = FundingResult.mk LegStatus.COMPLETED (next_id w 0)
  /\ w' = written (with_fees (cons (funding_fee w input)))
            (InsertFee (funding_fee w input))
            (drawn (written
                      (with_funding
                         (cons (funding_row w input FundingStatus.COMPLETED)))
                      (InsertFunding
                         (funding_row w input FundingStatus.COMPLETED))
                      (drawn w))).
Proof.
  unfold Activities.createFundingActivity, FundingRepo.createFundingRecord,
    FeesRepo.createFeeRecord.
  intros H. invert_run H. split; reflexivity.
Qed.

Lemma mintUsdcActivity_inv input w res w' :
  let pid := PaymentInput.paymentId input in
  let amt := PaymentInput.amountUsd input in
  Activities.mintUsdcActivity input w = (Ok res, w') ->
  if includes pid "fail-mint" then
    let row := Minting.mk (next_id w 0) pid amt 0%float 1%float
                          LegStatus.FAILED in
    res = MintingResult.mk LegStatus.FAILED 0%float 1%float
    /\ w' = written (with_minting (cons row)) (InsertMinting row) (drawn w)
  else
    let row := Minting.mk (next_id w 0) pid amt (amt * 1)%float 1%float
                          LegStatus.COMPLETED in
    let fee := Fee.mk (next_id w 1) pid "MINTING" 0.05%float "USD" in
    res = MintingResult.mk LegStatus.COMPLETED (amt * 1)%float 1%float
    /\ w' = written (with_fees (cons fee)) (InsertFee fee)
              (drawn (written (with_minting (cons row)) (InsertMinting row)
                        (drawn w))).
Proof.
  intros pid amt.
  unfold Activities.mintUsdcActivity, MintingRepo.createMintingRecord,
    FeesRepo.createFeeRecord.
  fold pid amt.
  destruct (includes pid "fail-mint"); cbn [LegStatus.is_completed];
    intros H; invert_run H; split; reflexivity.
Qed.

Lemma offrampActivity_inv params w res w' :
  let pid := OfframpInput.paymentId params in
  let usdc := OfframpInput.usdcAmount params in
  let cur := OfframpInput.destinationCurrency params in
  Activities.offrampActivity params w = (Ok res, w') ->
  match rate_of (store w) cur with
  | None =>
      let row := Offramp.mk (next_id w 0) pid usdc 0%float 0%float "unknown"
                            LegStatus.FAILED in
      res = OfframpResult.mk LegStatus.FAILED 0%float 0%float
      /\ w' = written (with_offramp (cons row)) (InsertOfframp row) (drawn w)
  | Some rate =>
      let row := Offramp.mk (next_id w 0) pid usdc (usdc * rate)%float rate
                            "demo-recipient" LegStatus.COMPLETED in
      let fee := Fee.mk (next_id w 1) pid "OFFRAMP"
                        (Number_toFixed2 (usdc * rate * 0.005)%float) cur in
      res = OfframpResult.mk LegStatus.COMPLETED (usdc * rate)%float rate
      /\ w' = written (with_fees (cons fee)) (InsertFee fee)
                (drawn (written (with_offramp (cons row)) (InsertOfframp row)
                          (drawn w)))
  end.
Proof.
  intros pid usdc cur.
  unfold Activities.offrampActivity, OfframpRepo.createOfframpRecord,
    FeesRepo.createFeeRecord, rate_of.
  fold pid usdc cur.
  intros H. apply bind_inv in H. destruct H as (fx & w0 & Hfx & H).
  rewrite getFxRate_eq in Hfx. injection Hfx as <- <-.
  destruct (find _ (fx_rates (store w))) as [r|];
    invert_run H; split; reflexivity.
Qed.

Lemma compensateFundingActivity_inv fid w w' :
  Activities.compensateFundingActivity fid w = (Ok tt, w') ->
  w' = written (with_funding
                  (map (FundingRepo.set_status fid FundingStatus.COMPENSATED)))
         (UpdateFundingStatus fid FundingStatus.COMPENSATED) w.
Proof.
  unfold Activities.compensateFundingActivity,
    FundingRepo.updateFundingStatus.
  intros H. apply bind_inv in H. destruct H as (r & w0 & H & Hret).
  unfold ret in Hret. injection Hret as <-.
  apply bind_inv in H. destruct H as (hit & w1 & Hsel & H).
  unfold select in Hsel. injection Hsel as <- <-.
  destruct (find _ (funding (store w))); [|discriminate].
  invert_run H. reflexivity.
Qed.

(** ** Runs on any world *)

Lemma await_eq A (a : Async A) w c re st inbox :
  await a (mkRun w c re st inbox) =
  (fst (a w),
   mkRun (snd (a w)) (c || nonempty (hd [] inbox)) (last (hd [] inbox) re) st
         (tl inbox)).
Proof.
  unfold await.
  rewrite world_deliver, stage_deliver, cancelRequested_deliver,
    cancelReason_deliver.
  cbn [world cancelRequested cancelReason stage Workflows.inbox].
  destruct (a w); reflexivity.
Qed.

Lemma bind_await_eq A B (a : Async A) (k : A -> Workflow B) w c re st inbox :
  bind (await a) k (mkRun w c re st inbox) =
  match fst (a w) with
  | Ok x =>
      k x (mkRun (snd (a w)) (c || nonempty (hd [] inbox))
                 (last (hd [] inbox) re) st (tl inbox))
  | Thrown e =>
      (Thrown e,
       mkRun (snd (a w)) (c || nonempty (hd [] inbox))
             (last (hd [] inbox) re) st (tl inbox))
  end.
Proof.
  unfold bind. rewrite await_eq. destruct (fst (a w)); reflexivity.
Qed.

Arguments Activities.createPaymentActivity : simpl never.
Arguments Activities.updatePaymentStatusActivity : simpl never.
Arguments Activities.compensateFundingActivity : simpl never.
Arguments FundingWorkflow : simpl never.
Arguments MintingWorkflow : simpl never.
Arguments OfframpWorkflow : simpl never.

Ltac pure_step :=
  cbn [bind set_stage get_cancelRequested get_cancelReason ret
       fst snd world stage cancelRequested cancelReason inbox].

Ltac done_step := cbn [fst snd world stage]; repeat split; auto.

Ltac await_step :=
  first
  [ match goal with
    | |- context [match fst (?a ?w) with _ => _ end] =>
        destruct (a w) as [[?|?] ?]; cbn [fst snd];
        [ | solve [done_step] ]
    end
  | progress (pure_step; rewrite ?bind_await_eq; pure_step) ].

Lemma run_by_flag input w st c1 re1 in1 c2 re2 in2 :
  flag4 c1 in1 = flag4 c2 in2 ->
  let x1 := PaymentWorkflow input (mkRun w c1 re1 st in1) in
  let x2 := PaymentWorkflow input (mkRun w c2 re2 st in2) in
  world (snd x1) = world (snd x2)
  /\ stage (snd x1) = stage (snd x2)
  /\ (fst x1 = fst x2
      \/ (flag4 c1 in1 = true
          /\ exists y1 y2,
               fst x1 = Ok (cancelled_text (PaymentInput.paymentId input) y1)
               /\ fst x2
                  = Ok (cancelled_text (PaymentInput.paymentId input) y2))).
Proof.
  unfold flag4. intros Hf. cbv zeta.
  unfold PaymentWorkflow, startChild, child_result.
  repeat await_step. pure_step.
  match goal with
  | |- context [match FundingResult.status ?x with _ => _ end] =>
      destruct x as [[|] ?]
  end; cbn [FundingResult.status FundingResult.fundingId].
  2: { repeat await_step. pure_step. done_step. }
  pure_step. rewrite <- Hf.
  set (flag := c1 || _ || _ || _ || _). clearbody flag. clear Hf.
  destruct flag.
  { repeat await_step. pure_step. cbn [fst snd world stage].
    split; [reflexivity|]. split; [reflexivity|]. right.
    split; [reflexivity|]. eexists. eexists. split; reflexivity. }
  repeat await_step. pure_step.
  match goal with
  | |- context [match MintingResult.status ?x with _ => _ end] =>
      destruct x as [[|] ? ?]
  end; cbn [MintingResult.status MintingResult.usdcAmount
            MintingResult.usdcRate].
  2: { repeat await_step. pure_step. done_step. }
  repeat await_step. pure_step.
  match goal with
  | |- context [match OfframpResult.status ?x with _ => _ end] =>
      destruct x as [[|] ? ?]
  end; cbn [OfframpResult.status OfframpResult.localAmount
            OfframpResult.fxRate].
  2: { repeat await_step. pure_step. done_step. }
  repeat await_step. pure_step. done_step.
Qed.

(** ** Writes to [payments.status] *)

Lemma status_writes_app j1 j2 :
  status_writes (j1 ++ j2) = status_writes j1 ++ status_writes j2.
Proof.
  induction j1 as [|e j1 IH]; [reflexivity|].
  destruct e; cbn [app status_writes]; rewrite IH; reflexivity.
Qed.

Lemma quiet_ret A (x : A) : quiet (ret x).
Proof. intros w. reflexivity. Qed.

Lemma quiet_throw A e : quiet (@throw World A e).
Proof. intros w. reflexivity. Qed.

Lemma quiet_nanoid : quiet nanoid.
Proof. intros w. reflexivity. Qed.

Lemma quiet_select A (f : Store -> A) : quiet (select f).
Proof. intros w. reflexivity. Qed.

Lemma quiet_bind A B (m : Async A) (k : A -> Async B) :
  quiet m -> (forall a, quiet (k a)) -> quiet (bind m k).
Proof.
  intros Hm Hk w. unfold bind. specialize (Hm w).
  destruct (m w) as [[a|e] w']; cbn [snd] in *; [|exact Hm].
  rewrite Hk. exact Hm.
Qed.

Lemma quiet_query ok f e :
  status_writes [e] = [] -> quiet (query ok f e).
Proof.
  intros He w. unfold query. destruct (ok (store w)); [reflexivity|].
  cbn [snd written journal]. rewrite status_writes_app, He.
  apply app_nil_r.
Qed.

Ltac quiet_steps :=
  repeat first
    [ apply quiet_ret | apply quiet_throw | apply quiet_nanoid
    | apply quiet_select | apply quiet_query; reflexivity
    | apply quiet_bind; [|intros ?] ].

Lemma quiet_createFundingActivity input :
  quiet (Activities.createFundingActivity input).
Proof.
  unfold Activities.createFundingActivity, FundingRepo.createFundingRecord,
    FeesRepo.createFeeRecord.
  quiet_steps.
Qed.

Lemma quiet_mintUsdcActivity input :
  quiet (Activities.mintUsdcActivity input).
Proof.
  unfold Activities.mintUsdcActivity, MintingRepo.createMintingRecord,
    FeesRepo.createFeeRecord.
  destruct (includes _ _); cbn [LegStatus.is_completed]; quiet_steps.
Qed.

Lemma quiet_offrampActivity params :
  quiet (Activities.offrampActivity params).
Proof.
  unfold Activities.offrampActivity, OfframpRepo.createOfframpRecord,
    FeesRepo.createFeeRecord, FxRepo.getFxRate.
  apply quiet_bind; [apply quiet_select|]. intros [fx|]; quiet_steps.
Qed.

Lemma quiet_compensateFundingActivity fid :
  quiet (Activities.compensateFundingActivity fid).
Proof.
  unfold Activities.compensateFundingActivity,
    FundingRepo.updateFundingStatus.
  apply quiet_bind; [|intros; apply quiet_ret].
  apply quiet_bind; [apply quiet_select|]. intros [r|]; quiet_steps.
Qed.

Lemma quiet_FundingWorkflow input w :
  status_writes (journal (snd (FundingWorkflow input w)))
  = status_writes (journal w).
Proof.
  revert w. unfold FundingWorkflow.
  apply quiet_bind; [apply quiet_createFundingActivity|]. intros; apply quiet_ret.
Qed.

Lemma quiet_MintingWorkflow input w :
  status_writes (journal (snd (MintingWorkflow input w)))
  = status_writes (journal w).
Proof.
  revert w. unfold MintingWorkflow.
  apply quiet_bind; [apply quiet_mintUsdcActivity|]. intros; apply quiet_ret.
Qed.

Lemma quiet_OfframpWorkflow params w :
  status_writes (journal (snd (OfframpWorkflow params w)))
  = status_writes (journal w).
Proof.
  revert w. unfold OfframpWorkflow.
  apply quiet_bind; [apply quiet_offrampActivity|]. intros; apply quiet_ret.
Qed.

Lemma createPayment_writes id amt cur st w :
  match fst (Activities.createPaymentActivity id amt cur st w) with
  | Ok _ =>
      status_writes
        (journal (snd (Activities.createPaymentActivity id amt cur st w)))
      = status_writes (journal w) ++ [(id, st)]
      /\ has_id (payment_ids (store w)) id = false
  | Thrown _ =>
      snd (Activities.createPaymentActivity id amt cur st w) = w
  end.
Proof.
  unfold Activities.createPaymentActivity, PaymentsRepo.createPayment,
    bind, query.
  cbn [first_violation].
  destruct (has_id (payment_ids (store w)) id); cbn [negb fst snd];
    [reflexivity|].
  destruct (numeric_18_2 amt); cbn [fst snd]; [|reflexivity].
  split; [|reflexivity].
  cbn [ret snd written journal]. rewrite status_writes_app. reflexivity.
Qed.

Lemma updatePaymentStatus_writes id st w :
  match fst (Activities.updatePaymentStatusActivity id st w) with
  | Ok _ =>
      status_writes
        (journal (snd (Activities.updatePaymentStatusActivity id st w)))
      = status_writes (journal w) ++ [(id, st)]
  | Thrown _ =>
      snd (Activities.updatePaymentStatusActivity id st w) = w
  end.
Proof.
  unfold Activities.updatePaymentStatusActivity,
    PaymentsRepo.updatePaymentStatus, bind, select, query, throw.
  destruct (find _ (payments (store w))); cbn [fst snd]; [|reflexivity].
  cbn [ret snd written journal]. rewrite status_writes_app. reflexivity.
Qed.

Lemma forward_chain_stops a l pre s rest :
  forward_chain a l = true ->
  l = pre ++ s :: rest ->
  PaymentStatus.terminal s = true ->
  rest = [].
Proof.
  revert a l. induction pre as [|x pre IH]; intros a l Hl -> Hs.
  - cbn [app forward_chain] in Hl. destruct rest as [|y rest]; [reflexivity|].
    cbn [forward_chain] in Hl.
    destruct s; try discriminate Hs; destruct y;
      rewrite ?andb_false_r in Hl; cbn in Hl; discriminate.
  - cbn [app forward_chain] in Hl. apply andb_prop in Hl.
    destruct Hl as [_ Hl]. exact (IH x _ Hl eq_refl Hs).
Qed.

Lemma forward_only_stops l pre s rest :
  forward_only l = true ->
  l = pre ++ s :: rest ->
  PaymentStatus.terminal s = true ->
  rest = [].
Proof.
  intros Hl -> Hs. destruct pre as [|x pre].
  - cbn [app] in Hl. destruct s; try discriminate Hs; discriminate Hl.
  - cbn [app forward_only] in Hl. destruct x; try discriminate Hl.
    exact (forward_chain_stops _ _ pre s rest Hl eq_refl Hs).
Qed.

Ltac effect_of a w :=
  lazymatch a with
  | Activities.createPaymentActivity ?i ?x ?c ?s =>
      pose proof (createPayment_writes i x c s w)
  | Activities.updatePaymentStatusActivity ?i ?s =>
      pose proof (updatePaymentStatus_writes i s w)
  | Activities.compensateFundingActivity ?f =>
      pose proof (quiet_compensateFundingActivity f w)
  | FundingWorkflow ?i => pose proof (quiet_FundingWorkflow i w)
  | MintingWorkflow ?i => pose proof (quiet_MintingWorkflow i w)
  | OfframpWorkflow ?i => pose proof (quiet_OfframpWorkflow i w)
  end.

Ltac chain_writes :=
  cbn [fst snd world] in *; subst;
  repeat match goal with
         | H : _ /\ _ |- _ => destruct H
         end;
  repeat match goal with
         | H : status_writes (journal ?x) = _
           |- context [status_writes (journal ?x)] => rewrite H; clear H
         end;
  rewrite <- ?app_assoc; cbn [app].

Ltac trace_step tac :=
  first
  [ match goal with
    | |- context [match fst (?a ?w) with _ => _ end] =>
        effect_of a w;
        destruct (a w) as [[?|?] ?]; cbn [fst snd] in *;
        [ | solve [tac] ]
    end
  | progress (pure_step; rewrite ?bind_await_eq; pure_step) ].

Ltac fin :=
  chain_writes;
  first [ exists []; rewrite app_nil_r;
          repeat split; first [reflexivity | congruence]
        | eexists; split; [reflexivity|];
          cbn [forallb fst map snd forward_only forward_chain forward];
          rewrite ?String.eqb_refl; repeat split; auto ].

Lemma status_trace input w c re st inbox :
  let pid := PaymentInput.paymentId input in
  let r' := snd (PaymentWorkflow input (mkRun w c re st inbox)) in
  exists writes,
    status_writes (journal (world r'))
    = status_writes (journal w) ++ writes
    /\ forallb (fun x => String.eqb (fst x) pid) writes = true
    /\ forward_only (map snd writes) = true
    /\ (writes <> [] -> has_id (payment_ids (store w)) pid = false).
Proof.
  cbv zeta.
  unfold PaymentWorkflow, startChild, child_result.
  repeat trace_step fin. pure_step.
  match goal with
  | |- context [match FundingResult.status ?x with _ => _ end] =>
      destruct x as [[|] ?]
  end; cbn [FundingResult.status FundingResult.fundingId].
  2: { repeat trace_step fin. pure_step. fin. }
  pure_step.
  match goal with
  | |- context [if ?b then _ else _] => destruct b
  end.
  { repeat trace_step fin. pure_step. fin. }
  repeat trace_step fin. pure_step.
  match goal with
  | |- context [match MintingResult.status ?x with _ => _ end] =>
      destruct x as [[|] ? ?]
  end; cbn [MintingResult.status MintingResult.usdcAmount
            MintingResult.usdcRate].
  2: { repeat trace_step fin. pure_step. fin. }
  repeat trace_step fin. pure_step.
  match goal with
  | |- context [match OfframpResult.status ?x with _ => _ end] =>
      destruct x as [[|] ? ?]
  end; cbn [OfframpResult.status OfframpResult.localAmount
            OfframpResult.fxRate].
  2: { repeat trace_step fin. pure_step. fin. }
  repeat trace_step fin. pure_step. fin.
Qed.

(* ===================================================================== *)
(** * The claims *)

(** C1.  When the payment identifier contains the failure marker
    ["fail-mint"], the Minting leg, whenever it returns, reports FAILED,
    records a minting row with zero converted amount and writes no fee.  A
    run that reaches Minting (started on a startable world, no cancellation
    before the checkpoint) then compensates the funding leg under the
    identifier the Funding leg returned, marks the payment FAILED and
    answers "FAILED during minting; funding COMPENSATED"; the status
    endpoint shows the funding row COMPENSATED, the minting row FAILED with
    zero converted amount, and the funding fee as the only fee row. *)
Theorem failed_minting_compensates_funding :
  forall (w : World) (input : PaymentInput.t)
         (signals : list (list (option string))),
    startable w input = true ->
    includes (PaymentInput.paymentId input) "fail-mint" = true ->
    cancelled_at_checkpoint signals = false ->
    (forall w0 res w0',
        Activities.mintUsdcActivity input w0 = (Ok res, w0') ->
        MintingResult.status res = LegStatus.FAILED
        /\ (exists row,
               minting (store w0') = row :: minting (store w0)
               /\ Minting.payment_id row = PaymentInput.paymentId input
               /\ Minting.usdc_amount row = 0%float
               /\ Minting.status row = LegStatus.FAILED)
        /\ fees (store w0') = fees (store w0))
    /\ exists r',
        PaymentWorkflow input (start w signals)
        = (Ok [Text ("Payment " ++ PaymentInput.paymentId input
                     ++ " FAILED during minting; funding COMPENSATED")%string],
           r')
        /\ stage r' = "FAILED_MINTING"
        /\ journal (world r')
           = journal w
             ++ [InsertPayment (payment_row input PaymentStatus.CREATED);
                 UpdatePaymentStatus (PaymentInput.paymentId input)
                   PaymentStatus.IN_PROGRESS;
                 InsertFunding (funding_row w input FundingStatus.COMPLETED);
                 InsertFee (funding_fee w input);
                 InsertMinting (minting_row_failed w input);
                 UpdateFundingStatus
                   (Funding.id (funding_row w input FundingStatus.COMPLETED))
                   FundingStatus.COMPENSATED;
                 UpdatePaymentStatus (PaymentInput.paymentId input)
                   PaymentStatus.FAILED]
        /\ Server.getPayment (PaymentInput.paymentId input)
             (store (world r'))
           = Some (Server.mk
                     (payment_row input PaymentStatus.FAILED)
                     [funding_row w input FundingStatus.COMPENSATED]
                     [minting_row_failed w input] []
                     [funding_fee w input])
        /\ Minting.usdc_amount (minting_row_failed w input) = 0%float
        /\ Minting.status (minting_row_failed w input) = LegStatus.FAILED.
Proof.
  intros w input signals Hs Hm Hc. split.
  - intros w0 res w0' H. apply mintUsdcActivity_inv in H.
    rewrite Hm in H. destruct H as [-> ->].
    split; [reflexivity|]. split; [|reflexivity].
    eexists. cbn [store written drawn with_minting minting].
    repeat split; reflexivity.
  - destruct (run_failed_minting w input signals Hs Hc Hm) as (r' & Hrun & Hst & Hw).
    exists r'. rewrite Hw. repeat split; try assumption; try reflexivity.
    snapshot Hs.
Qed.

Lemma failed_minting_compensates_funding_witness :
  exists r',
    PaymentWorkflow demo_input_failing (start demo_world [])
    = (Ok [Text "Payment payment-fail-mint-1 FAILED during minting; funding COMPENSATED"],
       r')
    /\ Server.getPayment "payment-fail-mint-1" (store (world r'))
       = Some (Server.mk
                 (Payment.mk "payment-fail-mint-1" 100%float "MXN"
                             PaymentStatus.FAILED)
                 [Funding.mk "id-A" "payment-fail-mint-1" 100%float
                             FundingStatus.COMPENSATED]
                 [Minting.mk "id-C" "payment-fail-mint-1" 100%float 0%float
                             1%float LegStatus.FAILED]
                 []
                 [Fee.mk "id-B" "payment-fail-mint-1" "FUNDING" 0.30%float
                         "USD"]).
Proof.
  destruct (failed_minting_compensates_funding demo_world demo_input_failing
              [] eq_refl eq_refl eq_refl)
    as (_ & r' & Hrun & _ & _ & Hsnap & _).
  exists r'. split; [exact Hrun|exact Hsnap].
Defined.

(** C2.  When the destination currency has no rate (no cancellation before
    the checkpoint, no failure marker), the Offramp leg, whenever it
    returns, has recorded exactly one more offramp row, with zero local
    amount, zero rate and status FAILED, has charged no fee, and reports
    FAILED.  The run then compensates the funding leg and marks the payment
    FAILED: the status endpoint shows Funding COMPENSATED, Minting
    COMPLETED, Offramp FAILED with zero amount and rate, and no OFFRAMP fee
    among the fee rows. *)
Theorem missing_rate_fails_offramp_and_compensates :
  forall (w : World) (input : PaymentInput.t)
         (signals : list (list (option string))),
    startable w input = true ->
    amounts_fit w input = true ->
    cancelled_at_checkpoint signals = false ->
    includes (PaymentInput.paymentId input) "fail-mint" = false ->
    rate_of (store w) (PaymentInput.destinationCurrency input) = None ->
    (forall params w0 res w0',
        rate_of (store w0) (OfframpInput.destinationCurrency params) = None ->
        Activities.offrampActivity params w0 = (Ok res, w0') ->
        res = OfframpResult.mk LegStatus.FAILED 0%float 0%float
        /\ (exists row,
               offramp (store w0') = row :: offramp (store w0)
               /\ Offramp.payment_id row = OfframpInput.paymentId params
               /\ Offramp.local_amount row = 0%float
               /\ Offramp.fx_rate row = 0%float
               /\ Offramp.status row = LegStatus.FAILED)
        /\ fees (store w0') = fees (store w0))
    /\ exists r',
        PaymentWorkflow input (start w signals)
        = (Ok [Text ("Payment " ++ PaymentInput.paymentId input
                     ++ " FAILED during offramp; funding COMPENSATED")%string],
           r')
        /\ stage r' = "FAILED_OFFRAMP"
        /\ Server.getPayment (PaymentInput.paymentId input)
             (store (world r'))
           = Some (Server.mk
                     (payment_row input PaymentStatus.FAILED)
                     [funding_row w input FundingStatus.COMPENSATED]
                     [minting_row w input]
                     [offramp_row_failed w input]
                     [minting_fee w input; funding_fee w input])
        /\ Minting.status (minting_row w input) = LegStatus.COMPLETED
        /\ Offramp.local_amount (offramp_row_failed w input) = 0%float
        /\ Offramp.fx_rate (offramp_row_failed w input) = 0%float
        /\ Offramp.status (offramp_row_failed w input) = LegStatus.FAILED.
Proof.
  intros w input signals Hs Hfit Hc Hm Hr. split.
  - intros params w0 res w0' Hr0 H. apply offrampActivity_inv in H.
    rewrite Hr0 in H. destruct H as [-> ->].
    split; [reflexivity|]. split; [|reflexivity].
    eexists. cbn [store written drawn with_offramp offramp].
    repeat split; reflexivity.
  - destruct (run_missing_rate w input signals Hs Hfit Hc Hm Hr)
      as (r' & Hrun & Hst & Hw).
    exists r'. rewrite Hw. repeat split; try assumption; try reflexivity.
    snapshot Hs.
Qed.

Lemma missing_rate_fails_offramp_and_compensates_witness :
  exists r',
    PaymentWorkflow demo_input_unrated (start demo_world [])
    = (Ok [Text "Payment payment-2 FAILED during offramp; funding COMPENSATED"],
       r')
    /\ Server.getPayment "payment-2" (store (world r'))
       = Some (Server.mk
                 (Payment.mk "payment-2" 100%float "ABX" PaymentStatus.FAILED)
                 [Funding.mk "id-A" "payment-2" 100%float
                             FundingStatus.COMPENSATED]
                 [Minting.mk "id-C" "payment-2" 100%float 100%float 1%float
                             LegStatus.COMPLETED]
                 [Offramp.mk "id-E" "payment-2" 100%float 0%float 0%float
                             "unknown" LegStatus.FAILED]
                 [Fee.mk "id-D" "payment-2" "MINTING" 0.05%float "USD";
                  Fee.mk "id-B" "payment-2" "FUNDING" 0.30%float "USD"]).
Proof.
  destruct (missing_rate_fails_offramp_and_compensates demo_world
              demo_input_unrated [] eq_refl eq_refl eq_refl eq_refl eq_refl)
    as (_ & r' & Hrun & _ & Hsnap & _).
  exists r'. split; [exact Hrun|exact Hsnap].
Defined.

(** C4, as amended.  A cancellation signal delivered before the checkpoint
    (in one of the four suspensions that precede the check of the flag)
    leaves the payment FAILED, exactly one funding row, with status
    COMPLETED, and no minting or offramp row. *)
Theorem cancel_before_checkpoint_stops_after_funding :
  forall (w : World) (input : PaymentInput.t)
         (signals : list (list (option string))),
    startable w input = true ->
    cancelled_at_checkpoint signals = true ->
    exists r',
      PaymentWorkflow input (start w signals)
      = (Ok (cancelled_text (PaymentInput.paymentId input)
                            (reason_at_answer signals)), r')
      /\ Server.getPayment (PaymentInput.paymentId input) (store (world r'))
         = Some (Server.mk
                   (payment_row input PaymentStatus.FAILED)
                   [funding_row w input FundingStatus.COMPLETED] [] []
                   [funding_fee w input]).
Proof.
  intros w input signals Hs Hc.
  destruct (run_cancelled w input signals Hs Hc) as (r' & Hrun & Hst & Hw).
  exists r'. rewrite Hw. split; [assumption|]. snapshot Hs.
Qed.

Lemma cancel_before_checkpoint_stops_after_funding_witness :
  exists r',
    PaymentWorkflow demo_input
      (start demo_world [[]; [Some "test-cancel"]])
    = (Ok [Text "Payment payment-1 CANCELLED after funding (reason: test-cancel)"],
       r')
    /\ Server.getPayment "payment-1" (store (world r'))
       = Some (Server.mk
                 (Payment.mk "payment-1" 100%float "MXN" PaymentStatus.FAILED)
                 [Funding.mk "id-A" "payment-1" 100%float
                             FundingStatus.COMPLETED]
                 [] []
                 [Fee.mk "id-B" "payment-1" "FUNDING" 0.30%float "USD"]).
Proof.
  exact (cancel_before_checkpoint_stops_after_funding demo_world demo_input
           [[]; [Some "test-cancel"]] eq_refl eq_refl).
Defined.

(** C4 as stated fails: a signal delivered while the Minting child is
    awaited, before the Minting leg completes, is not honoured.  The
    payment ends COMPLETED and an offramp row exists. *)
Lemma cancel_while_minting_is_not_honoured :
  let signals := [[]; []; []; []; []; [Some "test-cancel"]] in
  let final :=
    store (world (snd (PaymentWorkflow demo_input
                         (start demo_world signals)))) in
  startable demo_world demo_input = true
  /\ nonempty (before_minting_completes signals) = true
  /\ ~ (exists snap,
          Server.getPayment "payment-1" final = Some snap
          /\ Payment.status (Server.payment snap) = PaymentStatus.FAILED
          /\ Server.offramp snap = []).
Proof.
  cbv zeta. split; [reflexivity|]. split; [reflexivity|].
  intros (snap & Hsnap & Hst & _).
  vm_compute in Hsnap. injection Hsnap as <-.
  discriminate Hst.
Qed.

(** C5.  A request of 100 to a currency whose rate is 18.344, with no
    cancellation before the checkpoint and no failure marker, produces one
    funding row (COMPLETED), one minting row (COMPLETED, 100 at rate 1), one
    offramp row (COMPLETED, 1834.4 at rate 18.344), three fee rows tagged
    OFFRAMP, MINTING and FUNDING, and the payment COMPLETED.  The OFFRAMP
    fee is 0.5 per cent of the delivered amount rounded to two decimals,
    9.17, in the destination currency. *)
Theorem happy_path_100_at_18_344 :
  forall (w : World) (paymentId destinationCurrency : string)
         (signals : list (list (option string))),
    let input := PaymentInput.mk paymentId 100%float destinationCurrency in
    startable w input = true ->
    cancelled_at_checkpoint signals = false ->
    includes paymentId "fail-mint" = false ->
    rate_of (store w) destinationCurrency = Some 18.344%float ->
    exists r',
      PaymentWorkflow input (start w signals)
      = (Ok [Text ("Payment " ++ paymentId ++ " COMPLETED: ")%string;
             Num 100%float; Text " USD -> "; Num 100%float;
             Text " USDC @ "; Num 1%float; Text ", then ";
             Num 1834.4%float;
             Text (" " ++ destinationCurrency ++ " @ ")%string;
             Num 18.344%float],
         r')
      /\ Server.getPayment paymentId (store (world r'))
         = Some (Server.mk
                   (Payment.mk paymentId 100%float destinationCurrency
                               PaymentStatus.COMPLETED)
                   [Funding.mk (next_id w 0) paymentId 100%float
                               FundingStatus.COMPLETED]
                   [Minting.mk (next_id w 2) paymentId 100%float 100%float
                               1%float LegStatus.COMPLETED]
                   [Offramp.mk (next_id w 4) paymentId 100%float
                               1834.4%float 18.344%float "demo-recipient"
                               LegStatus.COMPLETED]
                   [Fee.mk (next_id w 5) paymentId "OFFRAMP" 9.17%float
                           destinationCurrency;
                    Fee.mk (next_id w 3) paymentId "MINTING" 0.05%float
                           "USD";
                    Fee.mk (next_id w 1) paymentId "FUNDING" 0.30%float
                           "USD"])
      /\ Number_toFixed2 (1834.4 * 0.005)%float = 9.17%float.
Proof.
  intros w pid cur signals input Hs Hc Hm Hr.
  assert (Hfit : amounts_fit w input = true).
  { unfold amounts_fit. cbn [input PaymentInput.destinationCurrency].
    rewrite Hr. reflexivity. }
  destruct (run_completed w input signals 18.344%float Hs Hfit Hc Hm Hr)
    as (r' & Hrun & Hst & Hw).
  exists r'. rewrite Hw. split; [exact Hrun|]. split; [|reflexivity].
  change (Some _) with
    (Some (Server.mk (payment_row input PaymentStatus.COMPLETED)
             [funding_row w input FundingStatus.COMPLETED]
             [minting_row w input] [offramp_row w input 18.344%float]
             [offramp_fee w input 18.344%float; minting_fee w input;
              funding_fee w input])).
  snapshot Hs.
Qed.

Lemma happy_path_100_at_18_344_witness :
  exists r',
    PaymentWorkflow (PaymentInput.mk "payment-1" 100%float "MXN")
      (start demo_world [])
    = (Ok [Text "Payment payment-1 COMPLETED: "; Num 100%float;
           Text " USD -> "; Num 100%float; Text " USDC @ "; Num 1%float;
           Text ", then "; Num 1834.4%float; Text " MXN @ ";
           Num 18.344%float],
       r')
    /\ Server.getPayment "payment-1" (store (world r'))
       = Some (Server.mk
                 (Payment.mk "payment-1" 100%float "MXN"
                             PaymentStatus.COMPLETED)
                 [Funding.mk "id-A" "payment-1" 100%float
                             FundingStatus.COMPLETED]
                 [Minting.mk "id-C" "payment-1" 100%float 100%float 1%float
                             LegStatus.COMPLETED]
                 [Offramp.mk "id-E" "payment-1" 100%float 1834.4%float
                             18.344%float "demo-recipient"
                             LegStatus.COMPLETED]
                 [Fee.mk "id-F" "payment-1" "OFFRAMP" 9.17%float "MXN";
                  Fee.mk "id-D" "payment-1" "MINTING" 0.05%float "USD";
                  Fee.mk "id-B" "payment-1" "FUNDING" 0.30%float "USD"]).
Proof.
  destruct (happy_path_100_at_18_344 demo_world "payment-1" "MXN" []
              eq_refl eq_refl eq_refl eq_refl)
    as (r' & Hrun & Hsnap & _).
  exists r'. split; [exact Hrun|exact Hsnap].
Defined.

(** ** The checkpoint *)

Lemma same_timing_flag s1 s2 :
  same_timing s1 s2 ->
  cancelled_at_checkpoint s1 = cancelled_at_checkpoint s2.
Proof.
  unfold same_timing, cancelled_at_checkpoint, before_checkpoint. intros H.
  assert (Hshape : forall s : list (list (option string)),
             nonempty (concat (firstn 4 s))
             = nonempty (concat (firstn 4
                 (map (map (fun _ : option string => tt)) s)))).
  { intros s. rewrite firstn_map, <- concat_map.
    destruct (concat (firstn 4 s)); reflexivity. }
  rewrite (Hshape s1), (Hshape s2), H. reflexivity.
Qed.

Lemma flag4_start signals :
  flag4 false signals = cancelled_at_checkpoint signals.
Proof. apply flag_at_checkpoint. Qed.

(** C3.  If a cancellation signal was handled before the checkpoint, a run
    on a startable world marks the payment FAILED and answers "CANCELLED
    after funding", followed by the reason of the last signal handled
    before the answer is built when that reason is a non-empty string.  On
    any world, two runs that agree on whether a signal was handled before
    the checkpoint end in the same world (same rows, same journal of
    writes) and the same stage, whatever was signalled later; when no
    signal came before the checkpoint they also return the same answer. *)
Theorem cancellation_only_at_checkpoint :
  forall (w : World) (input : PaymentInput.t)
         (signals : list (list (option string))),
    startable w input = true ->
    cancelled_at_checkpoint signals = true ->
    (exists r',
        PaymentWorkflow input (start w signals)
        = (Ok (cancelled_text (PaymentInput.paymentId input)
                              (reason_at_answer signals)), r')
        /\ stage r' = "CANCELLED_AFTER_FUNDING"
        /\ journal (world r')
           = journal w
             ++ [InsertPayment (payment_row input PaymentStatus.CREATED);
                 UpdatePaymentStatus (PaymentInput.paymentId input)
                   PaymentStatus.IN_PROGRESS;
                 InsertFunding (funding_row w input FundingStatus.COMPLETED);
                 InsertFee (funding_fee w input);
                 UpdatePaymentStatus (PaymentInput.paymentId input)
                   PaymentStatus.FAILED]
        /\ find (fun r => String.eqb (Payment.id r)
                            (PaymentInput.paymentId input))
                (payments (store (world r')))
           = Some (payment_row input PaymentStatus.FAILED))
    /\ (forall w0 input0 s1 s2,
           cancelled_at_checkpoint s1 = cancelled_at_checkpoint s2 ->
           world (snd (PaymentWorkflow input0 (start w0 s1)))
           = world (snd (PaymentWorkflow input0 (start w0 s2)))
           /\ stage (snd (PaymentWorkflow input0 (start w0 s1)))
              = stage (snd (PaymentWorkflow input0 (start w0 s2)))
           /\ (cancelled_at_checkpoint s1 = false ->
               fst (PaymentWorkflow input0 (start w0 s1))
               = fst (PaymentWorkflow input0 (start w0 s2)))).
Proof.
  intros w input signals Hs Hc. split.
  - destruct (run_cancelled w input signals Hs Hc) as (r' & Hrun & Hst & Hw).
    exists r'. rewrite Hw. repeat split; try assumption; try reflexivity.
    unfold ended. cbn [store payments find payment_row Payment.id].
    rewrite String.eqb_refl. reflexivity.
  - intros w0 input0 s1 s2 Hflag. unfold start.
    rewrite <- !flag4_start in Hflag.
    destruct (run_by_flag input0 w0 "STARTING" false None s1 false None s2
                Hflag) as (Hw & Hst & Hout).
    split; [exact Hw|]. split; [exact Hst|].
    intros Hno. destruct Hout as [Hout|(Hyes & _)]; [exact Hout|].
    rewrite flag4_start in Hyes. rewrite Hyes in Hno. discriminate.
Qed.

Lemma cancellation_only_at_checkpoint_witness :
  (exists r',
      PaymentWorkflow demo_input
        (start demo_world [[]; []; [Some "changed my mind"]])
      = (Ok [Text "Payment payment-1 CANCELLED after funding (reason: changed my mind)"],
         r')
      /\ stage r' = "CANCELLED_AFTER_FUNDING")
  /\ world (snd (PaymentWorkflow demo_input
                   (start demo_world [[]; []; []; []; [Some "late"]])))
     = world (snd (PaymentWorkflow demo_input (start demo_world []))).
Proof.
  destruct (cancellation_only_at_checkpoint demo_world demo_input
              [[]; []; [Some "changed my mind"]] eq_refl eq_refl)
    as ((r' & Hrun & Hst & _) & Hlater).
  split.
  - exists r'. split; [exact Hrun|exact Hst].
  - exact (proj1 (Hlater demo_world demo_input
                    [[]; []; []; []; [Some "late"]] [] eq_refl)).
Defined.

(** C7.  On every world and under every delivery of signals, the values a
    run writes to [payments.status] are all written to the row of its own
    payment and form a forward chain from CREATED: nothing is written after
    COMPLETED or FAILED.  When the run writes at all, the row did not exist
    before, so the chain is the whole history of the row. *)
Theorem payment_status_only_moves_forward :
  forall (input : PaymentInput.t) (w : World)
         (signals : list (list (option string))),
    exists writes,
      status_writes
        (journal (world (snd (PaymentWorkflow input (start w signals)))))
      = status_writes (journal w) ++ writes
      /\ forallb (fun x => String.eqb (fst x) (PaymentInput.paymentId input))
                 writes = true
      /\ forward_only (map snd writes) = true
      /\ (forall pre s rest,
             map snd writes = pre ++ s :: rest ->
             PaymentStatus.terminal s = true -> rest = [])
      /\ (writes <> [] ->
          has_id (payment_ids (store w)) (PaymentInput.paymentId input)
          = false).
Proof.
  intros input w signals.
  destruct (status_trace input w false None "STARTING" signals)
    as (writes & Hj & Hid & Hfw & Hnew).
  exists writes. repeat split; try assumption.
  intros pre s rest Heq Hs. exact (forward_only_stops _ pre s rest Hfw Heq Hs).
Qed.

(** C10.  Two runs of the workflow on the same world and input, under
    deliveries of signals that differ in the reasons only, end in the same
    world (store and journal of writes) and stage.  Their answers are equal,
    or both are the "CANCELLED after funding" text of the payment. *)
Theorem cancel_reason_only_in_outcome_text :
  forall (input : PaymentInput.t) (w : World)
         (s1 s2 : list (list (option string))),
    same_timing s1 s2 ->
    let x1 := PaymentWorkflow input (start w s1) in
    let x2 := PaymentWorkflow input (start w s2) in
    world (snd x1) = world (snd x2)
    /\ stage (snd x1) = stage (snd x2)
    /\ (fst x1 = fst x2
        \/ (cancelled_at_checkpoint s1 = true
            /\ exists y1 y2,
                 fst x1
                 = Ok (cancelled_text (PaymentInput.paymentId input) y1)
                 /\ fst x2
                    = Ok (cancelled_text (PaymentInput.paymentId input) y2))).
Proof.
  intros input w s1 s2 Hsame. cbv zeta. unfold start.
  pose proof (same_timing_flag s1 s2 Hsame) as Hflag.
  rewrite <- !flag4_start in Hflag.
  destruct (run_by_flag input w "STARTING" false None s1 false None s2 Hflag)
    as (Hw & Hst & Hout).
  split; [exact Hw|]. split; [exact Hst|].
  destruct Hout as [Hout|(Hyes & Hy)]; [left; exact Hout|right].
  rewrite flag4_start in Hyes. split; assumption.
Qed.

Lemma cancel_reason_only_in_outcome_text_witness :
  world (snd (PaymentWorkflow demo_input
                (start demo_world [[]; [Some "fraud"]])))
  = world (snd (PaymentWorkflow demo_input
                  (start demo_world [[]; [None]]))).
Proof.
  exact (proj1 (cancel_reason_only_in_outcome_text demo_input demo_world
                  [[]; [Some "fraud"]] [[]; [None]] eq_refl)).
Defined.

(** ** Compensation and status updates *)

Lemma find_funding_set_status fid st (l : list Funding.t) row :
  find (fun r => String.eqb (Funding.id r) fid) l = Some row ->
  find (fun r => String.eqb (Funding.id r) fid)
       (map (FundingRepo.set_status fid st) l)
  = Some (Funding.with_status st row).
Proof.
  induction l as [|x l IH]; [discriminate|].
  cbn [find map].
  change (FundingRepo.set_status fid st x)
    with (if String.eqb (Funding.id x) fid
          then Funding.with_status st x else x).
  destruct (String.eqb (Funding.id x) fid) eqn:E.
  - intros H. injection H as <-. cbn [Funding.with_status Funding.id].
    rewrite E. reflexivity.
  - rewrite E. exact IH.
Qed.

Lemma compensateFundingActivity_missing fid w :
  find (fun r => String.eqb (Funding.id r) fid) (funding (store w)) = None ->
  Activities.compensateFundingActivity fid w
  = (Thrown (Error ("Funding record " ++ fid ++ " not found")%string), w).
Proof.
  intros H.
  unfold Activities.compensateFundingActivity,
    FundingRepo.updateFundingStatus, bind, select.
  rewrite H. reflexivity.
Qed.

Lemma updatePaymentStatus_missing id st w :
  find (fun r => String.eqb (Payment.id r) id) (payments (store w)) = None ->
  Activities.updatePaymentStatusActivity id st w
  = (Thrown (Error ("Payment " ++ id ++ " not found")%string), w).
Proof.
  intros H.
  unfold Activities.updatePaymentStatusActivity,
    PaymentsRepo.updatePaymentStatus, bind, select.
  rewrite H. reflexivity.
Qed.


(** C9, as amended.  Compensation of a funding identifier that has no row
    throws "Funding record ... not found", and a status update of a payment
    identifier that has no row throws "Payment ... not found"; both leave
    the world as it was.  When the funding row exists, whatever its status,
    compensation returns, sets that row to COMPENSATED and touches no other
    table. *)
Theorem missing_rows_are_reported :
  forall (w : World) (fundingId paymentId : string)
         (status : PaymentStatus.t),
    (find (fun r => String.eqb (Funding.id r) fundingId)
          (funding (store w)) = None ->
     Activities.compensateFundingActivity fundingId w
     = (Thrown (Error ("Funding record " ++ fundingId
                       ++ " not found")%string), w))
    /\ (find (fun r => String.eqb (Payment.id r) paymentId)
             (payments (store w)) = None ->
        Activities.updatePaymentStatusActivity paymentId status w
        = (Thrown (Error ("Payment " ++ paymentId ++ " not found")%string),
           w))
    /\ (forall row,
           find (fun r => String.eqb (Funding.id r) fundingId)
                (funding (store w)) = Some row ->
           exists w',
             Activities.compensateFundingActivity fundingId w = (Ok tt, w')
             /\ find (fun r => String.eqb (Funding.id r) fundingId)
                     (funding (store w'))
                = Some (Funding.with_status FundingStatus.COMPENSATED row)
             /\ journal w'
                = journal w
                  ++ [UpdateFundingStatus fundingId
                        FundingStatus.COMPENSATED]
             /\ payments (store w') = payments (store w)
             /\ minting (store w') = minting (store w)
             /\ offramp (store w') = offramp (store w)
             /\ fees (store w') = fees (store w)).
Proof.
  intros w fid pid st. split; [|split].
  - apply compensateFundingActivity_missing.
  - apply updatePaymentStatus_missing.
  - intros row Hrow. eexists. split.
    + exact (compensateFundingActivity_ok fid w row Hrow).
    + cbn [store written with_funding funding journal payments minting
           offramp fees].
      split; [|repeat split].
      exact (find_funding_set_status fid _ _ row Hrow).
Qed.

Lemma missing_rows_are_reported_witness :
  Activities.compensateFundingActivity "no-such-leg" demo_world
  = (Thrown (Error "Funding record no-such-leg not found"), demo_world)
  /\ Activities.updatePaymentStatusActivity "no-such-payment"
       PaymentStatus.FAILED demo_world
     = (Thrown (Error "Payment no-such-payment not found"), demo_world).
Proof.
  destruct (missing_rows_are_reported demo_world "no-such-leg"
              "no-such-payment" PaymentStatus.FAILED) as (H1 & H2 & _).
  split; [exact (H1 eq_refl)|exact (H2 eq_refl)].
Defined.

(** C9 as stated fails: compensation of a funding row that is not COMPLETED
    (here FAILED) does not throw; it sets the row to COMPENSATED. *)
Lemma compensating_a_failed_leg_succeeds :
  let w :=
    mkWorld
      (mkStore [Payment.mk "payment-1" 100%float "MXN" PaymentStatus.FAILED]
               [Funding.mk "leg-1" "payment-1" 100%float
                           FundingStatus.FAILED]
               [] [] [] [])
      [] demo_ids 0 in
  find (fun r => String.eqb (Funding.id r) "leg-1") (funding (store w))
  = Some (Funding.mk "leg-1" "payment-1" 100%float FundingStatus.FAILED)
  /\ ~ (exists e,
           fst (Activities.compensateFundingActivity "leg-1" w) = Thrown e)
  /\ funding (store (snd (Activities.compensateFundingActivity "leg-1" w)))
     = [Funding.mk "leg-1" "payment-1" 100%float FundingStatus.COMPENSATED].
Proof.
  cbv zeta. split; [reflexivity|]. split; [|reflexivity].
  intros (e & H). vm_compute in H. discriminate H.
Qed.

(** ** Redelivery *)

(** C8, as amended.  Every invocation of a leg executor that returns adds
    one leg row for the payment, under the next fresh identifier, in front
    of the rows already there, and one fee row as well when the leg is
    COMPLETED; the rows of earlier invocations are kept as they are. *)
Theorem redelivery_adds_a_row :
  forall (w : World) (input : PaymentInput.t) (params : OfframpInput.t),
    (forall res w',
        Activities.createFundingActivity input w = (Ok res, w') ->
        exists row fee,
          Server.funding_of (PaymentInput.paymentId input) (store w')
          = row :: Server.funding_of (PaymentInput.paymentId input) (store w)
          /\ Server.fees_of (PaymentInput.paymentId input) (store w')
             = fee :: Server.fees_of (PaymentInput.paymentId input) (store w)
          /\ Funding.id row = FundingResult.fundingId res
          /\ Funding.id row = next_id w 0
          /\ Fee.leg fee = "FUNDING")
    /\ (forall res w',
           Activities.mintUsdcActivity input w = (Ok res, w') ->
           exists row,
             Server.minting_of (PaymentInput.paymentId input) (store w')
             = row :: Server.minting_of (PaymentInput.paymentId input)
                        (store w)
             /\ Minting.id row = next_id w 0
             /\ Minting.status row = MintingResult.status res
             /\ match MintingResult.status res with
                | LegStatus.COMPLETED =>
                    exists fee,
                      Server.fees_of (PaymentInput.paymentId input)
                        (store w')
                      = fee :: Server.fees_of (PaymentInput.paymentId input)
                                 (store w)
                      /\ Fee.leg fee = "MINTING"
                | LegStatus.FAILED =>
                    Server.fees_of (PaymentInput.paymentId input) (store w')
                    = Server.fees_of (PaymentInput.paymentId input) (store w)
                end)
    /\ (forall res w',
           Activities.offrampActivity params w = (Ok res, w') ->
           exists row,
             Server.offramp_of (OfframpInput.paymentId params) (store w')
             = row :: Server.offramp_of (OfframpInput.paymentId params)
                        (store w)
             /\ Offramp.id row = next_id w 0
             /\ Offramp.status row = OfframpResult.status res
             /\ match OfframpResult.status res with
                | LegStatus.COMPLETED =>
                    exists fee,
                      Server.fees_of (OfframpInput.paymentId params)
                        (store w')
                      = fee :: Server.fees_of (OfframpInput.paymentId params)
                                 (store w)
                      /\ Fee.leg fee = "OFFRAMP"
                | LegStatus.FAILED =>
                    Server.fees_of (OfframpInput.paymentId params) (store w')
                    = Server.fees_of (OfframpInput.paymentId params)
                        (store w)
                end).
Proof.
  intros w input params. split; [|split].
  - intros res w' H. apply createFundingActivity_inv in H.
    destruct H as [-> ->].
    exists (funding_row w input FundingStatus.COMPLETED), (funding_fee w input).
    unfold Server.funding_of, Server.fees_of.
    cbn [store written drawn with_funding with_fees funding fees filter
         funding_row funding_fee Funding.payment_id Fee.payment_id
         Funding.id Fee.leg FundingResult.fundingId].
    rewrite !String.eqb_refl. repeat split; reflexivity.
  - intros res w' H. apply mintUsdcActivity_inv in H.
    destruct (includes (PaymentInput.paymentId input) "fail-mint");
      destruct H as [-> ->]; eexists;
      unfold Server.minting_of, Server.fees_of;
      cbn [store written drawn with_minting with_fees minting fees filter
           Minting.payment_id Fee.payment_id Minting.id Minting.status
           Fee.leg MintingResult.status];
      rewrite !String.eqb_refl.
    + repeat split; reflexivity.
    + split; [reflexivity|]. split; [reflexivity|]. split; [reflexivity|].
      eexists. split; reflexivity.
  - intros res w' H. apply offrampActivity_inv in H.
    destruct (rate_of (store w) (OfframpInput.destinationCurrency params));
      destruct H as [-> ->]; eexists;
      unfold Server.offramp_of, Server.fees_of;
      cbn [store written drawn with_offramp with_fees offramp fees filter
           Offramp.payment_id Fee.payment_id Offramp.id Offramp.status
           Fee.leg OfframpResult.status];
      rewrite !String.eqb_refl.
    + split; [reflexivity|]. split; [reflexivity|]. split; [reflexivity|].
      eexists. split; reflexivity.
    + repeat split; reflexivity.
Qed.

Lemma redelivery_adds_a_row_witness :
  let w0 :=
    snd (Activities.createPaymentActivity "payment-1" 100%float "MXN"
           PaymentStatus.CREATED demo_world) in
  let w1 := snd (Activities.createFundingActivity demo_input w0) in
  exists row fee,
    Server.funding_of "payment-1"
      (store (snd (Activities.createFundingActivity demo_input w1)))
    = row :: Server.funding_of "payment-1" (store w1)
    /\ Server.fees_of "payment-1"
         (store (snd (Activities.createFundingActivity demo_input w1)))
       = fee :: Server.fees_of "payment-1" (store w1).
Proof.
  cbv zeta.
  destruct (redelivery_adds_a_row
              (snd (Activities.createFundingActivity demo_input
                      (snd (Activities.createPaymentActivity "payment-1"
                              100%float "MXN" PaymentStatus.CREATED
                              demo_world))))
              demo_input (OfframpInput.mk "payment-1" 100%float "MXN"))
    as (Hfunding & _).
  destruct (Hfunding _ _ eq_refl) as (row & fee & Hrows & Hfees & _).
  exists row, fee. split; [exact Hrows|exact Hfees].
Defined.

(** C8 as stated fails: the Funding executor invoked a second time for the
    same payment leaves two funding rows and two FUNDING fee rows. *)
Lemma redelivered_funding_duplicates_rows :
  let w0 :=
    snd (Activities.createPaymentActivity "payment-1" 100%float "MXN"
           PaymentStatus.CREATED demo_world) in
  let w1 := snd (Activities.createFundingActivity demo_input w0) in
  let w2 := snd (Activities.createFundingActivity demo_input w1) in
  length (Server.funding_of "payment-1" (store w1)) = 1
  /\ length (filter (fun f => String.eqb (Fee.leg f) "FUNDING")
               (Server.fees_of "payment-1" (store w1))) = 1
  /\ length (Server.funding_of "payment-1" (store w2)) = 2
  /\ length (filter (fun f => String.eqb (Fee.leg f) "FUNDING")
               (Server.fees_of "payment-1" (store w2))) = 2
  /\ Server.funding_of "payment-1" (store w2)
     <> Server.funding_of "payment-1" (store w1)
  /\ Server.fees_of "payment-1" (store w2)
     <> Server.fees_of "payment-1" (store w1).
Proof.
  cbv zeta. repeat split; try reflexivity.
  - intros H. apply (f_equal (@length _)) in H. vm_compute in H.
    discriminate H.
  - intros H. apply (f_equal (@length _)) in H. vm_compute in H.
    discriminate H.
Qed.

(** ** Fees *)





(* ===================================================================== *)
(** * Further properties *)

(** ** A payment that cannot be inserted *)

(** A run for a payment identifier that is already in [payments], or for an
    amount that does not fit [usd_amount], stops at its first statement:
    the server's refusal is thrown and the world is left as it was. *)
Theorem run_rejected_before_any_write :
  forall (input : PaymentInput.t) (w : World)
         (signals : list (list (option string))),
    has_id (payment_ids (store w)) (PaymentInput.paymentId input) = true
    \/ numeric_18_2 (PaymentInput.amountUsd input) = false ->
    exists violated,
      fst (PaymentWorkflow input (start w signals))
      = Thrown (DatabaseError violated)
      /\ (violated = "payments_pkey" \/ violated = "payments.usd_amount")
      /\ world (snd (PaymentWorkflow input (start w signals))) = w
      /\ stage (snd (PaymentWorkflow input (start w signals)))
         = "CREATING_PAYMENT".
Proof.
  intros input w signals H.
  assert (Hcreate :
    exists violated,
      Activities.createPaymentActivity (PaymentInput.paymentId input)
        (PaymentInput.amountUsd input)
        (PaymentInput.destinationCurrency input) PaymentStatus.CREATED w
      = (Thrown (DatabaseError violated), w)
      /\ (violated = "payments_pkey" \/ violated = "payments.usd_amount")).
  { unfold Activities.createPaymentActivity, PaymentsRepo.createPayment,
      bind, query.
    cbn [first_violation].
    destruct (has_id (payment_ids (store w)) (PaymentInput.paymentId input));
      cbn [negb].
    - eexists. split; [reflexivity|]. left; reflexivity.
    - destruct H as [H|H]; [discriminate|]. rewrite H.
      eexists. split; [reflexivity|]. right; reflexivity. }
  destruct Hcreate as (violated & Hcreate & Hv).
  exists violated.
  unfold PaymentWorkflow, start. pure_step. rewrite bind_await_eq, Hcreate.
  cbn [fst snd world stage]. repeat split; auto.
Qed.

Lemma run_rejected_before_any_write_witness :
  exists violated,
    fst (PaymentWorkflow (PaymentInput.mk "payment-1" 1e16%float "MXN")
           (start demo_world []))
    = Thrown (DatabaseError violated).
Proof.
  destruct (run_rejected_before_any_write
              (PaymentInput.mk "payment-1" 1e16%float "MXN") demo_world []
              (or_intror eq_refl)) as (violated & H & _).
  exists violated. exact H.
Defined.

(** ** The outcome of a run *)

(** On a world where the payment can start and the amounts fit their
    columns, a run never throws, and its outcome is decided by three tests
    in this order: a cancellation handled before the checkpoint ends it
    CANCELLED_AFTER_FUNDING, whatever the identifier and the currency;
    otherwise the failure marker ends it FAILED_MINTING; otherwise a
    currency without a rate ends it FAILED_OFFRAMP; otherwise it ends
    COMPLETED.  The payment row read back is COMPLETED in the last case
    and FAILED in the others, and the run has drawn two, three, five or
    six identifiers. *)
Theorem run_outcome_is_decided :
  forall (w : World) (input : PaymentInput.t)
         (signals : list (list (option string))),
    startable w input = true ->
    amounts_fit w input = true ->
    let final := outcome_stage w input signals in
    exists out r',
      PaymentWorkflow input (start w signals) = (Ok out, r')
      /\ stage r' = final
      /\ fst (PaymentsRepo.getPaymentById (PaymentInput.paymentId input)
                (world r'))
         = Ok (Some (payment_row input
                       (if String.eqb final "COMPLETED"
                        then PaymentStatus.COMPLETED
                        else PaymentStatus.FAILED)))
      /\ nanoid_calls (world r') = outcome_draws final + nanoid_calls w.
Proof.
  intros w input signals Hs Hfit. cbv zeta. unfold outcome_stage.
  assert (Hread : forall p f m o e j k,
    fst (PaymentsRepo.getPaymentById (Payment.id p) (ended w p f m o e j k))
    = Ok (Some p)).
  { intros. unfold PaymentsRepo.getPaymentById, select, ended.
    cbn [fst store payments find]. rewrite String.eqb_refl. reflexivity. }
  destruct (cancelled_at_checkpoint signals) eqn:Hc.
  { destruct (run_cancelled w input signals Hs Hc) as (r' & Hrun & Hst & Hw).
    eexists. exists r'. split; [exact Hrun|]. split; [exact Hst|].
    rewrite Hw. split; [|reflexivity].
    exact (Hread (payment_row input PaymentStatus.FAILED) _ _ _ _ _ _). }
  destruct (includes (PaymentInput.paymentId input) "fail-mint") eqn:Hm.
  { destruct (run_failed_minting w input signals Hs Hc Hm)
      as (r' & Hrun & Hst & Hw).
    eexists. exists r'. split; [exact Hrun|]. split; [exact Hst|].
    rewrite Hw. split; [|reflexivity].
    exact (Hread (payment_row input PaymentStatus.FAILED) _ _ _ _ _ _). }
  destruct (rate_of (store w) (PaymentInput.destinationCurrency input))
    as [rate|] eqn:Hr.
  - destruct (run_completed w input signals rate Hs Hfit Hc Hm Hr)
      as (r' & Hrun & Hst & Hw).
    eexists. exists r'. split; [exact Hrun|]. split; [exact Hst|].
    rewrite Hw. split; [|reflexivity].
    exact (Hread (payment_row input PaymentStatus.COMPLETED) _ _ _ _ _ _).
  - destruct (run_missing_rate w input signals Hs Hfit Hc Hm Hr)
      as (r' & Hrun & Hst & Hw).
    eexists. exists r'. split; [exact Hrun|]. split; [exact Hst|].
    rewrite Hw. split; [|reflexivity].
    exact (Hread (payment_row input PaymentStatus.FAILED) _ _ _ _ _ _).
Qed.

Lemma run_outcome_is_decided_witness :
  exists out r',
    PaymentWorkflow demo_input_failing
      (start settled_world [[]; [Some "changed my mind"]])
    = (Ok out, r')
    /\ stage r' = "CANCELLED_AFTER_FUNDING"
    /\ nanoid_calls (world r') = 2.
Proof.
  destruct (run_outcome_is_decided settled_world demo_input_failing
              [[]; [Some "changed my mind"]] eq_refl eq_refl)
    as (out & r' & Hrun & Hst & _ & Hn).
  exists out, r'. split; [exact Hrun|]. split; [exact Hst|exact Hn].
Defined.

(** ** How a run ends *)

Lemma FundingWorkflow_reports_completed input w :
  match fst (FundingWorkflow input w) with
  | Ok res => FundingResult.status res = LegStatus.COMPLETED
  | Thrown _ => True
  end.
Proof.
  destruct (FundingWorkflow input w) as [[res|e] w'] eqn:E; [|exact I].
  unfold FundingWorkflow in E. apply bind_inv in E.
  destruct E as (res0 & w0 & E & Hret).
  unfold ret in Hret. injection Hret as <- _.
  apply createFundingActivity_inv in E. destruct E as [-> _]. reflexivity.
Qed.

Ltac effect_funding a w :=
  lazymatch a with
  | FundingWorkflow ?i => pose proof (FundingWorkflow_reports_completed i w)
  | _ => idtac
  end.

Ltac end_step tac :=
  first
  [ match goal with
    | |- context [match fst (?a ?w) with _ => _ end] =>
        effect_of a w; effect_funding a w;
        destruct (a w) as [[?|?] ?]; cbn [fst snd] in *;
        [ | solve [tac] ]
    end
  | progress (pure_step; rewrite ?bind_await_eq; pure_step) ].

Ltac end_fin :=
  chain_writes;
  first [ exists []; rewrite app_nil_r; split; [reflexivity|];
          cbn [map snd In]; auto 10
        | eexists; split; [reflexivity|]; cbn [map snd In]; auto 10 ].

(** Whatever the world and the signals, a run that returns has written
    CREATED, IN_PROGRESS and one terminal status, and its last stage agrees
    with that status: COMPLETED for stage COMPLETED, FAILED for the stages
    CANCELLED_AFTER_FUNDING, FAILED_MINTING and FAILED_OFFRAMP.  The stage
    FAILED_FUNDING is never the last one, the funding leg having no failing
    outcome.  A run that throws has written no terminal status: the
    payment is absent, CREATED or IN_PROGRESS. *)
Theorem run_end_agrees_with_status :
  forall (input : PaymentInput.t) (w : World)
         (signals : list (list (option string))),
    exists writes,
      status_writes
        (journal (world (snd (PaymentWorkflow input (start w signals)))))
      = status_writes (journal w) ++ writes
      /\ match fst (PaymentWorkflow input (start w signals)) with
         | Ok _ =>
             (map snd writes
              = [PaymentStatus.CREATED; PaymentStatus.IN_PROGRESS;
                 PaymentStatus.COMPLETED]
              /\ stage (snd (PaymentWorkflow input (start w signals)))
                 = "COMPLETED")
             \/ (map snd writes
                 = [PaymentStatus.CREATED; PaymentStatus.IN_PROGRESS;
                    PaymentStatus.FAILED]
                 /\ In (stage (snd (PaymentWorkflow input (start w signals))))
                       ["CANCELLED_AFTER_FUNDING"; "FAILED_MINTING";
                        "FAILED_OFFRAMP"])
         | Thrown _ =>
             In (map snd writes)
                [[]; [PaymentStatus.CREATED];
                 [PaymentStatus.CREATED; PaymentStatus.IN_PROGRESS]]
         end.
Proof.
  intros input w signals.
  unfold PaymentWorkflow, start, startChild, child_result.
  repeat end_step end_fin. pure_step.
  match goal with
  | |- context [match FundingResult.status ?x with _ => _ end] =>
      destruct x as [[|] ?]
  end; cbn [FundingResult.status FundingResult.fundingId] in *.
  2: { exfalso. repeat match goal with
                       | H : _ /\ _ |- _ => destruct H
                       end; discriminate. }
  pure_step.
  match goal with
  | |- context [if ?b then _ else _] => destruct b
  end.
  { repeat end_step end_fin. pure_step. end_fin. }
  repeat end_step end_fin. pure_step.
  match goal with
  | |- context [match MintingResult.status ?x with _ => _ end] =>
      destruct x as [[|] ? ?]
  end; cbn [MintingResult.status MintingResult.usdcAmount
            MintingResult.usdcRate].
  2: { repeat end_step end_fin. pure_step. end_fin. }
  repeat end_step end_fin. pure_step.
  match goal with
  | |- context [match OfframpResult.status ?x with _ => _ end] =>
      destruct x as [[|] ? ?]
  end; cbn [OfframpResult.status OfframpResult.localAmount
            OfframpResult.fxRate].
  2: { repeat end_step end_fin. pure_step. end_fin. }
  repeat end_step end_fin. pure_step. end_fin.
Qed.

(** ** The funding row of a run *)

Lemma silent_ret p A (x : A) : silent p (ret x).
Proof. intros w. reflexivity. Qed.

Lemma silent_throw p A e : silent p (@throw World A e).
Proof. intros w. reflexivity. Qed.

Lemma silent_nanoid p : silent p nanoid.
Proof. intros w. reflexivity. Qed.

Lemma silent_select p A (f : Store -> A) : silent p (select f).
Proof. intros w. reflexivity. Qed.

Lemma silent_bind p A B (m : Async A) (k : A -> Async B) :
  silent p m -> (forall a, silent p (k a)) -> silent p (bind m k).
Proof.
  intros Hm Hk w. unfold bind. specialize (Hm w).
  destruct (m w) as [[a|e] w']; cbn [snd] in *; [|exact Hm].
  rewrite Hk. exact Hm.
Qed.

Lemma silent_query p ok f e : p e = false -> silent p (query ok f e).
Proof.
  intros He w. unfold query. destruct (ok (store w)); [reflexivity|].
  cbn [snd written journal]. rewrite filter_app. cbn [filter].
  rewrite He. apply app_nil_r.
Qed.

Ltac silent_steps :=
  repeat first
    [ apply silent_ret | apply silent_throw | apply silent_nanoid
    | apply silent_select | apply silent_query; reflexivity
    | apply silent_bind; [|intros ?] ].

Lemma createPayment_leaves_funding id amt cur st :
  silent touches_funding (Activities.createPaymentActivity id amt cur st).
Proof.
  unfold Activities.createPaymentActivity, PaymentsRepo.createPayment.
  silent_steps.
Qed.

Lemma updatePaymentStatus_leaves_funding id st :
  silent touches_funding (Activities.updatePaymentStatusActivity id st).
Proof.
  unfold Activities.updatePaymentStatusActivity,
    PaymentsRepo.updatePaymentStatus.
  apply silent_bind; [apply silent_select|]. intros [r|]; silent_steps.
Qed.

Lemma MintingWorkflow_leaves_funding input :
  silent touches_funding (MintingWorkflow input).
Proof.
  unfold MintingWorkflow, Activities.mintUsdcActivity,
    MintingRepo.createMintingRecord, FeesRepo.createFeeRecord.
  destruct (includes _ _); cbn [LegStatus.is_completed]; silent_steps.
Qed.

Lemma OfframpWorkflow_leaves_funding params :
  silent touches_funding (OfframpWorkflow params).
Proof.
  unfold OfframpWorkflow, Activities.offrampActivity,
    OfframpRepo.createOfframpRecord, FeesRepo.createFeeRecord,
    FxRepo.getFxRate.
  apply silent_bind; [|intros; apply silent_ret].
  apply silent_bind; [apply silent_select|]. intros [fx|]; silent_steps.
Qed.

Lemma FundingWorkflow_funding_entries input w :
  let row := funding_row w input FundingStatus.COMPLETED in
  match fst (FundingWorkflow input w) with
  | Ok res =>
      FundingResult.fundingId res = Funding.id row
      /\ filter touches_funding (journal (snd (FundingWorkflow input w)))
         = filter touches_funding (journal w) ++ [InsertFunding row]
  | Thrown _ =>
      filter touches_funding (journal (snd (FundingWorkflow input w)))
      = filter touches_funding (journal w)
      \/ filter touches_funding (journal (snd (FundingWorkflow input w)))
         = filter touches_funding (journal w) ++ [InsertFunding row]
  end.
Proof.
  cbv zeta.
  unfold FundingWorkflow, Activities.createFundingActivity,
    FundingRepo.createFundingRecord, FeesRepo.createFeeRecord, bind, nanoid,
    query, ret.
  cbn [fst snd store drawn].
  destruct (first_violation _); cbn [fst snd]; [left; reflexivity|].
  cbn [store drawn written].
  destruct (first_violation _); cbn [fst snd journal drawn written].
  - right. rewrite filter_app. reflexivity.
  - split; [reflexivity|].
    rewrite !filter_app. cbn [filter touches_funding].
    rewrite app_nil_r. reflexivity.
Qed.

Lemma compensate_funding_entries fid w :
  match fst (Activities.compensateFundingActivity fid w) with
  | Ok _ =>
      filter touches_funding
        (journal (snd (Activities.compensateFundingActivity fid w)))
      = filter touches_funding (journal w)
        ++ [UpdateFundingStatus fid FundingStatus.COMPENSATED]
  | Thrown _ => snd (Activities.compensateFundingActivity fid w) = w
  end.
Proof.
  unfold Activities.compensateFundingActivity,
    FundingRepo.updateFundingStatus, bind, select, query, throw, ret.
  destruct (find _ (funding (store w))); cbn [fst snd]; [|reflexivity].
  cbn [written journal]. rewrite filter_app. reflexivity.
Qed.

Ltac funding_effect a w :=
  lazymatch a with
  | Activities.createPaymentActivity ?i ?x ?c ?s =>
      pose proof (createPayment_leaves_funding i x c s w)
  | Activities.updatePaymentStatusActivity ?i ?s =>
      pose proof (updatePaymentStatus_leaves_funding i s w)
  | Activities.compensateFundingActivity ?f =>
      pose proof (compensate_funding_entries f w)
  | FundingWorkflow ?i => pose proof (FundingWorkflow_funding_entries i w)
  | MintingWorkflow ?i => pose proof (MintingWorkflow_leaves_funding i w)
  | OfframpWorkflow ?i => pose proof (OfframpWorkflow_leaves_funding i w)
  end.

Ltac funding_step tac :=
  first
  [ match goal with
    | |- context [match fst (?a ?w) with _ => _ end] =>
        funding_effect a w;
        destruct (a w) as [[?|?] ?]; cbn [fst snd] in *;
        [ | solve [tac] ]
    end
  | progress (pure_step; rewrite ?bind_await_eq; pure_step) ].

Ltac chain_funding :=
  cbv zeta in *; cbn [fst snd world stage] in *;
  repeat match goal with
         | H : _ /\ _ |- _ => destruct H
         | H : _ \/ _ |- _ => destruct H
         end;
  subst;
  repeat match goal with
         | H : filter touches_funding (journal ?x) = _
           |- context [filter touches_funding (journal ?x)] =>
             rewrite H; clear H
         end;
  rewrite <- ?app_assoc; cbn [app].

Ltac funding_fin :=
  chain_funding;
  first [ exists []; rewrite app_nil_r; split; [reflexivity|];
          left; reflexivity
        | eexists; split; [reflexivity|]; right; eexists;
          (split; [|split]); cycle 2;
          [ first [ left; reflexivity
                  | right; split; [reflexivity|]; cbn [In]; auto 10 ]
          | reflexivity | reflexivity ] ].

(** Whatever the world and the signals, a run writes to the funding table
    nothing, or the funding row of its payment with status COMPLETED, or
    that row followed by one update of it to COMPENSATED.  The update is
    written only by a run that ends in stage FAILED_MINTING or
    FAILED_OFFRAMP; a cancelled run never compensates. *)
Theorem run_compensates_its_own_funding_once :
  forall (input : PaymentInput.t) (w : World)
         (signals : list (list (option string))),
    exists entries,
      filter touches_funding
        (journal (world (snd (PaymentWorkflow input (start w signals)))))
      = filter touches_funding (journal w) ++ entries
      /\ (entries = []
          \/ exists row,
               Funding.status row = FundingStatus.COMPLETED
               /\ Funding.payment_id row = PaymentInput.paymentId input
               /\ (entries = [InsertFunding row]
                   \/ (entries
                       = [InsertFunding row;
                          UpdateFundingStatus (Funding.id row)
                            FundingStatus.COMPENSATED]
                       /\ In (stage (snd (PaymentWorkflow input
                                            (start w signals))))
                             ["FAILED_MINTING"; "FAILED_OFFRAMP"]))).
Proof.
  intros input w signals.
  unfold PaymentWorkflow, start, startChild, child_result.
  repeat funding_step funding_fin. pure_step.
  match goal with
  | |- context [match FundingResult.status ?x with _ => _ end] =>
      destruct x as [[|] ?]
  end; cbn [FundingResult.status FundingResult.fundingId] in *.
  2: { repeat funding_step funding_fin. pure_step. funding_fin. }
  pure_step.
  match goal with
  | |- context [if ?b then _ else _] => destruct b
  end.
  { repeat funding_step funding_fin. pure_step. funding_fin. }
  repeat funding_step funding_fin. pure_step.
  match goal with
  | |- context [match MintingResult.status ?x with _ => _ end] =>
      destruct x as [[|] ? ?]
  end; cbn [MintingResult.status MintingResult.usdcAmount
            MintingResult.usdcRate].
  2: { repeat funding_step funding_fin. pure_step. funding_fin. }
  repeat funding_step funding_fin. pure_step.
  match goal with
  | |- context [match OfframpResult.status ?x with _ => _ end] =>
      destruct x as [[|] ? ?]
  end; cbn [OfframpResult.status OfframpResult.localAmount
            OfframpResult.fxRate].
  2: { repeat funding_step funding_fin. pure_step. funding_fin. }
  repeat funding_step funding_fin. pure_step. funding_fin.
Qed.

(** ** Leg rows and fee rows, when an executor throws *)

(** On every world, each executor journals nothing, or its leg row, or its
    leg row followed by the fee row of its tag: a fee row is never written
    without its leg row before it.  An executor that returns has written
    the fee exactly when the leg is COMPLETED; one that throws has written
    no fee, and may have left the leg row behind. *)
Theorem fee_never_without_leg :
  forall (w : World) (input : PaymentInput.t) (params : OfframpInput.t),
    (let x := Activities.createFundingActivity input w in
     let row := funding_row w input FundingStatus.COMPLETED in
     let fee := funding_fee w input in
     match fst x with
     | Ok _ => journal (snd x) = journal w ++ [InsertFunding row; InsertFee fee]
     | Thrown _ =>
         journal (snd x) = journal w
         \/ journal (snd x) = journal w ++ [InsertFunding row]
     end)
    /\ (let x := Activities.mintUsdcActivity input w in
        exists row fee,
          Minting.payment_id row = PaymentInput.paymentId input
          /\ Fee.payment_id fee = PaymentInput.paymentId input
          /\ Fee.leg fee = "MINTING"
          /\ match fst x with
             | Ok res =>
                 Minting.status row = MintingResult.status res
                 /\ journal (snd x)
                    = journal w
                      ++ InsertMinting row
                         :: (if LegStatus.is_completed (Minting.status row)
                             then [InsertFee fee] else [])
             | Thrown _ =>
                 journal (snd x) = journal w
                 \/ (journal (snd x) = journal w ++ [InsertMinting row]
                     /\ Minting.status row = LegStatus.COMPLETED)
             end)
    /\ (let x := Activities.offrampActivity params w in
        exists row fee,
          Offramp.payment_id row = OfframpInput.paymentId params
          /\ Fee.payment_id fee = OfframpInput.paymentId params
          /\ Fee.leg fee = "OFFRAMP"
          /\ match fst x with
             | Ok res =>
                 Offramp.status row = OfframpResult.status res
                 /\ journal (snd x)
                    = journal w
                      ++ InsertOfframp row
                         :: (if LegStatus.is_completed (Offramp.status row)
                             then [InsertFee fee] else [])
             | Thrown _ =>
                 journal (snd x) = journal w
                 \/ (journal (snd x) = journal w ++ [InsertOfframp row]
                     /\ Offramp.status row = LegStatus.COMPLETED)
             end).
Proof.
  intros w input params. split; [|split]; cbv zeta.
  - unfold Activities.createFundingActivity,
      FundingRepo.createFundingRecord, FeesRepo.createFeeRecord, bind,
      nanoid, query, ret.
    cbn [fst snd store drawn].
    destruct (first_violation _); cbn [fst snd]; [left; reflexivity|].
    cbn [store drawn written].
    destruct (first_violation _); cbn [fst snd journal drawn written].
    + right. reflexivity.
    + rewrite <- app_assoc. reflexivity.
  - unfold Activities.mintUsdcActivity, MintingRepo.createMintingRecord,
      FeesRepo.createFeeRecord.
    destruct (includes (PaymentInput.paymentId input) "fail-mint");
      cbn [LegStatus.is_completed];
      unfold bind, nanoid, query, ret; cbn [fst snd store drawn].
    + exists (Minting.mk (next_id w 0) (PaymentInput.paymentId input)
                (PaymentInput.amountUsd input) 0%float 1%float
                LegStatus.FAILED),
        (Fee.mk "" (PaymentInput.paymentId input) "MINTING" 0%float "").
      split; [reflexivity|]. split; [reflexivity|]. split; [reflexivity|].
      destruct (first_violation _); cbn [fst snd]; [left; reflexivity|].
      split; reflexivity.
    + exists (Minting.mk (next_id w 0) (PaymentInput.paymentId input)
                (PaymentInput.amountUsd input)
                (PaymentInput.amountUsd input * 1)%float 1%float
                LegStatus.COMPLETED),
        (Fee.mk (next_id w 1) (PaymentInput.paymentId input) "MINTING"
                0.05%float "USD").
      split; [reflexivity|]. split; [reflexivity|]. split; [reflexivity|].
      destruct (first_violation _); cbn [fst snd]; [left; reflexivity|].
      cbn [store drawn written].
      destruct (first_violation _); cbn [fst snd journal drawn written].
      * right. split; reflexivity.
      * split; [reflexivity|]. rewrite <- app_assoc. reflexivity.
  - remember (Activities.offrampActivity params w) as x eqn:E.
    unfold Activities.offrampActivity in E. unfold bind at 1 in E.
    rewrite getFxRate_eq in E.
    unfold OfframpRepo.createOfframpRecord, FeesRepo.createFeeRecord in E.
    destruct (find _ (fx_rates (store w))) as [fx|];
      unfold bind, nanoid, query, ret in E;
      cbn [fst snd store drawn FxRepo.rate] in E.
    + exists (Offramp.mk (next_id w 0) (OfframpInput.paymentId params)
                (OfframpInput.usdcAmount params)
                (OfframpInput.usdcAmount params * FxRate.rate fx)%float
                (FxRate.rate fx) "demo-recipient" LegStatus.COMPLETED),
        (Fee.mk (next_id w 1) (OfframpInput.paymentId params) "OFFRAMP"
                (Number_toFixed2
                   (OfframpInput.usdcAmount params * FxRate.rate fx
                    * 0.005)%float)
                (OfframpInput.destinationCurrency params)).
      split; [reflexivity|]. split; [reflexivity|]. split; [reflexivity|].
      destruct (first_violation _); cbn [fst snd] in E;
        [subst x; left; reflexivity|].
      cbn [store drawn written] in E.
      destruct (first_violation _); subst x;
        cbn [fst snd journal drawn written].
      * right. split; reflexivity.
      * split; [reflexivity|]. rewrite <- app_assoc. reflexivity.
    + exists (Offramp.mk (next_id w 0) (OfframpInput.paymentId params)
                (OfframpInput.usdcAmount params) 0%float 0%float "unknown"
                LegStatus.FAILED),
        (Fee.mk "" (OfframpInput.paymentId params) "OFFRAMP" 0%float "").
      split; [reflexivity|]. split; [reflexivity|]. split; [reflexivity|].
      destruct (first_violation _); subst x; cbn [fst snd];
        [left; reflexivity|].
      split; reflexivity.
Qed.

(** A delivered amount below ten to the sixteenth whose fee of 0.5 per cent
    does not fit NUMERIC(18, 6): the offramp row is written, COMPLETED, the
    fee is refused, and the executor throws with the leg row left behind
    and no fee for it. *)
Theorem offramp_fee_overflow_leaves_leg_without_fee :
  forall (w : World) (params : OfframpInput.t) (rate : number),
    let pid := OfframpInput.paymentId params in
    let usdc := OfframpInput.usdcAmount params in
    let row := Offramp.mk (next_id w 0) pid usdc (usdc * rate)%float rate
                          "demo-recipient" LegStatus.COMPLETED in
    rate_of (store w) (OfframpInput.destinationCurrency params) = Some rate ->
    has_id (payment_ids (store w)) pid = true ->
    has_id (map Offramp.id (offramp (store w))) (next_id w 0) = false ->
    has_id (map Fee.id (fees (store w))) (next_id w 1) = false ->
    numeric_18_6 usdc = true ->
    numeric_18_2 (usdc * rate)%float = true ->
    numeric_18_6 rate = true ->
    numeric_18_6 (Number_toFixed2 (usdc * rate * 0.005)%float) = false ->
    exists w',
      Activities.offrampActivity params w
      = (Thrown (DatabaseError "fees.amount"), w')
      /\ offramp (store w') = row :: offramp (store w)
      /\ fees (store w') = fees (store w)
      /\ journal w' = journal w ++ [InsertOfframp row].
Proof.
  intros w params rate pid usdc row Hr Hp Ho Hf H1 H2 H3 H4.
  unfold next_id, rate_of in *. cbn [Nat.add] in *.
  unfold Activities.offrampActivity. unfold bind at 1.
  rewrite getFxRate_eq.
  destruct (find _ (fx_rates (store w))) as [fx|]; [|discriminate].
  injection Hr as Hr. cbn [FxRepo.rate]. rewrite Hr.
  unfold OfframpRepo.createOfframpRecord, FeesRepo.createFeeRecord, bind,
    nanoid, query, ret.
  cbn [fst snd store drawn first_violation]. fold pid usdc.
  rewrite Ho, Hp, H1, H2, H3. cbn [negb].
  cbn [store drawn written with_offramp fees payment_ids payments
       nanoid_source nanoid_calls first_violation].
  unfold payment_ids in *. cbn [with_offramp payments].
  rewrite Hf, Hp, H4. cbn [negb].
  eexists. split; [reflexivity|].
  cbn [store drawn written with_offramp offramp fees journal].
  repeat split; reflexivity.
Qed.

Lemma offramp_fee_overflow_leaves_leg_without_fee_witness :
  let w :=
    mkWorld
      (mkStore [Payment.mk "payment-9" 1e11%float "IDR"
                           PaymentStatus.IN_PROGRESS]
               [] [] [] []
               [FxRate.mk "USD" "IDR" 16000%float "2025-09-30"])
      [] demo_ids 0 in
  exists w',
    Activities.offrampActivity (OfframpInput.mk "payment-9" 1e11%float "IDR")
      w
    = (Thrown (DatabaseError "fees.amount"), w')
    /\ offramp (store w')
       = [Offramp.mk "id-A" "payment-9" 1e11%float 1.6e15%float
                     16000%float "demo-recipient" LegStatus.COMPLETED]
    /\ fees (store w') = [].
Proof.
  cbv zeta.
  destruct (offramp_fee_overflow_leaves_leg_without_fee
              (mkWorld
                 (mkStore [Payment.mk "payment-9" 1e11%float "IDR"
                                      PaymentStatus.IN_PROGRESS]
                          [] [] [] []
                          [FxRate.mk "USD" "IDR" 16000%float "2025-09-30"])
                 [] demo_ids 0)
              (OfframpInput.mk "payment-9" 1e11%float "IDR") 16000%float
              eq_refl eq_refl eq_refl eq_refl eq_refl eq_refl eq_refl
              eq_refl)
    as (w' & Hrun & Hoff & Hfees & _).
  exists w'. split; [exact Hrun|]. split; [exact Hoff|exact Hfees].
Defined.

(** ** Runs as sequences of statements *)

Lemma keeps_ret S A (R : S -> S -> Prop) (x : A) :
  (forall s, R s s) -> keeps R (ret x).
Proof. intros Hrefl s. apply Hrefl. Qed.

Lemma keeps_throw S A (R : S -> S -> Prop) e :
  (forall s, R s s) -> keeps R (@throw S A e).
Proof. intros Hrefl s. apply Hrefl. Qed.

Lemma keeps_bind S A B (R : S -> S -> Prop) (m : M S A) (k : A -> M S B) :
  (forall a b c, R a b -> R b c -> R a c) ->
  keeps R m -> (forall a, keeps R (k a)) -> keeps R (bind m k).
Proof.
  intros Htrans Hm Hk s. unfold bind.
  specialize (Hm s). destruct (m s) as [[a|e] s1]; cbn [snd] in *.
  - exact (Htrans _ _ _ Hm (Hk a s1)).
  - exact Hm.
Qed.

Lemma statements_trans a b c :
  statements a b -> statements b c -> statements a c.
Proof.
  intros Hab Hbc. induction Hbc as [|b c d _ IH Hcd]; [exact Hab|].
  exact (then_statement _ _ _ (IH Hab) Hcd).
Qed.

Lemma one_statement a b : statement a b -> statements a b.
Proof. intros H. exact (then_statement _ _ _ (no_statement a) H). Qed.

Lemma first_violation_None checks :
  first_violation checks = None -> forallb snd checks = true.
Proof.
  induction checks as [|[name holds] rest IH]; [reflexivity|].
  cbn [first_violation forallb snd]. destruct holds; [exact IH|discriminate].
Qed.

Lemma chain_select A (f : Store -> A) : keeps statements (select f).
Proof. intros w. apply no_statement. Qed.

Lemma chain_nanoid : keeps statements nanoid.
Proof. intros w. apply one_statement, draw_id. Qed.

Lemma chain_query ok f e :
  (forall w, ok (store w) = None -> statement w (written f e w)) ->
  keeps statements (query ok f e).
Proof.
  intros H w. unfold query. specialize (H w).
  destruct (ok (store w)); cbn [snd].
  - apply no_statement.
  - apply one_statement, H. reflexivity.
Qed.

Ltac chain_steps :=
  repeat first
    [ apply keeps_ret; exact no_statement
    | apply keeps_throw; exact no_statement
    | apply chain_nanoid
    | apply chain_select
    | apply keeps_bind; [exact statements_trans| |intros ?] ].

Ltac accepted_by H :=
  apply first_violation_None in H; cbn [forallb snd] in H;
  repeat match goal with
         | H : _ && _ = true |- _ =>
             apply andb_true_iff in H; destruct H
         | H : negb _ = true |- _ => apply negb_true_iff in H
         end.

Lemma chain_createPayment id usd cur st :
  keeps statements (PaymentsRepo.createPayment id usd cur st).
Proof.
  unfold PaymentsRepo.createPayment. chain_steps.
  apply chain_query. intros w H. accepted_by H.
  apply insert_payment; assumption.
Qed.

Lemma chain_updatePaymentStatus id st :
  keeps statements (PaymentsRepo.updatePaymentStatus id st).
Proof.
  unfold PaymentsRepo.updatePaymentStatus.
  apply keeps_bind; [exact statements_trans|apply chain_select|].
  intros [r|]; chain_steps.
  apply chain_query. intros w _. apply update_payment_status.
Qed.

Lemma chain_createFundingRecord id pid usd st :
  keeps statements (FundingRepo.createFundingRecord id pid usd st).
Proof.
  unfold FundingRepo.createFundingRecord. chain_steps.
  apply chain_query. intros w H. accepted_by H.
  apply insert_funding; assumption.
Qed.

Lemma chain_updateFundingStatus id st :
  keeps statements (FundingRepo.updateFundingStatus id st).
Proof.
  unfold FundingRepo.updateFundingStatus.
  apply keeps_bind; [exact statements_trans|apply chain_select|].
  intros [r|]; chain_steps.
  apply chain_query. intros w _. apply update_funding_status.
Qed.

Lemma chain_createMintingRecord id pid usd usdc rate st :
  keeps statements (MintingRepo.createMintingRecord id pid usd usdc rate st).
Proof.
  unfold MintingRepo.createMintingRecord. chain_steps.
  apply chain_query. intros w H. accepted_by H.
  apply insert_minting; assumption.
Qed.

Lemma chain_createOfframpRecord id pid usdc loc rate rcp st :
  keeps statements
    (OfframpRepo.createOfframpRecord id pid usdc loc rate rcp st).
Proof.
  unfold OfframpRepo.createOfframpRecord. chain_steps.
  apply chain_query. intros w H. accepted_by H.
  apply insert_offramp; assumption.
Qed.

Lemma chain_createFeeRecord id pid leg amount cur :
  keeps statements (FeesRepo.createFeeRecord id pid leg amount cur).
Proof.
  unfold FeesRepo.createFeeRecord. chain_steps.
  apply chain_query. intros w H. accepted_by H.
  apply insert_fee; assumption.
Qed.

Ltac chain_calls :=
  repeat first
    [ apply keeps_ret; exact no_statement
    | apply keeps_throw; exact no_statement
    | apply chain_nanoid
    | apply chain_select
    | apply chain_createPayment
    | apply chain_updatePaymentStatus
    | apply chain_createFundingRecord
    | apply chain_updateFundingStatus
    | apply chain_createMintingRecord
    | apply chain_createOfframpRecord
    | apply chain_createFeeRecord
    | apply keeps_bind; [exact statements_trans| |intros ?] ].

Lemma chain_createFundingActivity input :
  keeps statements (Activities.createFundingActivity input).
Proof. unfold Activities.createFundingActivity. chain_calls. Qed.

Lemma chain_mintUsdcActivity input :
  keeps statements (Activities.mintUsdcActivity input).
Proof.
  unfold Activities.mintUsdcActivity.
  destruct (includes _ _); cbn [LegStatus.is_completed]; chain_calls.
Qed.

Lemma chain_offrampActivity params :
  keeps statements (Activities.offrampActivity params).
Proof.
  unfold Activities.offrampActivity, FxRepo.getFxRate.
  apply keeps_bind; [exact statements_trans|apply chain_select|].
  intros [fx|]; chain_calls.
Qed.

Lemma chain_compensateFundingActivity fid :
  keeps statements (Activities.compensateFundingActivity fid).
Proof. unfold Activities.compensateFundingActivity. chain_calls. Qed.

Lemma keeps_startChild A B (R : Run -> Run -> Prop) (x : Async A)
    (k : Async A -> Workflow B) :
  (forall a b c, R a b -> R b c -> R a c) ->
  keeps R (startChild x) -> keeps R (k x) -> keeps R (bind (startChild x) k).
Proof.
  intros Htrans Hx Hk r. specialize (Hx r). revert Hx.
  unfold bind, startChild. destruct r as [w c re st inbox].
  rewrite await_eq. cbn [ret fst snd]. intros Hx.
  exact (Htrans _ _ _ Hx (Hk _)).
Qed.

(** The workflow moves its run by [R] when each suspension and each
    assignment to [stage] does, whatever the activities return. *)
Lemma PaymentWorkflow_keeps (Rw : World -> World -> Prop)
    (R : Run -> Run -> Prop) (input : PaymentInput.t) :
  let pid := PaymentInput.paymentId input in
  let cur := PaymentInput.destinationCurrency input in
  (forall r, R r r) ->
  (forall a b c, R a b -> R b c -> R a c) ->
  (forall s, keeps R (set_stage s)) ->
  (forall A (a : Async A), keeps Rw a -> keeps R (await a)) ->
  (forall w, Rw w w) ->
  keeps Rw (Activities.createPaymentActivity pid
              (PaymentInput.amountUsd input) cur PaymentStatus.CREATED) ->
  (forall s, keeps Rw (Activities.updatePaymentStatusActivity pid s)) ->
  (forall f, keeps Rw (Activities.compensateFundingActivity f)) ->
  keeps Rw (FundingWorkflow input) ->
  keeps Rw (MintingWorkflow input) ->
  (forall u, keeps Rw (OfframpWorkflow (OfframpInput.mk pid u cur))) ->
  keeps R (PaymentWorkflow input).
Proof.
  intros pid cur Hrefl Htrans Hstage Hawait Hw Hc Hu Hk Hf Hm Ho.
  assert (Hret : forall A (x : A), keeps R (@ret Run A x))
    by (intros; apply keeps_ret, Hrefl).
  assert (Hchild : forall A (x : Async A), keeps R (startChild x))
    by (intros A x; apply Hawait; intros w; apply Hw).
  assert (Hflag : keeps R get_cancelRequested) by (intros r; apply Hrefl).
  assert (Hreason : keeps R get_cancelReason) by (intros r; apply Hrefl).
  unfold PaymentWorkflow, child_result. fold pid cur.
  repeat first
    [ apply Hret | apply Hstage | apply Hchild | exact Hflag | exact Hreason
    | apply Hawait;
      first [apply Hc | apply Hu | apply Hk | apply Hf | apply Hm | apply Ho]
    | apply keeps_startChild; [exact Htrans|apply Hchild|]
    | apply keeps_bind; [exact Htrans| |intros ?]
    | match goal with
      | |- keeps _ (match ?x with _ => _ end) => destruct x
      | |- keeps _ (if ?x then _ else _) => destruct x
      end ].
Qed.

Lemma world_await A (a : Async A) r :
  world (snd (await a r)) = snd (a (world r)).
Proof. destruct r as [w c re st inbox]. rewrite await_eq. reflexivity. Qed.

Lemma PaymentWorkflow_keeps_world (Rw : World -> World -> Prop)
    (input : PaymentInput.t) :
  let pid := PaymentInput.paymentId input in
  let cur := PaymentInput.destinationCurrency input in
  (forall w, Rw w w) ->
  (forall a b c, Rw a b -> Rw b c -> Rw a c) ->
  keeps Rw (Activities.createPaymentActivity pid
              (PaymentInput.amountUsd input) cur PaymentStatus.CREATED) ->
  (forall s, keeps Rw (Activities.updatePaymentStatusActivity pid s)) ->
  (forall f, keeps Rw (Activities.compensateFundingActivity f)) ->
  keeps Rw (FundingWorkflow input) ->
  keeps Rw (MintingWorkflow input) ->
  (forall u, keeps Rw (OfframpWorkflow (OfframpInput.mk pid u cur))) ->
  forall r, Rw (world r) (world (snd (PaymentWorkflow input r))).
Proof.
  intros pid cur Hrefl Htrans Hc Hu Hk Hf Hm Ho.
  apply (PaymentWorkflow_keeps Rw (fun r r' => Rw (world r) (world r')));
    try assumption.
  - intros r. apply Hrefl.
  - intros a b c. apply Htrans.
  - intros s r. apply Hrefl.
  - intros A a Ha r. rewrite world_await. apply Ha.
Qed.

Lemma PaymentWorkflow_statements input r :
  statements (world r) (world (snd (PaymentWorkflow input r))).
Proof.
  apply PaymentWorkflow_keeps_world.
  - exact no_statement.
  - exact statements_trans.
  - apply chain_createPayment.
  - intros. apply chain_updatePaymentStatus.
  - exact chain_compensateFundingActivity.
  - unfold FundingWorkflow.
    apply keeps_bind;
      [exact statements_trans|apply chain_createFundingActivity|].
    intros; apply keeps_ret; exact no_statement.
  - unfold MintingWorkflow.
    apply keeps_bind;
      [exact statements_trans|apply chain_mintUsdcActivity|].
    intros; apply keeps_ret; exact no_statement.
  - intros u. unfold OfframpWorkflow.
    apply keeps_bind;
      [exact statements_trans|apply chain_offrampActivity|].
    intros; apply keeps_ret; exact no_statement.
Qed.

(** ** What every statement keeps *)

Lemma forallb_map_same A (g : A -> A) (p : A -> bool) l :
  (forall x, p (g x) = p x) -> forallb p (map g l) = forallb p l.
Proof.
  intros H. induction l as [|x l IH]; [reflexivity|].
  cbn [map forallb]. rewrite H, IH. reflexivity.
Qed.

Lemma map_map_same A B (g : A -> A) (f : A -> B) l :
  (forall x, f (g x) = f x) -> map f (map g l) = map f l.
Proof.
  intros H. rewrite map_map. apply map_ext. exact H.
Qed.

Lemma forallb_weaken A (p q : A -> bool) l :
  (forall x, p x = true -> q x = true) ->
  forallb p l = true -> forallb q l = true.
Proof.
  intros H. induction l as [|x l IH]; [reflexivity|].
  cbn [forallb]. intros Hl. apply andb_prop in Hl. destruct Hl as [Hx Hl].
  rewrite (H _ Hx), (IH Hl). reflexivity.
Qed.

Lemma payment_set_status_core id st r :
  payment_core (PaymentsRepo.set_status id st r) = payment_core r.
Proof.
  unfold PaymentsRepo.set_status. destruct (String.eqb _ _); reflexivity.
Qed.

Lemma funding_set_status_core id st r :
  funding_core (FundingRepo.set_status id st r) = funding_core r.
Proof.
  unfold FundingRepo.set_status. destruct (String.eqb _ _); reflexivity.
Qed.

Lemma fk_ok_more_payments row s :
  fk_ok s = true -> fk_ok (with_payments (cons row) s) = true.
Proof.
  unfold fk_ok, payment_ids.
  cbn [with_payments payments funding minting offramp fees map].
  intros H. split_bools.
  repeat (apply andb_true_intro; split);
    (eapply forallb_weaken; [|eassumption]);
    intros x Hx; cbv beta in *; rewrite has_id_cons, Hx;
    apply orb_true_r.
Qed.

Lemma fk_ok_same_payments f s :
  map Payment.id (f (payments s)) = map Payment.id (payments s) ->
  fk_ok (with_payments f s) = fk_ok s.
Proof.
  unfold fk_ok, payment_ids.
  cbn [with_payments payments funding minting offramp fees].
  intros ->. reflexivity.
Qed.

Ltac conj_bools :=
  repeat match goal with
         | |- _ && _ = true => apply andb_true_intro; split
         end.

Lemma statement_consistent w w' :
  statement w w' ->
  consistent (store w) = true -> consistent (store w') = true.
Proof.
  intros Hs Hc.
  unfold consistent in *. apply andb_prop in Hc. destruct Hc as [Hc Hcol].
  apply andb_prop in Hc. destruct Hc as [Hkey Hfk].
  destruct Hs as [w|row w Hid Hamt|id st w|row w Hid Hp Hamt|id st w
                 |row w Hid Hp H1 H2 H3|row w Hid Hp H1 H2 H3
                 |row w Hid Hp Hamt].
  - cbn [drawn store]. rewrite Hkey, Hfk, Hcol. reflexivity.
  - cbn [written store]. rewrite (fk_ok_more_payments row _ Hfk).
    unfold keys_ok, columns_ok, payment_ids in *.
    cbn [with_payments payments funding minting offramp fees map distinct
         forallb].
    split_bools. rewrite Hid, Hamt. cbn [negb andb]. use_bools.
    reflexivity.
  - cbn [written store].
    rewrite fk_ok_same_payments, Hfk.
    2: { apply map_map_same. intros x.
         exact (f_equal (fun c => fst (fst c))
                  (payment_set_status_core id st x)). }
    unfold keys_ok, columns_ok, payment_ids in *.
    cbn [with_payments payments funding minting offramp fees].
    rewrite map_map_same.
    2: { intros x. exact (f_equal (fun c => fst (fst c))
                            (payment_set_status_core id st x)). }
    rewrite forallb_map_same.
    2: { intros x. exact (f_equal (fun c => numeric_18_2 (snd (fst c)))
                            (payment_set_status_core id st x)). }
    rewrite Hkey, Hcol. reflexivity.
  - cbn [written store].
    unfold keys_ok, fk_ok, columns_ok, payment_ids in *.
    cbn [with_funding payments funding minting offramp fees map distinct
         forallb].
    split_bools. rewrite Hid. unfold payment_ids in Hp. rewrite Hp, Hamt.
    cbn [negb andb]. use_bools. reflexivity.
  - cbn [written store].
    unfold keys_ok, fk_ok, columns_ok, payment_ids in *.
    cbn [with_funding payments funding minting offramp fees].
    rewrite map_map_same.
    2: { intros x. exact (f_equal (fun c => fst (fst c))
                            (funding_set_status_core id st x)). }
    rewrite !forallb_map_same.
    2: { intros x. exact (f_equal (fun c => numeric_18_2 (snd c))
                            (funding_set_status_core id st x)). }
    2: { intros x.
         exact (f_equal
                  (fun c => has_id (map Payment.id (payments (store w)))
                              (snd (fst c)))
                  (funding_set_status_core id st x)). }
    split_bools. use_bools. reflexivity.
  - cbn [written store].
    unfold keys_ok, fk_ok, columns_ok, payment_ids in *.
    cbn [with_minting payments funding minting offramp fees map distinct
         forallb].
    split_bools. rewrite Hid, Hp, H1, H2, H3.
    cbn [negb andb]. use_bools. reflexivity.
  - cbn [written store].
    unfold keys_ok, fk_ok, columns_ok, payment_ids in *.
    cbn [with_offramp payments funding minting offramp fees map distinct
         forallb].
    split_bools. rewrite Hid, Hp, H1, H2, H3.
    cbn [negb andb]. use_bools. reflexivity.
  - cbn [written store].
    unfold keys_ok, fk_ok, columns_ok, payment_ids in *.
    cbn [with_fees payments funding minting offramp fees map distinct
         forallb].
    split_bools. rewrite Hid, Hp, Hamt.
    cbn [negb andb]. use_bools. reflexivity.
Qed.

Lemma statements_consistent w w' :
  statements w w' ->
  consistent (store w) = true -> consistent (store w') = true.
Proof.
  intros H. induction H as [|w1 w2 w3 _ IH Hs]; [trivial|].
  intros Hc. exact (statement_consistent _ _ Hs (IH Hc)).
Qed.

Lemma extends_refl A (l : list A) : extends l l.
Proof. exists []. reflexivity. Qed.

Lemma extends_trans A (a b c : list A) :
  extends a b -> extends b c -> extends a c.
Proof.
  intros [x ->] [y ->]. exists (y ++ x). apply app_assoc.
Qed.

Lemma extends_cons A (x : A) l : extends l (x :: l).
Proof. exists [x]. reflexivity. Qed.

Lemma grows_refl w : grows w w.
Proof.
  unfold grows. repeat split; try apply extends_refl; try reflexivity.
  exists []. symmetry. apply app_nil_r.
Qed.

Lemma grows_trans a b c : grows a b -> grows b c -> grows a c.
Proof.
  unfold grows.
  intros (P1 & F1 & M1 & O1 & E1 & X1 & [j1 J1] & S1 & N1)
         (P2 & F2 & M2 & O2 & E2 & X2 & [j2 J2] & S2 & N2).
  repeat split; try (eapply extends_trans; eassumption); try congruence.
  - exists (j1 ++ j2). rewrite J2, J1. symmetry. apply app_assoc.
  - lia.
Qed.

Lemma statement_grows w w' : statement w w' -> grows w w'.
Proof.
  intros Hs.
  destruct Hs; unfold grows;
    cbn [drawn written store journal nanoid_source nanoid_calls
         with_payments with_funding with_minting with_offramp with_fees
         payments funding minting offramp fees fx_rates map];
    rewrite ?(map_map_same _ _ _ payment_core),
            ?(map_map_same _ _ _ funding_core)
      by (intros; first [apply payment_set_status_core
                        |apply funding_set_status_core]);
    repeat split;
    try apply extends_refl; try apply extends_cons; try lia;
    first [ exists []; symmetry; apply app_nil_r
          | eexists; reflexivity ].
Qed.

Lemma statements_grow w w' : statements w w' -> grows w w'.
Proof.
  intros H. induction H as [|w1 w2 w3 _ IH Hs]; [apply grows_refl|].
  exact (grows_trans _ _ _ IH (statement_grows _ _ Hs)).
Qed.

(** ** The constraints of the schema, and what a run leaves alone *)

(** A run, and each activity called on its own, leaves the store as the
    schema admits it when it found it so: primary keys stay unique, every
    leg and fee row refers to a payment that exists, and every amount fits
    its column.  This holds whether the run returns or an activity throws
    in the middle of it. *)
Theorem run_keeps_schema_constraints :
  forall (w : World) (input : PaymentInput.t) (params : OfframpInput.t)
         (fundingId : string) (signals : list (list (option string))),
    consistent (store w) = true ->
    consistent
      (store (world (snd (PaymentWorkflow input (start w signals))))) = true
    /\ consistent (store (snd (Activities.createFundingActivity input w)))
       = true
    /\ consistent (store (snd (Activities.mintUsdcActivity input w))) = true
    /\ consistent (store (snd (Activities.offrampActivity params w))) = true
    /\ consistent
         (store (snd (Activities.compensateFundingActivity fundingId w)))
       = true.
Proof.
  intros w input params fundingId signals Hc.
  split; [|split; [|split; [|split]]];
    (eapply statements_consistent; [|exact Hc]).
  - exact (PaymentWorkflow_statements input (start w signals)).
  - apply chain_createFundingActivity.
  - apply chain_mintUsdcActivity.
  - apply chain_offrampActivity.
  - apply chain_compensateFundingActivity.
Qed.

Lemma run_keeps_schema_constraints_witness :
  consistent (store settled_world) = true
  /\ consistent
       (store (world (snd (PaymentWorkflow demo_input
                             (start settled_world [])))))
     = true.
Proof.
  split; [reflexivity|].
  exact (proj1 (run_keeps_schema_constraints settled_world demo_input
                  (OfframpInput.mk "payment-0" 50%float "MXN") "f-0" []
                  eq_refl)).
Defined.

(** A run deletes nothing and rewrites nothing but a status: the rows of
    the minting, offramp and fee tables it found are still there,
    unchanged, under the rows it added; so are the payment and funding
    rows, up to their status; the rates are untouched; the journal of
    writes is only appended to. *)
Theorem run_only_adds_rows_and_sets_status :
  forall (w : World) (input : PaymentInput.t)
         (signals : list (list (option string))),
    grows w (world (snd (PaymentWorkflow input (start w signals)))).
Proof.
  intros w input signals.
  exact (statements_grow _ _
           (PaymentWorkflow_statements input (start w signals))).
Qed.

(** ** Signals that are handled *)

Lemma last_cons A (x : A) l d : last (x :: l) d = last l x.
Proof.
  revert x d. induction l as [|y l IH]; intros x d; [reflexivity|].
  change (last (x :: y :: l) d) with (last (y :: l) d).
  rewrite (IH y d), (IH y x). reflexivity.
Qed.

Lemma last_app A (a b : list A) d : last (a ++ b) d = last b (last a d).
Proof.
  revert d. induction a as [|x a IH]; intros d; [reflexivity|].
  cbn [app]. rewrite !last_cons. apply IH.
Qed.

Lemma firstn_plus A n m (l : list A) :
  firstn (n + m) l = firstn n l ++ firstn m (skipn n l).
Proof.
  revert l. induction n as [|n IH]; intros l; [reflexivity|].
  destruct l as [|x l]; cbn [Nat.add firstn skipn app].
  - rewrite firstn_nil. reflexivity.
  - rewrite IH. reflexivity.
Qed.

Lemma skipn_plus A n m (l : list A) :
  skipn m (skipn n l) = skipn (n + m) l.
Proof.
  revert l. induction n as [|n IH]; intros l; [reflexivity|].
  destruct l as [|x l]; cbn [Nat.add skipn].
  - apply skipn_nil.
  - apply IH.
Qed.

Lemma handled_none r : handled 0 r r.
Proof.
  unfold handled. cbn [skipn firstn concat nonempty last].
  rewrite orb_false_r. repeat split.
Qed.

Lemma handled_trans n m a b c :
  handled n a b -> handled m b c -> handled (n + m) a c.
Proof.
  unfold handled. intros (I1 & C1 & R1) (I2 & C2 & R2).
  rewrite I2, C2, R2, I1, C1, R1.
  rewrite skipn_plus, firstn_plus, concat_app, nonempty_app, last_app,
    orb_assoc.
  repeat split.
Qed.

Lemma handled_await A (a : Async A) r : handled 1 r (snd (await a r)).
Proof.
  destruct r as [w c re st slots]. rewrite await_eq.
  unfold handled. cbn [snd inbox cancelRequested cancelReason].
  destruct slots as [|slot slots];
    cbn [hd tl skipn firstn concat nonempty last app];
    rewrite ?app_nil_r; repeat split.
Qed.

(** The signal handler never loses a signal: when a run ends, having
    suspended [n] times, the flag the status query reports is the flag it
    started with or that of any signal delivered during those suspensions,
    and the reason kept is that of the last of them.  The flag is never
    reset. *)
Theorem signals_are_accumulated :
  forall (input : PaymentInput.t) (r : Run),
    let r' := snd (PaymentWorkflow input r) in
    exists n,
      handled n r r'
      /\ snd (paymentStatusQuery r')
         = cancelRequested r || nonempty (concat (firstn n (inbox r)))
      /\ (cancelRequested r = true -> snd (paymentStatusQuery r') = true).
Proof.
  intros input r. cbv zeta.
  assert (H : keeps (fun a b => exists n, handled n a b)
                    (PaymentWorkflow input)).
  { apply (PaymentWorkflow_keeps (fun _ _ => True));
      try (unfold keeps; intros; exact I).
    - intros a. exists 0. apply handled_none.
    - intros a b c [n Hn] [m Hm]. exists (n + m).
      exact (handled_trans _ _ _ _ _ Hn Hm).
    - intros s a. exists 0. destruct a. unfold handled.
      cbn [set_stage snd inbox cancelRequested cancelReason skipn firstn
           concat nonempty last].
      rewrite orb_false_r. repeat split.
    - intros A a _ x. exists 1. apply handled_await. }
  destruct (H r) as [n Hn]. exists n. split; [exact Hn|].
  destruct Hn as (_ & Hc & _). unfold paymentStatusQuery. cbn [snd].
  split; [exact Hc|]. intros Hr. rewrite Hc, Hr. reflexivity.
Qed.

(** ** Reading back what the repositories wrote *)

Lemma find_map_same_key A (key : A -> string) (g : A -> A) id l :
  (forall r, key (g r) = key r) ->
  find (fun r => String.eqb (key r) id) (map g l)
  = option_map g (find (fun r => String.eqb (key r) id) l).
Proof.
  intros Hkey. induction l as [|r l IH]; [reflexivity|].
  cbn [map find]. rewrite Hkey.
  destruct (String.eqb (key r) id); [reflexivity|exact IH].
Qed.

Lemma find_key A (key : A -> string) id l r :
  find (fun r => String.eqb (key r) id) l = Some r -> key r = id.
Proof.
  intros H. apply find_some in H. destruct H as [_ H].
  apply String.eqb_eq. exact H.
Qed.

Lemma payment_set_status_id id st r :
  Payment.id (PaymentsRepo.set_status id st r) = Payment.id r.
Proof.
  exact (f_equal (fun c => fst (fst c)) (payment_set_status_core id st r)).
Qed.

Lemma funding_set_status_id id st r :
  Funding.id (FundingRepo.set_status id st r) = Funding.id r.
Proof.
  exact (f_equal (fun c => fst (fst c)) (funding_set_status_core id st r)).
Qed.



(** A leg cannot be recorded for a payment that does not exist: called
    with the identifier of no payment row, each executor throws the
    database's refusal, having drawn one identifier and written nothing. *)
Theorem no_leg_without_payment :
  forall (w : World) (input : PaymentInput.t) (params : OfframpInput.t),
    (has_id (payment_ids (store w)) (PaymentInput.paymentId input) = false ->
     (exists c,
        Activities.createFundingActivity input w
        = (Thrown (DatabaseError c), drawn w))
     /\ (exists c,
           Activities.mintUsdcActivity input w
           = (Thrown (DatabaseError c), drawn w)))
    /\ (has_id (payment_ids (store w)) (OfframpInput.paymentId params)
        = false ->
        exists c,
          Activities.offrampActivity params w
          = (Thrown (DatabaseError c), drawn w)).
Proof.
  intros w input params. split.
  - intros Hp. split.
    + unfold Activities.createFundingActivity,
        FundingRepo.createFundingRecord, bind, nanoid, query.
      cbn [store drawn first_violation]. rewrite Hp.
      destruct (negb _); eexists; reflexivity.
    + unfold Activities.mintUsdcActivity, MintingRepo.createMintingRecord.
      destruct (includes _ _); unfold bind, nanoid, query;
        cbn [store drawn first_violation]; rewrite Hp;
        destruct (negb _); eexists; reflexivity.
  - intros Hp. unfold Activities.offrampActivity. unfold bind at 1.
    rewrite getFxRate_eq. unfold OfframpRepo.createOfframpRecord.
    destruct (find _ (fx_rates (store w))); unfold bind, nanoid, query;
      cbn [store drawn first_violation]; rewrite Hp;
      destruct (negb _); eexists; reflexivity.
Qed.

Lemma no_leg_without_payment_witness :
  has_id (payment_ids (store settled_world)) "payment-7" = false
  /\ exists c,
       Activities.createFundingActivity
         (PaymentInput.mk "payment-7" 10%float "MXN") settled_world
       = (Thrown (DatabaseError c), drawn settled_world).
Proof.
  split; [reflexivity|].
  exact (proj1 (proj1 (no_leg_without_payment settled_world
                         (PaymentInput.mk "payment-7" 10%float "MXN")
                         (OfframpInput.mk "payment-7" 10%float "MXN"))
                  eq_refl)).
Defined.

(** The funding leg is found again under the identifier the executor
    returned.  On a world where the payment exists, the two identifiers
    drawn are new and the amount fits, [createFundingActivity] returns the
    identifier under which [getFundingById] finds its COMPLETED row, and
    [getFundingByPaymentId] lists that row first; after
    [compensateFundingActivity] on that identifier the same row is read
    back COMPENSATED, the payment has as many funding rows as before, and
    what is read back under any other identifier is as it was. *)
Theorem funding_leg_is_read_back :
  forall (w : World) (input : PaymentInput.t),
    let pid := PaymentInput.paymentId input in
    has_id (payment_ids (store w)) pid = true ->
    has_id (map Funding.id (funding (store w))) (next_id w 0) = false ->
    has_id (map Fee.id (fees (store w))) (next_id w 1) = false ->
    numeric_18_2 (PaymentInput.amountUsd input) = true ->
    exists w1 w2,
      Activities.createFundingActivity input w
      = (Ok (FundingResult.mk LegStatus.COMPLETED (next_id w 0)), w1)
      /\ fst (FundingRepo.getFundingById (next_id w 0) w1)
         = Ok (Some (funding_row w input FundingStatus.COMPLETED))
      /\ fst (FundingRepo.getFundingByPaymentId pid w1)
         = Ok (funding_row w input FundingStatus.COMPLETED
               :: Server.funding_of pid (store w))
      /\ Activities.compensateFundingActivity (next_id w 0) w1 = (Ok tt, w2)
      /\ fst (FundingRepo.getFundingById (next_id w 0) w2)
         = Ok (Some (funding_row w input FundingStatus.COMPENSATED))
      /\ fst (FundingRepo.getFundingByPaymentId pid w2)
         = Ok (funding_row w input FundingStatus.COMPENSATED
               :: Server.funding_of pid (store w))
      /\ (forall other,
            other <> next_id w 0 ->
            fst (FundingRepo.getFundingById other w2)
            = fst (FundingRepo.getFundingById other w)).
Proof.
  intros w input pid Hp Hf He Hamt.
  pose proof (createFundingActivity_ok input w Hp Hf He Hamt) as Hc.
  cbv zeta in Hc. fold pid in Hc.
  set (row := funding_row w input FundingStatus.COMPLETED).
  set (w1 := written _ _ (drawn (written _ _ (drawn w)))) in Hc.
  assert (H1 : funding (store w1) = row :: funding (store w))
    by reflexivity.
  assert (Hfind :
    find (fun r => String.eqb (Funding.id r) (next_id w 0))
         (funding (store w1)) = Some row).
  { rewrite H1. cbn [find row funding_row Funding.id].
    rewrite String.eqb_refl. reflexivity. }
  assert (Hset :
    FundingRepo.set_status (next_id w 0) FundingStatus.COMPENSATED row
    = funding_row w input FundingStatus.COMPENSATED).
  { unfold FundingRepo.set_status, row, funding_row. cbn [Funding.id].
    rewrite String.eqb_refl. reflexivity. }
  assert (Hold :
    map (FundingRepo.set_status (next_id w 0) FundingStatus.COMPENSATED)
        (funding (store w)) = funding (store w))
    by (apply funding_update_absent; exact Hf).
  pose proof (compensateFundingActivity_ok _ _ row Hfind) as Hk.
  set (w2 := written _ _ w1) in Hk.
  assert (H2 : funding (store w2)
               = funding_row w input FundingStatus.COMPENSATED
                 :: funding (store w)).
  { change (funding (store w2))
      with (map (FundingRepo.set_status (next_id w 0)
                   FundingStatus.COMPENSATED) (funding (store w1))).
    rewrite H1. cbn [map]. rewrite Hset, Hold. reflexivity. }
  exists w1, w2. split; [exact Hc|].
  unfold FundingRepo.getFundingById, FundingRepo.getFundingByPaymentId,
    select, Server.funding_of.
  cbn [fst]. rewrite H1, H2.
  cbn [find filter row funding_row Funding.id Funding.payment_id].
  fold pid. rewrite !String.eqb_refl.
  split; [reflexivity|]. split; [reflexivity|]. split; [exact Hk|].
  split; [reflexivity|]. split; [reflexivity|].
  intros other Hother.
  assert (Hne : String.eqb (next_id w 0) other = false)
    by (apply String.eqb_neq; congruence).
  rewrite Hne. reflexivity.
Qed.

Lemma funding_leg_is_read_back_witness :
  exists w1,
    Activities.createFundingActivity
      (PaymentInput.mk "payment-0" 50%float "MXN") settled_world
    = (Ok (FundingResult.mk LegStatus.COMPLETED "id-A"), w1)
    /\ fst (FundingRepo.getFundingById "id-A" w1)
       = Ok (Some (Funding.mk "id-A" "payment-0" 50%float
                              FundingStatus.COMPLETED)).
Proof.
  destruct (funding_leg_is_read_back settled_world
              (PaymentInput.mk "payment-0" 50%float "MXN")
              eq_refl eq_refl eq_refl eq_refl)
    as (w1 & w2 & Hc & Hg & _).
  exists w1. split; [exact Hc|exact Hg].
Defined.

(** ** Identifiers the server makes up *)








(** ** The rows of other payments *)

Lemma same_rows_of_refl other w : same_rows_of other w w.
Proof. repeat split. Qed.

Lemma same_rows_of_trans other a b c :
  same_rows_of other a b -> same_rows_of other b c -> same_rows_of other a c.
Proof.
  unfold same_rows_of. intros (P1 & M1 & O1 & F1) (P2 & M2 & O2 & F2).
  repeat split; congruence.
Qed.

Lemma keeps_query (R : World -> World -> Prop) ok f e :
  (forall w, R w w) ->
  (forall w, ok (store w) = None -> R w (written f e w)) ->
  keeps R (query ok f e).
Proof.
  intros Hrefl H w. unfold query. specialize (H w).
  destruct (ok (store w)); cbn [snd]; [apply Hrefl|].
  apply H. reflexivity.
Qed.

Ltac rows_steps other :=
  repeat first
    [ apply keeps_ret; exact (same_rows_of_refl other)
    | apply keeps_throw; exact (same_rows_of_refl other)
    | intros ?; apply same_rows_of_refl
    | apply keeps_bind; [exact (same_rows_of_trans other)| |intros ?] ].

Lemma rows_nanoid other : keeps (same_rows_of other) nanoid.
Proof. intros w. repeat split. Qed.

Lemma rows_select other A (f : Store -> A) :
  keeps (same_rows_of other) (select f).
Proof. intros w. repeat split. Qed.

Lemma rows_createPayment other id usd cur st :
  other <> id ->
  keeps (same_rows_of other) (PaymentsRepo.createPayment id usd cur st).
Proof.
  intros Hne. unfold PaymentsRepo.createPayment.
  apply keeps_bind; [exact (same_rows_of_trans other)| |].
  2: intros; apply keeps_ret; exact (same_rows_of_refl other).
  apply keeps_query; [exact (same_rows_of_refl other)|].
  intros w _. unfold same_rows_of.
  cbn [written store with_payments payments find Payment.id].
  assert (H : String.eqb id other = false)
    by (apply String.eqb_neq; congruence).
  rewrite H. repeat split.
Qed.

Lemma rows_updatePaymentStatus other id st :
  other <> id ->
  keeps (same_rows_of other) (PaymentsRepo.updatePaymentStatus id st).
Proof.
  intros Hne. unfold PaymentsRepo.updatePaymentStatus.
  apply keeps_bind;
    [exact (same_rows_of_trans other)|apply rows_select|].
  intros [r|]; [|apply keeps_throw; exact (same_rows_of_refl other)].
  apply keeps_bind; [exact (same_rows_of_trans other)| |].
  2: intros; apply keeps_ret; exact (same_rows_of_refl other).
  apply keeps_query; [exact (same_rows_of_refl other)|].
  intros w _. unfold same_rows_of.
  cbn [written store with_payments payments].
  split; [|repeat split].
  rewrite (find_map_same_key _ Payment.id)
    by (intros; apply payment_set_status_id).
  destruct (find _ (payments (store w))) as [x|] eqn:Hx; [|reflexivity].
  cbn [option_map]. apply find_key in Hx.
  unfold PaymentsRepo.set_status. rewrite Hx.
  assert (H : String.eqb other id = false)
    by (apply String.eqb_neq; exact Hne).
  rewrite H. reflexivity.
Qed.

Lemma rows_createFundingRecord other id pid usd st :
  keeps (same_rows_of other) (FundingRepo.createFundingRecord id pid usd st).
Proof.
  unfold FundingRepo.createFundingRecord.
  apply keeps_bind; [exact (same_rows_of_trans other)| |].
  2: intros; apply keeps_ret; exact (same_rows_of_refl other).
  apply keeps_query; [exact (same_rows_of_refl other)|].
  intros w _. repeat split.
Qed.

Lemma rows_updateFundingStatus other id st :
  keeps (same_rows_of other) (FundingRepo.updateFundingStatus id st).
Proof.
  unfold FundingRepo.updateFundingStatus.
  apply keeps_bind;
    [exact (same_rows_of_trans other)|apply rows_select|].
  intros [r|]; [|apply keeps_throw; exact (same_rows_of_refl other)].
  apply keeps_bind; [exact (same_rows_of_trans other)| |].
  2: intros; apply keeps_ret; exact (same_rows_of_refl other).
  apply keeps_query; [exact (same_rows_of_refl other)|].
  intros w _. repeat split.
Qed.

Lemma rows_createMintingRecord other id pid usd usdc rate st :
  other <> pid ->
  keeps (same_rows_of other)
    (MintingRepo.createMintingRecord id pid usd usdc rate st).
Proof.
  intros Hne. unfold MintingRepo.createMintingRecord.
  apply keeps_bind; [exact (same_rows_of_trans other)| |].
  2: intros; apply keeps_ret; exact (same_rows_of_refl other).
  apply keeps_query; [exact (same_rows_of_refl other)|].
  intros w _. unfold same_rows_of, Server.minting_of.
  cbn [written store with_minting payments minting offramp fees filter
       Minting.payment_id].
  assert (H : String.eqb pid other = false)
    by (apply String.eqb_neq; congruence).
  rewrite H. repeat split.
Qed.

Lemma rows_createOfframpRecord other id pid usdc loc rate rcp st :
  other <> pid ->
  keeps (same_rows_of other)
    (OfframpRepo.createOfframpRecord id pid usdc loc rate rcp st).
Proof.
  intros Hne. unfold OfframpRepo.createOfframpRecord.
  apply keeps_bind; [exact (same_rows_of_trans other)| |].
  2: intros; apply keeps_ret; exact (same_rows_of_refl other).
  apply keeps_query; [exact (same_rows_of_refl other)|].
  intros w _. unfold same_rows_of, Server.offramp_of.
  cbn [written store with_offramp payments minting offramp fees filter
       Offramp.payment_id].
  assert (H : String.eqb pid other = false)
    by (apply String.eqb_neq; congruence).
  rewrite H. repeat split.
Qed.

Lemma rows_createFeeRecord other id pid leg amount cur :
  other <> pid ->
  keeps (same_rows_of other) (FeesRepo.createFeeRecord id pid leg amount cur).
Proof.
  intros Hne. unfold FeesRepo.createFeeRecord.
  apply keeps_bind; [exact (same_rows_of_trans other)| |].
  2: intros; apply keeps_ret; exact (same_rows_of_refl other).
  apply keeps_query; [exact (same_rows_of_refl other)|].
  intros w _. unfold same_rows_of, Server.fees_of.
  cbn [written store with_fees payments minting offramp fees filter
       Fee.payment_id].
  assert (H : String.eqb pid other = false)
    by (apply String.eqb_neq; congruence).
  rewrite H. repeat split.
Qed.

Ltac rows_calls other H :=
  repeat first
    [ apply keeps_ret; exact (same_rows_of_refl other)
    | apply keeps_throw; exact (same_rows_of_refl other)
    | apply rows_nanoid
    | apply rows_select
    | apply rows_createPayment; exact H
    | apply rows_updatePaymentStatus; exact H
    | apply rows_createFundingRecord
    | apply rows_updateFundingStatus
    | apply rows_createMintingRecord; exact H
    | apply rows_createOfframpRecord; exact H
    | apply rows_createFeeRecord; exact H
    | apply keeps_bind; [exact (same_rows_of_trans other)| |intros ?] ].

Lemma PaymentWorkflow_same_rows other input r :
  other <> PaymentInput.paymentId input ->
  same_rows_of other (world r) (world (snd (PaymentWorkflow input r))).
Proof.
  intros Hne.
  apply (PaymentWorkflow_keeps_world (same_rows_of other)).
  - exact (same_rows_of_refl other).
  - exact (same_rows_of_trans other).
  - unfold Activities.createPaymentActivity. rows_calls other Hne.
  - intros s. unfold Activities.updatePaymentStatusActivity.
    rows_calls other Hne.
  - intros f. unfold Activities.compensateFundingActivity.
    rows_calls other Hne.
  - unfold FundingWorkflow, Activities.createFundingActivity.
    rows_calls other Hne.
  - unfold MintingWorkflow, Activities.mintUsdcActivity.
    destruct (includes _ _); cbn [LegStatus.is_completed];
      rows_calls other Hne.
  - intros u. unfold OfframpWorkflow, Activities.offrampActivity,
      FxRepo.getFxRate.
    apply keeps_bind; [exact (same_rows_of_trans other)| |].
    2: intros; apply keeps_ret; exact (same_rows_of_refl other).
    apply keeps_bind;
      [exact (same_rows_of_trans other)|apply rows_select|].
    intros [fx|]; cbn [OfframpInput.paymentId]; rows_calls other Hne.
Qed.

Lemma same_funding_refl w : same_funding w w.
Proof. reflexivity. Qed.

Lemma same_funding_trans a b c :
  same_funding a b -> same_funding b c -> same_funding a c.
Proof. unfold same_funding. congruence. Qed.

Ltac funding_kept :=
  repeat first
    [ apply keeps_ret; exact same_funding_refl
    | apply keeps_throw; exact same_funding_refl
    | apply keeps_query; [exact same_funding_refl|intros ? _; reflexivity]
    | intros ?; reflexivity
    | apply keeps_bind; [exact same_funding_trans| |intros ?] ].

Lemma createPayment_same_funding id usd cur st :
  keeps same_funding (Activities.createPaymentActivity id usd cur st).
Proof.
  unfold Activities.createPaymentActivity, PaymentsRepo.createPayment.
  funding_kept.
Qed.

Lemma updatePaymentStatus_same_funding id st :
  keeps same_funding (Activities.updatePaymentStatusActivity id st).
Proof.
  unfold Activities.updatePaymentStatusActivity,
    PaymentsRepo.updatePaymentStatus.
  apply keeps_bind; [exact same_funding_trans|intros ?; reflexivity|].
  intros [r|]; funding_kept.
Qed.

Lemma MintingWorkflow_same_funding input :
  keeps same_funding (MintingWorkflow input).
Proof.
  unfold MintingWorkflow, Activities.mintUsdcActivity,
    MintingRepo.createMintingRecord, FeesRepo.createFeeRecord.
  destruct (includes _ _); cbn [LegStatus.is_completed];
    repeat first
      [ apply keeps_ret; exact same_funding_refl
      | apply keeps_query; [exact same_funding_refl|intros ? _; reflexivity]
      | apply keeps_bind; [exact same_funding_trans| |intros ?]
      | intros ?; reflexivity ].
Qed.

Lemma OfframpWorkflow_same_funding params :
  keeps same_funding (OfframpWorkflow params).
Proof.
  unfold OfframpWorkflow, Activities.offrampActivity,
    OfframpRepo.createOfframpRecord, FeesRepo.createFeeRecord,
    FxRepo.getFxRate.
  apply keeps_bind; [exact same_funding_trans| |].
  2: intros; apply keeps_ret; exact same_funding_refl.
  apply keeps_bind; [exact same_funding_trans|intros ?; reflexivity|].
  intros [fx|];
    repeat first
      [ apply keeps_ret; exact same_funding_refl
      | apply keeps_query; [exact same_funding_refl|intros ? _; reflexivity]
      | apply keeps_bind; [exact same_funding_trans| |intros ?]
      | intros ?; reflexivity ].
Qed.

Lemma FundingWorkflow_funding_table input w :
  let row := funding_row w input FundingStatus.COMPLETED in
  match fst (FundingWorkflow input w) with
  | Ok res =>
      FundingResult.fundingId res = Funding.id row
      /\ has_id (map Funding.id (funding (store w))) (Funding.id row) = false
      /\ funding (store (snd (FundingWorkflow input w)))
         = row :: funding (store w)
  | Thrown _ =>
      funding (store (snd (FundingWorkflow input w))) = funding (store w)
      \/ funding (store (snd (FundingWorkflow input w)))
         = row :: funding (store w)
  end.
Proof.
  cbv zeta.
  unfold FundingWorkflow, Activities.createFundingActivity,
    FundingRepo.createFundingRecord, FeesRepo.createFeeRecord, bind, nanoid,
    query, ret.
  cbn [fst snd store drawn first_violation].
  destruct (has_id (map Funding.id (funding (store w)))
                   (nanoid_source w (nanoid_calls w))) eqn:Hid;
    cbn [negb fst snd]; [left; reflexivity|].
  destruct (has_id (payment_ids (store w)) (PaymentInput.paymentId input));
    cbn [fst snd]; [|left; reflexivity].
  destruct (numeric_18_2 (PaymentInput.amountUsd input));
    cbn [fst snd]; [|left; reflexivity].
  cbn [store drawn written].
  match goal with
  | |- context [match ?c with Some _ => _ | None => _ end] => destruct c
  end; cbn [fst snd store drawn written].
  - right. reflexivity.
  - split; [reflexivity|]. split; [exact Hid|reflexivity].
Qed.

Lemma compensate_funding_table fid w :
  funding (store (snd (Activities.compensateFundingActivity fid w)))
  = funding (store w)
  \/ funding (store (snd (Activities.compensateFundingActivity fid w)))
     = map (FundingRepo.set_status fid FundingStatus.COMPENSATED)
           (funding (store w)).
Proof.
  unfold Activities.compensateFundingActivity,
    FundingRepo.updateFundingStatus, bind, select, query, throw, ret.
  destruct (find _ (funding (store w))); cbn [fst snd];
    [right|left]; reflexivity.
Qed.

Ltac table_effect a w :=
  lazymatch a with
  | Activities.createPaymentActivity ?i ?x ?c ?s =>
      pose proof (createPayment_same_funding i x c s w)
  | Activities.updatePaymentStatusActivity ?i ?s =>
      pose proof (updatePaymentStatus_same_funding i s w)
  | Activities.compensateFundingActivity ?f =>
      pose proof (compensate_funding_table f w)
  | FundingWorkflow ?i => pose proof (FundingWorkflow_funding_table i w)
  | MintingWorkflow ?i => pose proof (MintingWorkflow_same_funding i w)
  | OfframpWorkflow ?i => pose proof (OfframpWorkflow_same_funding i w)
  end.

Ltac table_step tac :=
  first
  [ match goal with
    | |- context [match fst (?a ?w) with _ => _ end] =>
        table_effect a w;
        destruct (a w) as [[?|?] ?]; cbn [fst snd] in *;
        [ | solve [tac] ]
    end
  | progress (pure_step; rewrite ?bind_await_eq; pure_step) ].

Ltac chain_table :=
  cbv zeta in *; unfold same_funding in *; cbn [fst snd world stage] in *;
  repeat match goal with
         | H : _ /\ _ |- _ => destruct H
         | H : _ \/ _ |- _ => destruct H
         end;
  subst;
  repeat match goal with
         | H : funding (store ?x) = _ |- _ =>
             is_var x; try rewrite H in *; clear H
         end.

Ltac table_fin :=
  chain_table;
  first [ left; reflexivity
        | right; eexists; split; [|reflexivity]; reflexivity
        | right; eexists; split;
          [|cbn [map];
            rewrite funding_update_absent by eassumption;
            reflexivity];
          unfold FundingRepo.set_status;
          destruct (String.eqb _ _); reflexivity ].

Lemma funding_table_of_run input w c re st slots :
  let w' := world (snd (PaymentWorkflow input (mkRun w c re st slots))) in
  funding (store w') = funding (store w)
  \/ exists row,
       Funding.payment_id row = PaymentInput.paymentId input
       /\ funding (store w') = row :: funding (store w).
Proof.
  cbv zeta.
  unfold PaymentWorkflow, startChild, child_result.
  repeat table_step table_fin. pure_step.
  match goal with
  | |- context [match FundingResult.status ?x with _ => _ end] =>
      destruct x as [[|] ?]
  end; cbn [FundingResult.status FundingResult.fundingId] in *.
  2: { repeat table_step table_fin. pure_step. table_fin. }
  pure_step.
  match goal with
  | |- context [if ?b then _ else _] => destruct b
  end.
  { repeat table_step table_fin. pure_step. table_fin. }
  repeat table_step table_fin. pure_step.
  match goal with
  | |- context [match MintingResult.status ?x with _ => _ end] =>
      destruct x as [[|] ? ?]
  end; cbn [MintingResult.status MintingResult.usdcAmount
            MintingResult.usdcRate].
  2: { repeat table_step table_fin. pure_step. table_fin. }
  repeat table_step table_fin. pure_step.
  match goal with
  | |- context [match OfframpResult.status ?x with _ => _ end] =>
      destruct x as [[|] ? ?]
  end; cbn [OfframpResult.status OfframpResult.localAmount
            OfframpResult.fxRate].
  2: { repeat table_step table_fin. pure_step. table_fin. }
  repeat table_step table_fin. pure_step. table_fin.
Qed.

(** A run touches the rows of its own payment only: what
    [GET /payments/:id] answers for any other identifier, 404 included, is
    the same before and after, on every world and whether the run returns
    or throws. *)
Theorem run_leaves_other_payments_alone :
  forall (w : World) (input : PaymentInput.t)
         (signals : list (list (option string))) (other : string),
    other <> PaymentInput.paymentId input ->
    Server.getPayment other
      (store (world (snd (PaymentWorkflow input (start w signals)))))
    = Server.getPayment other (store w).
Proof.
  intros w input signals other Hne.
  destruct (PaymentWorkflow_same_rows other input (start w signals) Hne)
    as (Hp & Hm & Ho & Hf).
  assert (Hfunding :
    Server.funding_of other
      (store (world (snd (PaymentWorkflow input (start w signals)))))
    = Server.funding_of other (store w)).
  { unfold Server.funding_of.
    destruct (funding_table_of_run input w false None "STARTING" signals)
      as [H|(row & Hrow & H)]; unfold start; rewrite H; [reflexivity|].
    cbn [filter]. rewrite Hrow.
    assert (Hb : String.eqb (PaymentInput.paymentId input) other = false)
      by (apply String.eqb_neq; congruence).
    rewrite Hb. reflexivity. }
  unfold Server.getPayment.
  cbn [world start] in Hp. rewrite Hp, Hfunding, Hm, Ho, Hf. reflexivity.
Qed.

Lemma run_leaves_other_payments_alone_witness :
  Server.getPayment "payment-0"
    (store (world (snd (PaymentWorkflow demo_input
                          (start settled_world [[Some "late"]])))))
  = Server.getPayment "payment-0" settled_store.
Proof.
  apply (run_leaves_other_payments_alone settled_world demo_input
           [[Some "late"]] "payment-0").
  discriminate.
Defined.

(** ** The import of the rates *)

Lemma ascii_compare_lt_trans a b c :
  Ascii.compare a b = Lt -> Ascii.compare b c = Lt -> Ascii.compare a c = Lt.
Proof.
  unfold Ascii.compare. rewrite !N.compare_lt_iff. apply N.lt_trans.
Qed.

Lemma ascii_compare_refl a : Ascii.compare a a = Eq.
Proof. unfold Ascii.compare. apply N.compare_refl. Qed.

Lemma string_compare_refl a : String.compare a a = Eq.
Proof.
  induction a as [|x a IH]; [reflexivity|].
  cbn [String.compare]. rewrite ascii_compare_refl. exact IH.
Qed.

Lemma string_compare_lt_trans a b c :
  String.compare a b = Lt -> String.compare b c = Lt ->
  String.compare a c = Lt.
Proof.
  revert b c. induction a as [|x a IH]; intros [|y b] [|z c];
    cbn [String.compare]; try discriminate; try reflexivity.
  destruct (Ascii.compare x y) eqn:Hxy; try discriminate;
    destruct (Ascii.compare y z) eqn:Hyz; try discriminate; intros H1 H2.
  - apply Ascii.compare_eq_iff in Hxy, Hyz. subst.
    rewrite ascii_compare_refl. exact (IH _ _ H1 H2).
  - apply Ascii.compare_eq_iff in Hxy. subst. rewrite Hyz. reflexivity.
  - apply Ascii.compare_eq_iff in Hyz. subst. rewrite Hxy. reflexivity.
  - rewrite (ascii_compare_lt_trans _ _ _ Hxy Hyz). reflexivity.
Qed.

Lemma string_ltb_trans a b c :
  String.ltb a b = true -> String.ltb b c = true -> String.ltb a c = true.
Proof.
  unfold String.ltb.
  destruct (String.compare a b) eqn:Hab; try discriminate.
  destruct (String.compare b c) eqn:Hbc; try discriminate.
  rewrite (string_compare_lt_trans _ _ _ Hab Hbc). reflexivity.
Qed.

Lemma string_ltb_irrefl a : String.ltb a a = false.
Proof. unfold String.ltb. rewrite string_compare_refl. reflexivity. Qed.

Lemma get_set_same V k (v : V) m :
  ImportFxRates.get k (ImportFxRates.set k v m) = Some v.
Proof.
  induction m as [|[k' v'] m IH]; cbn [ImportFxRates.set ImportFxRates.get].
  - rewrite String.eqb_refl. reflexivity.
  - destruct (String.eqb k' k) eqn:Hk; cbn [ImportFxRates.get]; rewrite Hk;
      [reflexivity|exact IH].
Qed.

Lemma get_set_other V k k' (v : V) m :
  k' <> k ->
  ImportFxRates.get k' (ImportFxRates.set k v m) = ImportFxRates.get k' m.
Proof.
  intros Hne.
  induction m as [|[k0 v0] m IH]; cbn [ImportFxRates.set ImportFxRates.get].
  - assert (H : String.eqb k k' = false)
      by (apply String.eqb_neq; congruence).
    rewrite H. reflexivity.
  - destruct (String.eqb k0 k) eqn:Hk; cbn [ImportFxRates.get].
    + apply String.eqb_eq in Hk. subst k0.
      assert (H : String.eqb k k' = false)
        by (apply String.eqb_neq; congruence).
      rewrite H. reflexivity.
    + rewrite IH. reflexivity.
Qed.

Lemma keeps_latest_step seen m row :
  keeps_latest seen m ->
  keeps_latest (seen ++ [row])
    (let key := ImportFxRates.country_currency_desc row in
     match ImportFxRates.get key m with
     | Some existing =>
         if String.ltb (ImportFxRates.effective_date existing)
                       (ImportFxRates.effective_date row)
         then ImportFxRates.set key row m
         else m
     | None => ImportFxRates.set key row m
     end).
Proof.
  intros Inv desc. cbv zeta.
  set (key := ImportFxRates.country_currency_desc row).
  destruct (String.eqb_spec desc key) as [->|Hne].
  - pose proof (Inv key) as Hk.
    destruct (ImportFxRates.get key m) as [k|] eqn:Hget.
    + destruct Hk as (Hin & Hdesc & Hmax).
      destruct (String.ltb (ImportFxRates.effective_date k)
                           (ImportFxRates.effective_date row)) eqn:Hlt.
      * rewrite get_set_same. split; [apply in_or_app; right; left;
                                       reflexivity|].
        split; [reflexivity|]. intros r Hr Hrd.
        apply in_app_or in Hr. destruct Hr as [Hr|[<-|[]]].
        -- destruct (String.ltb (ImportFxRates.effective_date row)
                                (ImportFxRates.effective_date r)) eqn:Hrr;
             [|reflexivity].
           rewrite <- (Hmax r Hr Hrd).
           symmetry. exact (string_ltb_trans _ _ _ Hlt Hrr).
        -- apply string_ltb_irrefl.
      * rewrite Hget. split; [apply in_or_app; left; exact Hin|].
        split; [exact Hdesc|]. intros r Hr Hrd.
        apply in_app_or in Hr. destruct Hr as [Hr|[<-|[]]].
        -- exact (Hmax r Hr Hrd).
        -- exact Hlt.
    + rewrite get_set_same. split; [apply in_or_app; right; left;
                                     reflexivity|].
      split; [reflexivity|]. intros r Hr Hrd.
      apply in_app_or in Hr. destruct Hr as [Hr|[<-|[]]].
      * exfalso. exact (Hk r Hr Hrd).
      * apply string_ltb_irrefl.
  - assert (Hsame :
      ImportFxRates.get desc
        match ImportFxRates.get key m with
        | Some existing =>
            if String.ltb (ImportFxRates.effective_date existing)
                          (ImportFxRates.effective_date row)
            then ImportFxRates.set key row m
            else m
        | None => ImportFxRates.set key row m
        end
      = ImportFxRates.get desc m).
    { destruct (ImportFxRates.get key m) as [k|];
        [destruct (String.ltb _ _)|];
        rewrite ?get_set_other by exact Hne; reflexivity. }
    rewrite Hsame. pose proof (Inv desc) as Hd.
    destruct (ImportFxRates.get desc m) as [k|].
    + destruct Hd as (Hin & Hdesc & Hmax).
      split; [apply in_or_app; left; exact Hin|].
      split; [exact Hdesc|]. intros r Hr Hrd.
      apply in_app_or in Hr. destruct Hr as [Hr|[<-|[]]].
      * exact (Hmax r Hr Hrd).
      * exfalso. apply Hne. symmetry. exact Hrd.
    + intros r Hr. apply in_app_or in Hr. destruct Hr as [Hr|[<-|[]]].
      * exact (Hd r Hr).
      * intros Heq. apply Hne. symmetry. exact Heq.
Qed.

(** Of the rows of the Treasury file, the import keeps for each
    description one row of that description, and no row of that
    description in the file has a later effective date; a description is
    without a kept row only when the file has no row for it. *)
Theorem latest_row_is_kept :
  forall data : list ImportFxRates.TreasuryRow,
    keeps_latest data (ImportFxRates.latestByDesc data).
Proof.
  intros data. unfold ImportFxRates.latestByDesc.
  assert (H : forall seen m,
            keeps_latest seen m ->
            keeps_latest (seen ++ data)
              (fold_left
                 (fun latest row =>
                    let key := ImportFxRates.country_currency_desc row in
                    match ImportFxRates.get key latest with
                    | Some existing =>
                        if String.ltb
                             (ImportFxRates.effective_date existing)
                             (ImportFxRates.effective_date row)
                        then ImportFxRates.set key row latest
                        else latest
                    | None => ImportFxRates.set key row latest
                    end)
                 data m)).
  { induction data as [|row data IH]; intros seen m Inv.
    - rewrite app_nil_r. exact Inv.
    - cbn [fold_left].
      replace (seen ++ row :: data) with ((seen ++ [row]) ++ data)
        by (rewrite <- app_assoc; reflexivity).
      apply IH. apply keeps_latest_step. exact Inv. }
  apply (H [] []). intros desc r [].
Qed.

Lemma descToCode_eq S codeToDesc desc (s : S) :
  ImportFxRates.descToCode codeToDesc desc s
  = match ImportFxRates.code_of codeToDesc desc with
    | Some code => (Ok code, s)
    | None =>
        (Thrown (Error (ImportFxRates.unknown_description desc)), s)
    end.
Proof.
  unfold ImportFxRates.descToCode, ImportFxRates.code_of.
  destruct (ImportFxRates.get desc _) as [code|]; [|reflexivity].
  destruct (String.eqb code ""); reflexivity.
Qed.

Lemma each_cons Number is_date codeToDesc desc row rest table :
  ImportFxRates.each Number is_date codeToDesc ((desc, row) :: rest) table
  = match ImportFxRates.code_of codeToDesc desc with
    | Some code =>
        match
          ImportFxRates.upsert is_date "USD" code
            (Number (ImportFxRates.exchange_rate row))
            (ImportFxRates.effective_date row) table
        with
        | (Ok _, table') =>
            ImportFxRates.each Number is_date codeToDesc rest table'
        | (Thrown e, table') => (Thrown e, table')
        end
    | None =>
        (Thrown (Error (ImportFxRates.unknown_description desc)), table)
    end.
Proof.
  cbn [ImportFxRates.each]. unfold bind at 1. rewrite descToCode_eq.
  destruct (ImportFxRates.code_of codeToDesc desc); reflexivity.
Qed.

Lemma upsert_eq is_date base quote rate asOf table :
  ImportFxRates.upsert is_date base quote rate asOf table
  = if numeric_18_6 rate && is_date asOf
    then
      (Ok tt,
       if existsb (ImportFxRates.same_pair base quote) table
       then map (fun r => if ImportFxRates.same_pair base quote r
                          then FxRate.mk base quote rate asOf else r) table
       else FxRate.mk base quote rate asOf :: table)
    else
      (Thrown (DatabaseError
                 (if numeric_18_6 rate then "fx_rates.as_of"
                  else "fx_rates.rate")), table).
Proof.
  unfold ImportFxRates.upsert. cbn [first_violation].
  destruct (numeric_18_6 rate); [|reflexivity].
  destruct (is_date asOf); reflexivity.
Qed.

Lemma each_importable Number is_date codeToDesc entries table :
  match ImportFxRates.each Number is_date codeToDesc entries table with
  | (Ok _, _) =>
      ImportFxRates.importable Number is_date codeToDesc entries = true
  | (Thrown _, _) =>
      ImportFxRates.importable Number is_date codeToDesc entries = false
  end.
Proof.
  revert table. induction entries as [|[desc row] rest IH]; intros table.
  - reflexivity.
  - rewrite each_cons. unfold ImportFxRates.importable.
    cbn [forallb fst snd].
    destruct (ImportFxRates.code_of codeToDesc desc) as [code|];
      [|reflexivity].
    rewrite upsert_eq.
    destruct (numeric_18_6 _ && is_date _); [|reflexivity].
    cbn [andb]. apply IH.
Qed.

(** The import is all or nothing.  It exits with code 0 exactly when every
    kept description has a code in the mapping file and every kept rate
    and date is taken by the table; otherwise it exits with code 1 and the
    table is as it was, whatever was upserted before the failing row. *)
Theorem import_is_all_or_nothing :
  forall (Number : string -> number) (is_date : string -> bool)
         (codeToDesc : list (string * string))
         (data : list ImportFxRates.TreasuryRow) (table : list FxRate.t),
    let out := ImportFxRates.main Number is_date codeToDesc data table in
    if ImportFxRates.importable Number is_date codeToDesc
         (ImportFxRates.latestByDesc data)
    then fst out = 0
    else out = (1, table).
Proof.
  intros Number is_date codeToDesc data table. cbv zeta.
  unfold ImportFxRates.main.
  pose proof (each_importable Number is_date codeToDesc
                (ImportFxRates.latestByDesc data) table) as H.
  destruct (ImportFxRates.each _ _ _ _ _) as [[u|e] t]; rewrite H;
    reflexivity.
Qed.





(** ** Importing again *)

Lemma same_pair_self n :
  ImportFxRates.same_pair (FxRate.base_currency n) (FxRate.quote_currency n)
                          n = true.
Proof.
  unfold ImportFxRates.same_pair. rewrite !String.eqb_refl. reflexivity.
Qed.

Lemma same_pair_key base quote n r :
  ImportFxRates.same_pair (FxRate.base_currency n) (FxRate.quote_currency n)
                          r = true ->
  ImportFxRates.same_pair base quote n = ImportFxRates.same_pair base quote r.
Proof.
  unfold ImportFxRates.same_pair. intros H. apply andb_prop in H.
  destruct H as [Hb Hq]. apply String.eqb_eq in Hb, Hq.
  rewrite Hb, Hq. reflexivity.
Qed.

Lemma each_is_fold Number is_date codeToDesc entries :
  ImportFxRates.importable Number is_date codeToDesc entries = true ->
  forall table,
    ImportFxRates.each Number is_date codeToDesc entries table
    = (Ok tt, fold_left (fun t n => put n t)
                (rows_of Number codeToDesc entries) table).
Proof.
  induction entries as [|[desc row] rest IH]; intros Himp table.
  - reflexivity.
  - unfold ImportFxRates.importable in Himp.
    cbn [forallb fst snd] in Himp. apply andb_prop in Himp.
    destruct Himp as [Hrow Hrest].
    rewrite each_cons. cbn [rows_of map fold_left fst snd].
    destruct (ImportFxRates.code_of codeToDesc desc) as [q|];
      [|discriminate].
    rewrite upsert_eq, Hrow. rewrite (IH Hrest). reflexivity.
Qed.

Lemma in_put n t r :
  In r (put n t) ->
  r = n
  \/ (In r t
      /\ ImportFxRates.same_pair (FxRate.base_currency n)
                                 (FxRate.quote_currency n) r = false).
Proof.
  unfold put.
  destruct (existsb _ t) eqn:He.
  - intros H. apply in_map_iff in H. destruct H as (r0 & Hr0 & Hin).
    destruct (ImportFxRates.same_pair _ _ r0) eqn:Hs.
    + left. symmetry. exact Hr0.
    + right. subst r0. split; assumption.
  - intros [<-|Hin]; [left; reflexivity|]. right. split; [exact Hin|].
    destruct (ImportFxRates.same_pair _ _ r) eqn:Hs; [|reflexivity].
    assert (Hex : existsb
                    (ImportFxRates.same_pair (FxRate.base_currency n)
                                             (FxRate.quote_currency n)) t
                  = true)
      by (apply existsb_exists; exists r; split; assumption).
    congruence.
Qed.

Lemma put_keeps_keys n t base quote :
  existsb (ImportFxRates.same_pair base quote) t = true ->
  existsb (ImportFxRates.same_pair base quote) (put n t) = true.
Proof.
  intros H. apply existsb_exists in H. destruct H as (r & Hin & Hr).
  apply existsb_exists. unfold put.
  destruct (existsb _ t) eqn:He.
  - destruct (ImportFxRates.same_pair (FxRate.base_currency n)
                (FxRate.quote_currency n) r) eqn:Hs.
    + exists n. split.
      * apply in_map_iff. exists r. rewrite Hs. split; [reflexivity|].
        exact Hin.
      * rewrite (same_pair_key base quote n r Hs). exact Hr.
    + exists r. split; [|exact Hr].
      apply in_map_iff. exists r. rewrite Hs. split; [reflexivity|].
      exact Hin.
  - exists r. split; [right; exact Hin|exact Hr].
Qed.

Lemma put_has_key n t :
  existsb (ImportFxRates.same_pair (FxRate.base_currency n)
                                   (FxRate.quote_currency n)) (put n t)
  = true.
Proof.
  unfold put. destruct (existsb _ t) eqn:He.
  - pose proof (put_keeps_keys n t _ _ He) as H. unfold put in H.
    rewrite He in H. exact H.
  - cbn [existsb]. rewrite same_pair_self. reflexivity.
Qed.

Lemma fold_put_keeps_keys news t base quote :
  existsb (ImportFxRates.same_pair base quote) t = true ->
  existsb (ImportFxRates.same_pair base quote)
          (fold_left (fun t n => put n t) news t) = true.
Proof.
  revert t. induction news as [|n news IH]; intros t H; [exact H|].
  cbn [fold_left]. apply IH. apply put_keeps_keys. exact H.
Qed.

Lemma fold_put_has_keys news t n :
  In n news ->
  existsb (ImportFxRates.same_pair (FxRate.base_currency n)
                                   (FxRate.quote_currency n))
          (fold_left (fun t n => put n t) news t) = true.
Proof.
  revert t. induction news as [|n0 news IH]; intros t []; cbn [fold_left].
  - subst n0. apply fold_put_keeps_keys. apply put_has_key.
  - apply IH. assumption.
Qed.

Lemma final_none news r :
  final news r = None ->
  forall n, In n news ->
    ImportFxRates.same_pair (FxRate.base_currency n)
                            (FxRate.quote_currency n) r = false.
Proof.
  induction news as [|n0 news IH]; intros H n []; cbn [final] in H;
    destruct (final news r) eqn:Hf; try discriminate.
  - subst n0. destruct (ImportFxRates.same_pair _ _ r); [discriminate|].
    reflexivity.
  - apply IH; [reflexivity|assumption].
Qed.

Lemma final_key news n r :
  ImportFxRates.same_pair (FxRate.base_currency n) (FxRate.quote_currency n)
                          r = true ->
  final news n = final news r.
Proof.
  intros H. induction news as [|n0 news IH]; [reflexivity|].
  cbn [final]. rewrite IH, (same_pair_key _ _ n r H). reflexivity.
Qed.

Lemma untouched_rows news t r :
  In r (fold_left (fun t n => put n t) news t) ->
  final news r = None -> In r t.
Proof.
  revert t. induction news as [|n news IH]; intros t Hin Hf; [exact Hin|].
  cbn [fold_left] in Hin. cbn [final] in Hf.
  destruct (final news r) eqn:Hr; [discriminate|].
  destruct (ImportFxRates.same_pair _ _ r) eqn:Hs; [discriminate|].
  specialize (IH _ Hin eq_refl). apply in_put in IH.
  destruct IH as [->|[H _]]; [|exact H].
  rewrite same_pair_self in Hs. discriminate.
Qed.

Lemma rows_are_final news t r :
  In r (fold_left (fun t n => put n t) news t) ->
  match final news r with
  | Some n => n
  | None => r
  end = r.
Proof.
  revert t. induction news as [|n news IH]; intros t Hin; [reflexivity|].
  cbn [fold_left] in Hin. cbn [final].
  pose proof (IH _ Hin) as Hr.
  destruct (final news r) eqn:Hf; [exact Hr|].
  destruct (ImportFxRates.same_pair _ _ r) eqn:Hs; [|reflexivity].
  pose proof (untouched_rows _ _ _ Hin Hf) as Hput.
  apply in_put in Hput. destruct Hput as [->|[_ H]]; [reflexivity|].
  congruence.
Qed.

Lemma fold_put_on_keys news :
  forall t,
    (forall n, In n news ->
       existsb (ImportFxRates.same_pair (FxRate.base_currency n)
                                        (FxRate.quote_currency n)) t
       = true) ->
    fold_left (fun t n => put n t) news t
    = map (fun r => match final news r with
                    | Some n => n
                    | None => r
                    end) t.
Proof.
  induction news as [|n news IH]; intros t Hkeys.
  - cbn [fold_left final]. symmetry. apply map_id.
  - cbn [fold_left]. rewrite IH.
    2: { intros n' Hn'. apply put_keeps_keys. apply Hkeys. right.
         exact Hn'. }
    unfold put. rewrite (Hkeys n (or_introl eq_refl)).
    rewrite map_map. apply map_ext. intros r. cbn [final].
    destruct (ImportFxRates.same_pair _ _ r) eqn:Hs.
    + rewrite (final_key news n r Hs).
      destruct (final news r); reflexivity.
    + destruct (final news r); reflexivity.
Qed.

Lemma fold_put_twice news t :
  fold_left (fun t n => put n t) news
    (fold_left (fun t n => put n t) news t)
  = fold_left (fun t n => put n t) news t.
Proof.
  rewrite fold_put_on_keys
    by (intros n Hn; apply fold_put_has_keys; exact Hn).
  rewrite <- (map_id (fold_left (fun t n => put n t) news t)) at 2.
  apply map_ext_in. intros r Hr. exact (rows_are_final _ _ _ Hr).
Qed.

(** Importing the same file again changes nothing: the second run exits
    with the code of the first and leaves the table the first one left. *)
Theorem import_twice_is_import_once :
  forall (Number : string -> number) (is_date : string -> bool)
         (codeToDesc : list (string * string))
         (data : list ImportFxRates.TreasuryRow) (table : list FxRate.t),
    let out := ImportFxRates.main Number is_date codeToDesc data table in
    ImportFxRates.main Number is_date codeToDesc data (snd out) = out.
Proof.
  intros Number is_date codeToDesc data table. cbv zeta.
  unfold ImportFxRates.main.
  destruct (ImportFxRates.importable Number is_date codeToDesc
              (ImportFxRates.latestByDesc data)) eqn:Himp.
  - rewrite !(each_is_fold _ _ _ _ Himp). cbn [snd].
    rewrite ?(each_is_fold _ _ _ _ Himp), fold_put_twice. reflexivity.
  - pose proof (each_importable Number is_date codeToDesc
                  (ImportFxRates.latestByDesc data) table) as H.
    destruct (ImportFxRates.each _ _ _ _ table) as [[u|e] t] eqn:He;
      [congruence|].
    cbn [snd]. rewrite He. reflexivity.
Qed.

(** ** From the Treasury file to the payout *)


